(** * BEX-CLI-ULTRA: the agent orchestration core and the MCP file server

    A shallow embedding of [index.js] (conversation store, provider
    gateway, command table, agent loop) and of [mcp-files-server.js]
    (the tool server), followed by the properties of the specification
    that were checked against them.

    Conventions.
    - A JavaScript string is the list of its UTF-16 code units; a file
      is the list of its bytes.
    - The built-ins the properties depend on are modelled after their
      definitions: [JSON.stringify] and [JSON.parse] (ECMA-262), the
      UTF-8 encoding of the [fs] module, the string methods.
    - A value that the program obtains from outside (a model backend, the
      file system, the shell, the browser) is read from an oracle; the
      oracles of [index.js] are indexed by a clock that advances with
      every external call, so that two identical calls may answer
      differently.
    - Handlers are awaited one after the other, as in the source; two
      input lines are never interleaved.
    - Terminal output (chalk, ora, console) is not part of the model. *)

From Stdlib Require Import List NArith Arith Bool Lia String Ascii.
Import ListNotations.

Set Warnings "-register-all".

(* ================================================================== *)
(** * Part I: definitions *)
(* ================================================================== *)

(** ** JavaScript strings *)

Module JS.

Definition jsstring := list N.

(** A literal of the source text, as code units. *)
Definition lit (s : string) : jsstring :=
  map N_of_ascii (list_ascii_of_string s).

Fixpoint eqb (a b : jsstring) : bool :=
  match a, b with
  | [], [] => true
  | x :: a', y :: b' => N.eqb x y && eqb a' b'
  | _, _ => false
  end.

(** [s.startsWith(p)] *)
Fixpoint startsWith (s p : jsstring) : bool :=
  match p, s with
  | [], _ => true
  | y :: p', x :: s' => N.eqb x y && startsWith s' p'
  | _ :: _, [] => false
  end.

(** [s.includes(p)] *)
Fixpoint includes (s p : jsstring) : bool :=
  startsWith s p ||
  match s with
  | [] => false
  | _ :: s' => includes s' p
  end.

(** [s.endsWith(p)] *)
Definition endsWith (s p : jsstring) : bool :=
  startsWith (rev s) (rev p).

(** [l.join(sep)] *)
Fixpoint join (sep : jsstring) (l : list jsstring) : jsstring :=
  match l with
  | [] => []
  | [x] => x
  | x :: rest => x ++ sep ++ join sep rest
  end.

(** [s.split(sep)] for a separator of one code unit: never empty, and
    consecutive separators give empty pieces. *)
Fixpoint split1 (sep : N) (s : jsstring) : list jsstring :=
  match s with
  | [] => [[]]
  | c :: s' =>
      if N.eqb c sep then [] :: split1 sep s'
      else match split1 sep s' with
           | [] => [[c]]
           | piece :: pieces => (c :: piece) :: pieces
           end
  end.

(** WhiteSpace and LineTerminator code units, the set [trim] strips. *)
Definition isSpace (c : N) : bool :=
  ((9 <=? c) && (c <=? 13) || (c =? 32) || (c =? 160) || (c =? 5760)
   || (8192 <=? c) && (c <=? 8202) || (c =? 8232) || (c =? 8233)
   || (c =? 8239) || (c =? 8287) || (c =? 12288) || (c =? 65279))%N.

Fixpoint trimStart (s : jsstring) : jsstring :=
  match s with
  | c :: s' => if isSpace c then trimStart s' else s
  | [] => []
  end.

Definition trimEnd (s : jsstring) : jsstring := rev (trimStart (rev s)).

(** [s.trim()] *)
Definition trim (s : jsstring) : jsstring := trimEnd (trimStart s).

(** [s.toLowerCase()], exact on the code units whose lower case is an
    ASCII letter (A-Z and the Kelvin sign U+212A); every other code unit
    is left as it is.  The program only ever compares the result with an
    ASCII literal, and on such comparisons this agrees with the Unicode
    mapping: the lower case of any other character holds a character
    outside ASCII. *)
Definition lowerUnit (c : N) : N :=
  (if (65 <=? c) && (c <=? 90) then c + 32
   else if c =? 8490 then 107
   else c)%N.

Definition toLowerCase (s : jsstring) : jsstring := map lowerUnit s.

(** Truthiness of an optional string: [undefined] and [''] are falsy. *)
Definition truthy (o : option jsstring) : bool :=
  match o with
  | Some (_ :: _) => true
  | _ => false
  end.

(** Every element is a 16-bit code unit, as in a string of the
    program. *)
Definition isString (s : jsstring) : Prop := Forall (fun c => (c < 65536)%N) s.

(** The result of a call that may throw: a value, or the message of the
    [Error] it raised. *)
Inductive Result (A : Type) : Type :=
| Ok (a : A)
| Err (message : jsstring).
Arguments Ok {A} a.
Arguments Err {A} message.

End JS.

Import JS.

(* ------------------------------------------------------------------ *)
(** ** The tool server ([mcp-files-server.js]) *)

Module ToolServer.

(** The file-system calls of one request. *)
Record FileSystem := {
  fs_readFile : jsstring -> Result jsstring;
  fs_writeFile : jsstring -> jsstring -> Result unit;
  fs_appendFile : jsstring -> jsstring -> Result unit
}.

Inductive Body :=
| ErrorBody (error : jsstring)     (* { error } *)
| OutputBody (output : jsstring).  (* { output } *)

Record Response := { status : nat; body : Body }.

(** [POST /tools/:toolName] with body [{ arguments }]; [None] is a body
    without an [arguments] member. *)
Record Request := {
  toolName : jsstring;
  arguments : option (list jsstring)
}.

(** The cases of the [switch]. *)
Inductive Tool := ReadFile | WriteFile | AppendFile.

Definition tool_of_name (name : jsstring) : option Tool :=
  if JS.eqb name (lit "readFile") then Some ReadFile
  else if JS.eqb name (lit "writeFile") then Some WriteFile
  else if JS.eqb name (lit "appendFile") then Some AppendFile
  else None.

(** Messages of the [TypeError]s raised when [args] is [undefined] and
    when [args[0]] is; their text comes from the engine. *)
Definition msg_args_undefined : jsstring :=
  lit "Cannot read properties of undefined (reading '0')".
Definition msg_path_undefined : jsstring :=
  lit "The 'path' argument must be of type string or an instance of Buffer or URL. Received undefined".

Section Server.

(** [path.isAbsolute] depends on the platform the server runs on. *)
Variable isAbsolute : jsstring -> bool.
Variable fs : FileSystem.

(** [args[0].includes('..') || path.isAbsolute(args[0])] *)
Definition path_rejected (a0 : jsstring) : bool :=
  includes a0 (lit "..") || isAbsolute a0.

(** [args && args[0] && (...)] *)
Definition invalid_path (args : option (list jsstring)) : bool :=
  match args with
  | Some (a0 :: _) => truthy (Some a0) && path_rejected a0
  | _ => false
  end.

(** The path operand [args[0]] of a file-system call. *)
Definition path_operand (args : option (list jsstring)) : Result jsstring :=
  match args with
  | None => Err msg_args_undefined
  | Some [] => Err msg_path_undefined
  | Some (a0 :: _) => Ok a0
  end.

(** [args.slice(1).join(' ')] *)
Definition content_operand (args : list jsstring) : jsstring :=
  join (lit " ") (tl args).

(** The body of one [case]: what the tool outputs, or the error that
    reaches the [catch]. *)
Definition run_tool (t : Tool) (args : option (list jsstring)) : Result jsstring :=
  match t with
  | ReadFile =>
      match path_operand args with
      | Err e => Err e
      | Ok p => fs_readFile fs p
      end
  | WriteFile =>
      match args with
      | None => Err msg_args_undefined
      | Some l =>
          match path_operand args with
          | Err e => Err e
          | Ok p =>
              match fs_writeFile fs p (content_operand l) with
              | Err e => Err e
              | Ok _ => Ok (lit "Successfully wrote to " ++ p)
              end
          end
      end
  | AppendFile =>
      match args with
      | None => Err msg_args_undefined
      | Some l =>
          match path_operand args with
          | Err e => Err e
          | Ok p =>
              match fs_appendFile fs p (10%N :: content_operand l) with
              | Err e => Err e
              | Ok _ => Ok (lit "Successfully appended to " ++ p)
              end
          end
      end
  end.

(** [app.post('/tools/:toolName', ...)] *)
Definition post (req : Request) : Response :=
  if invalid_path (arguments req) then
    {| status := 400;
       body := ErrorBody (lit "Invalid file path. Only relative paths are allowed.") |}
  else
    match tool_of_name (toolName req) with
    | None => {| status := 404; body := ErrorBody (lit "Tool not found") |}
    | Some t =>
        match run_tool t (arguments req) with
        | Ok out => {| status := 200; body := OutputBody out |}
        | Err e => {| status := 500; body := ErrorBody e |}
        end
    end.

End Server.

(** [path.isAbsolute] of [path.posix]. *)
Definition posix_isAbsolute (p : jsstring) : bool := startsWith p (lit "/").

(** A file system with one file, used to run the server. *)
Definition oneFile : FileSystem := {|
  fs_readFile := fun p => if JS.eqb p (lit "notes.txt") then Ok (lit "hello")
                          else Err (lit "ENOENT: no such file or directory");
  fs_writeFile := fun _ _ => Ok tt;
  fs_appendFile := fun _ _ => Ok tt
|}.

End ToolServer.

(* ------------------------------------------------------------------ *)
(** ** JSON text: [JSON.stringify] and [JSON.parse] *)

Module JSON.

(** A parsed JSON document.  An object keeps its members in source
    order; a number keeps the text of its literal. *)
Inductive value :=
| JNull
| JBool (b : bool)
| JNumber (lexeme : jsstring)
| JString (s : jsstring)
| JArray (items : list value)
| JObject (members : list (jsstring * value)).

(** *** Serialisation *)

Definition hexDigit (d : N) : N :=
  (if d <? 10 then 48 + d else 87 + d)%N.

(** [UnicodeEscape]: a backslash, [u] and four lower-case hex digits. *)
Definition unicodeEscape (c : N) : jsstring :=
  [92; 117; hexDigit (c / 4096 mod 16); hexDigit (c / 256 mod 16);
   hexDigit (c / 16 mod 16); hexDigit (c mod 16)]%N.

Definition isHighSurrogate (c : N) : bool := ((55296 <=? c) && (c <=? 56319))%N.
Definition isLowSurrogate (c : N) : bool := ((56320 <=? c) && (c <=? 57343))%N.

(** One code unit that is not part of a surrogate pair. *)
Definition quoteUnit (c : N) : jsstring :=
  (if c =? 8 then [92; 98]
   else if c =? 9 then [92; 116]
   else if c =? 10 then [92; 110]
   else if c =? 12 then [92; 102]
   else if c =? 13 then [92; 114]
   else if c =? 34 then [92; 34]
   else if c =? 92 then [92; 92]
   else if (c <? 32) || isHighSurrogate c || isLowSurrogate c then unicodeEscape c
   else [c])%N.

(** The characters of [QuoteJSONString], read code point by code point:
    a well-formed surrogate pair is copied, a lone surrogate escaped. *)
Fixpoint quoteBody (s : jsstring) : jsstring :=
  match s with
  | [] => []
  | c :: rest =>
      if isHighSurrogate c then
        match rest with
        | d :: rest' =>
            if isLowSurrogate d then c :: d :: quoteBody rest'
            else unicodeEscape c ++ quoteBody rest
        | [] => unicodeEscape c
        end
      else quoteUnit c ++ quoteBody rest
  end.

Definition quote (s : jsstring) : jsstring := 34%N :: quoteBody s ++ [34%N].

(** [SerializeJSONProperty] with [gap] the indentation unit and [indent]
    the current indentation. *)
Fixpoint serialize (gap indent : jsstring) (v : value) : jsstring :=
  let stepback := indent in
  let indent := indent ++ gap in
  let separator :=
    match gap with
    | [] => [44%N]
    | _ => 44%N :: 10%N :: indent
    end in
  let wrap (opening closing : N) (partial : list jsstring) :=
    match partial with
    | [] => [opening; closing]
    | _ =>
        match gap with
        | [] => opening :: join separator partial ++ [closing]
        | _ => opening :: 10%N :: indent ++ join separator partial
                 ++ 10%N :: stepback ++ [closing]
        end
    end in
  match v with
  | JNull => lit "null"
  | JBool true => lit "true"
  | JBool false => lit "false"
  | JNumber lexeme => lexeme
  | JString s => quote s
  | JArray items => wrap 91%N 93%N (map (serialize gap indent) items)
  | JObject members =>
      wrap 123%N 125%N
        (map (fun m => quote (fst m) ++ 58%N ::
                         match gap with [] => [] | _ => [32%N] end
                         ++ serialize gap indent (snd m)) members)
  end.

(** [JSON.stringify(v)] *)
Definition stringify (v : value) : jsstring := serialize [] [] v.

(** [JSON.stringify(v, null, 2)] *)
Definition stringify2 (v : value) : jsstring := serialize (lit "  ") [] v.

(** *** Parsing *)

Definition isWs (c : N) : bool :=
  ((c =? 32) || (c =? 9) || (c =? 10) || (c =? 13))%N.

Fixpoint skipWs (s : jsstring) : jsstring :=
  match s with
  | c :: s' => if isWs c then skipWs s' else s
  | [] => []
  end.

Definition hexValue (c : N) : option N :=
  (if (48 <=? c) && (c <=? 57) then Some (c - 48)
   else if (97 <=? c) && (c <=? 102) then Some (c - 87)
   else if (65 <=? c) && (c <=? 70) then Some (c - 55)
   else None)%N.

Definition hex4 (a b c d : N) : option N :=
  match hexValue a, hexValue b, hexValue c, hexValue d with
  | Some x, Some y, Some z, Some t => Some (x * 4096 + y * 256 + z * 16 + t)%N
  | _, _, _, _ => None
  end.

(** The characters of a string literal after its opening quote, up to
    and including the closing quote. *)
Definition pcons (c : N) (r : option (jsstring * jsstring))
  : option (jsstring * jsstring) :=
  match r with
  | Some (cs, rest) => Some (c :: cs, rest)
  | None => None
  end.

Fixpoint parseChars (s : jsstring) : option (jsstring * jsstring) :=
  match s with
  | [] => None
  | c :: s1 =>
      if (c =? 34)%N then Some ([], s1)
      else if (c =? 92)%N then
        match s1 with
        | e :: s2 =>
            if (e =? 34)%N then pcons 34%N (parseChars s2)
            else if (e =? 92)%N then pcons 92%N (parseChars s2)
            else if (e =? 47)%N then pcons 47%N (parseChars s2)
            else if (e =? 98)%N then pcons 8%N (parseChars s2)
            else if (e =? 102)%N then pcons 12%N (parseChars s2)
            else if (e =? 110)%N then pcons 10%N (parseChars s2)
            else if (e =? 114)%N then pcons 13%N (parseChars s2)
            else if (e =? 116)%N then pcons 9%N (parseChars s2)
            else if (e =? 117)%N then
              match s2 with
              | h1 :: h2 :: h3 :: h4 :: s3 =>
                  match hex4 h1 h2 h3 h4 with
                  | Some u => pcons u (parseChars s3)
                  | None => None
                  end
              | _ => None
              end
            else None
        | [] => None
        end
      else if (c <? 32)%N then None
      else pcons c (parseChars s1)
  end.

Definition isDigit (c : N) : bool := ((48 <=? c) && (c <=? 57))%N.

Fixpoint spanDigits (s : jsstring) : jsstring * jsstring :=
  match s with
  | c :: s' =>
      if isDigit c then let (ds, rest) := spanDigits s' in (c :: ds, rest)
      else ([], s)
  | [] => ([], [])
  end.

(** A number literal: an optional minus sign; a zero, or a non-zero
    digit and further digits; an optional fraction (a dot and digits);
    an optional exponent ([e] or [E], an optional sign, digits). *)
Definition parseNumber (s : jsstring) : option (jsstring * jsstring) :=
  let (sign, s0) :=
    match s with
    | 45%N :: s' => ([45%N], s')
    | _ => ([], s)
    end in
  let int :=
    match s0 with
    | 48%N :: s' => Some ([48%N], s')
    | _ => match spanDigits s0 with
           | ([], _) => None
           | r => Some r
           end
    end in
  match int with
  | None => None
  | Some (ipart, s1) =>
      let frac :=
        match s1 with
        | 46%N :: s' =>
            match spanDigits s' with
            | ([], _) => None
            | (ds, rest) => Some (46%N :: ds, rest)
            end
        | _ => Some ([], s1)
        end in
      match frac with
      | None => None
      | Some (fpart, s2) =>
          let exp :=
            match s2 with
            | e :: s' =>
                if (e =? 101)%N || (e =? 69)%N then
                  let (esign, s'') :=
                    match s' with
                    | g :: t => if (g =? 43)%N || (g =? 45)%N then ([g], t) else ([], s')
                    | [] => ([], s')
                    end in
                  match spanDigits s'' with
                  | ([], _) => None
                  | (ds, rest) => Some (e :: esign ++ ds, rest)
                  end
                else Some ([], s2)
            | [] => Some ([], s2)
            end in
          match exp with
          | None => None
          | Some (epart, s3) => Some (sign ++ ipart ++ fpart ++ epart, s3)
          end
      end
  end.

(** Recursive descent; [fuel] bounds the number of values and list
    continuations still to be read. *)
Fixpoint parseValue (fuel : nat) (s : jsstring) : option (value * jsstring) :=
  match fuel with
  | O => None
  | S fuel' =>
      match skipWs s with
      | [] => None
      | c :: s1 =>
          if (c =? 34)%N then
            match parseChars s1 with
            | Some (str, rest) => Some (JString str, rest)
            | None => None
            end
          else if (c =? 91)%N then
            match skipWs s1 with
            | 93%N :: rest => Some (JArray [], rest)
            | _ =>
                match parseElements fuel' s1 with
                | Some (items, rest) => Some (JArray items, rest)
                | None => None
                end
            end
          else if (c =? 123)%N then
            match skipWs s1 with
            | 125%N :: rest => Some (JObject [], rest)
            | _ =>
                match parseMembers fuel' s1 with
                | Some (members, rest) => Some (JObject members, rest)
                | None => None
                end
            end
          else if startsWith (c :: s1) (lit "true") then
            Some (JBool true, skipn 4 (c :: s1))
          else if startsWith (c :: s1) (lit "false") then
            Some (JBool false, skipn 5 (c :: s1))
          else if startsWith (c :: s1) (lit "null") then
            Some (JNull, skipn 4 (c :: s1))
          else
            match parseNumber (c :: s1) with
            | Some (lexeme, rest) => Some (JNumber lexeme, rest)
            | None => None
            end
      end
  end
with parseElements (fuel : nat) (s : jsstring) : option (list value * jsstring) :=
  match fuel with
  | O => None
  | S fuel' =>
      match parseValue fuel' s with
      | None => None
      | Some (v, s1) =>
          match skipWs s1 with
          | 44%N :: s2 =>
              match parseElements fuel' s2 with
              | Some (vs, rest) => Some (v :: vs, rest)
              | None => None
              end
          | 93%N :: rest => Some ([v], rest)
          | _ => None
          end
      end
  end
with parseMembers (fuel : nat) (s : jsstring)
  : option (list (jsstring * value) * jsstring) :=
  match fuel with
  | O => None
  | S fuel' =>
      match skipWs s with
      | 34%N :: s1 =>
          match parseChars s1 with
          | None => None
          | Some (key, s2) =>
              match skipWs s2 with
              | 58%N :: s3 =>
                  match parseValue fuel' s3 with
                  | None => None
                  | Some (v, s4) =>
                      match skipWs s4 with
                      | 44%N :: s5 =>
                          match parseMembers fuel' s5 with
                          | Some (ms, rest) => Some ((key, v) :: ms, rest)
                          | None => None
                          end
                      | 125%N :: rest => Some ([(key, v)], rest)
                      | _ => None
                      end
                  end
              | _ => None
              end
          end
      | _ => None
      end
  end.

(** [JSON.parse(text)]: one value between optional white space; [None]
    is a [SyntaxError].  A text of [n] code units holds fewer than [n]
    values and separators, so [n] is fuel enough. *)
Definition parse (text : jsstring) : option value :=
  match parseValue (S (List.length text)) text with
  | Some (v, rest) =>
      match skipWs rest with
      | [] => Some v
      | _ => None
      end
  | None => None
  end.

End JSON.

(* ------------------------------------------------------------------ *)
(** ** UTF-8: how a text is stored in a file *)

Module UTF8.
Import JSON.

(** The bytes of one code point. *)
Definition encodePoint (cp : N) : list N :=
  (if cp <? 128 then [cp]
   else if cp <? 2048 then [192 + cp / 64; 128 + cp mod 64]
   else if cp <? 65536 then [224 + cp / 4096; 128 + cp / 64 mod 64; 128 + cp mod 64]
   else [240 + cp / 262144; 128 + cp / 4096 mod 64; 128 + cp / 64 mod 64;
         128 + cp mod 64])%N.

(** U+FFFD, which stands for a surrogate without its partner. *)
Definition replacement : list N := [239; 191; 189]%N.

(** [Buffer.from(text, 'utf8')], what [fs.writeFileSync(file, text)]
    writes. *)
Fixpoint encode (s : jsstring) : list N :=
  match s with
  | [] => []
  | c :: rest =>
      if isHighSurrogate c then
        match rest with
        | d :: rest' =>
            if isLowSurrogate d then
              encodePoint (65536 + (c - 55296) * 1024 + (d - 56320))%N ++ encode rest'
            else replacement ++ encode rest
        | [] => replacement
        end
      else if isLowSurrogate c then replacement ++ encode rest
      else encodePoint c ++ encode rest
  end.

Definition isContinuation (b : N) : bool := ((128 <=? b) && (b <? 192))%N.

(** [buffer.toString('utf8')] on well-formed UTF-8, what
    [fs.readFileSync(file, 'utf8')] returns.  On ill-formed bytes Node
    substitutes U+FFFD; those inputs are left out ([None]). *)
Fixpoint decode (bytes : list N) : option jsstring :=
  match bytes with
  | [] => Some []
  | b0 :: r0 =>
      if (b0 <? 128)%N then option_map (cons b0) (decode r0)
      else if (194 <=? b0)%N && (b0 <? 224)%N then
        match r0 with
        | b1 :: r1 =>
            if isContinuation b1 then
              option_map (cons ((b0 - 192) * 64 + (b1 - 128))%N) (decode r1)
            else None
        | _ => None
        end
      else if (224 <=? b0)%N && (b0 <? 240)%N then
        match r0 with
        | b1 :: b2 :: r2 =>
            let cp := ((b0 - 224) * 4096 + (b1 - 128) * 64 + (b2 - 128))%N in
            if isContinuation b1 && isContinuation b2 && (2048 <=? cp)%N
               && negb (isHighSurrogate cp || isLowSurrogate cp)
            then option_map (cons cp) (decode r2)
            else None
        | _ => None
        end
      else if (240 <=? b0)%N && (b0 <? 245)%N then
        match r0 with
        | b1 :: b2 :: b3 :: r3 =>
            let cp := ((b0 - 240) * 262144 + (b1 - 128) * 4096 + (b2 - 128) * 64
                       + (b3 - 128))%N in
            if isContinuation b1 && isContinuation b2 && isContinuation b3
               && (65536 <=? cp)%N && (cp <? 1114112)%N
            then option_map (fun s => (55296 + (cp - 65536) / 1024)%N
                                      :: (56320 + (cp - 65536) mod 1024)%N :: s)
                   (decode r3)
            else None
        | _ => None
        end
      else None
  end.

(** A string of 16-bit code units whose surrogates all come in pairs. *)
Fixpoint wellFormed (s : jsstring) : bool :=
  match s with
  | [] => true
  | c :: rest =>
      if isHighSurrogate c then
        match rest with
        | d :: rest' => isLowSurrogate d && wellFormed rest'
        | [] => false
        end
      else negb (isLowSurrogate c) && (c <? 65536)%N && wellFormed rest
  end.

End UTF8.

(* ------------------------------------------------------------------ *)
(** ** The conversation store ([history] and [bex-memory.json]) *)

Module Store.

(** [{ role: 'user'|'model'|'system', content: string }] *)
Inductive Role := user | model | system.

Record Turn := { role : Role; content : jsstring }.

Definition roleName (r : Role) : jsstring :=
  match r with
  | user => lit "user"
  | model => lit "model"
  | system => lit "system"
  end.

(** A Turn as the object [JSON.stringify] walks: [role], then [content]. *)
Definition json_of_turn (t : Turn) : JSON.value :=
  JSON.JObject [(lit "role", JSON.JString (roleName (role t)));
                (lit "content", JSON.JString (content t))].

Definition json_of_history (h : list Turn) : JSON.value :=
  JSON.JArray (map json_of_turn h).

(** [JSON.stringify(history, null, 2)], the text of the snapshot. *)
Definition snapshot (h : list Turn) : jsstring :=
  JSON.stringify2 (json_of_history h).

(** [fs.writeFileSync(MEMORY_FILE, JSON.stringify(history, null, 2))]:
    the bytes of [bex-memory.json]. *)
Definition snapshotFile (h : list Turn) : list N :=
  UTF8.encode (snapshot h).

(** Inside the snapshot: the text of one Turn, indented one level, and
    what stands between two Turns. *)
Definition turnText (t : Turn) : jsstring :=
  JSON.serialize (lit "  ") (lit "  ") (json_of_turn t).

Definition turnSeparator : jsstring := [44; 10; 32; 32]%N.

Definition role_of_name (s : jsstring) : option Role :=
  if JS.eqb s (lit "user") then Some user
  else if JS.eqb s (lit "model") then Some model
  else if JS.eqb s (lit "system") then Some system
  else None.

(** The parsed document read back as Turns.  [index.js] assigns whatever
    [JSON.parse] returns to [history]; only an array of objects with
    exactly the members [role] and [content], in this order, has a
    counterpart in [list Turn]. *)
Definition turn_of_json (v : JSON.value) : option Turn :=
  match v with
  | JSON.JObject [(k1, JSON.JString r); (k2, JSON.JString c)] =>
      if JS.eqb k1 (lit "role") && JS.eqb k2 (lit "content") then
        match role_of_name r with
        | Some r' => Some {| role := r'; content := c |}
        | None => None
        end
      else None
  | _ => None
  end.

Fixpoint turns_of_json (items : list JSON.value) : option (list Turn) :=
  match items with
  | [] => Some []
  | v :: rest =>
      match turn_of_json v, turns_of_json rest with
      | Some t, Some ts => Some (t :: ts)
      | _, _ => None
      end
  end.

Definition history_of_json (v : JSON.value) : option (list Turn) :=
  match v with
  | JSON.JArray items => turns_of_json items
  | _ => None
  end.

(** [history = JSON.parse(fs.readFileSync(MEMORY_FILE, 'utf8'))] *)
Definition restore (file : list N) : option (list Turn) :=
  match UTF8.decode file with
  | None => None
  | Some text =>
      match JSON.parse text with
      | Some v => history_of_json v
      | None => None
      end
  end.

End Store.

(* ------------------------------------------------------------------ *)
(** ** The agent ([index.js]): state, oracles and the effect monad *)

Module Bex.

Import Store.

(** [currentProvider]: ['google' | 'deepseek' | 'auto'] *)
Inductive ProviderMode := google | deepseek | auto.

(** [pendingImage]: [{ inlineData: { data, mimeType } }] *)
Record Image := { data : jsstring; mimeType : jsstring }.

(** Gemini wire format: [{ role, parts: [{ text }] }] and the parts of
    the message being sent. *)
Inductive GeminiRole := g_user | g_model.
Record GeminiContent := { g_role : GeminiRole; g_text : jsstring }.
Inductive GeminiPart := TextPart (text : jsstring) | ImagePart (image : Image).
Record GeminiRequest := {
  g_history : list GeminiContent;   (* startChat({ history }) *)
  g_parts : list GeminiPart         (* sendMessage(parts) *)
}.

(** DeepSeek (OpenAI) wire format: [{ role, content }]. *)
Inductive ChatRole := c_system | c_user | c_assistant.
Record ChatMessage := { c_role : ChatRole; c_content : jsstring }.

(** The keys of the [commands] table. *)
Inductive Command :=
| Help | Menu | Quit | Clear | Provider | Ls | Read | Write | Append
| Delete | Rename | Save | Download | ImageCmd | Sandbox | Exec | Task
| Auto | Workflow | Browser | Google | Url | Open | Visit | Click | TypeText
| Dump | Screenshot | McpList | McpAdd | McpTools | McpCall | Multiline
| Status | Persistent | Grep | Glob | Git | Project | Memory.

(** External operations whose result the program only tests for
    success. *)
Inductive Effect :=
| WriteFile (file content : jsstring)
| AppendFile (file content : jsstring)
| Access (file : jsstring)
| Unlink (file : jsstring)
| RenameFile (old new : jsstring)
| SaveHistory (file : option jsstring) (content : jsstring)
| DownloadTo (url : jsstring) (filename : option jsstring)
| Launch | NewPage | CloseBrowser
| Goto (url : option jsstring)
| ClickOn (selector : option jsstring)
| TypeInto (selector : option jsstring) (text : jsstring)
| TakeScreenshot
| OpenExternal (target : jsstring)
| GrepFiles (pattern : jsstring) (file : option jsstring)
| GlobFiles (pattern : jsstring)
| AnalyzeProject.

(** What the program has asked of the outside, in order. *)
Inductive Event :=
| CallGemini (request : GeminiRequest)
| CallDeepSeek (messages : list ChatMessage)
| Invoke (c : Command) (args : list jsstring)
| AskConfirmation (file : jsstring).

(** What the code handed to [/sandbox] threw, as far as the [catch]
    can tell: reading [e.message] of [null] or [undefined] throws a
    [TypeError], of anything else it does not. *)
Inductive Thrown := ThrownNull | ThrownUndefined | ThrownOther.

(** How [runSandboxed(code)] ends.  The [vm] context does not confine
    the code: it can reach [process] and end the process; and the
    [timeout] option is given to [new vm.Script], which has none,
    instead of [runInContext], so a loop in the code is never
    interrupted. *)
Inductive SandboxOutcome :=
| Finished                 (* script.runInContext returned *)
| Threw (e : Thrown)       (* the code, or its compilation, threw *)
| EndedProcess             (* the code called process.exit *)
| NeverReturns.            (* the code loops for ever *)

(** The outside world.  Every oracle takes the clock of the call. *)
Record World := {
  (** [geminiModel] and [deepseek] exist iff their API key is set. *)
  geminiModel : bool;
  deepseekClient : bool;
  SYSTEM_INSTRUCTIONS : jsstring;
  (** [chat.sendMessage(parts)] followed by [result.response.text()]. *)
  sendMessage : nat -> GeminiRequest -> Result jsstring;
  (** [deepseek.chat.completions.create], then
      [completion.choices[0].message.content], which may be [null]. *)
  createCompletion : nat -> list ChatMessage -> Result (option jsstring);
  readdir : nat -> jsstring -> Result (list jsstring);
  readFile : nat -> jsstring -> Result jsstring;
  (** [fs.promises.readFile(file)] then [toString('base64')]. *)
  readFileBase64 : nat -> jsstring -> Result jsstring;
  mimeLookup : jsstring -> option jsstring;
  effect : nat -> Effect -> Result unit;
  (** [runSandboxed(code)] *)
  runSandboxed : nat -> jsstring -> SandboxOutcome;
  (** [execAsync(cmd)]: stdout and stderr. *)
  exec : nat -> jsstring -> Result (jsstring * jsstring);
  fetchText : nat -> jsstring -> Result jsstring;
  (** [page.evaluate(() => document.body.innerText)] *)
  evaluate : nat -> Result jsstring;
  encodeURIComponent : jsstring -> Result jsstring;
  (** [GET url/tools]: [JSON.stringify(tools)] when the answer holds an
      array, [None] when it does not. *)
  fetchTools : nat -> jsstring -> Result (option jsstring);
  (** [POST url/tools/tool]: [JSON.stringify] of the answer. *)
  postTool : nat -> jsstring -> jsstring -> list jsstring -> Result jsstring;
  (** The scan of [/memory]: [JSON.stringify(memory)] when files were
      found. *)
  scanMemory : nat -> Result (option jsstring)
}.

(** The mutable module-level variables, the snapshot file, the
    confirmation questions still open, and the ghost clock and trace. *)
Record State := {
  currentProvider : ProviderMode;
  history : list Turn;
  pendingImage : option Image;
  browser : bool;                       (* browser !== null *)
  page : bool;                          (* page !== null *)
  mcpServers : list (jsstring * jsstring);
  autoExecute : bool;
  multilineMode : bool;
  multilineBuffer : jsstring;
  persistentMode : bool;
  memoryFile : option (list N);         (* bytes of bex-memory.json *)
  confirmations : list jsstring;        (* rlConfirm questions pending *)
  clock : nat;
  trace : list Event
}.

(** The state at start-up, before a snapshot is restored. *)
Definition initial : State := {|
  currentProvider := google; history := []; pendingImage := None;
  browser := false; page := false; mcpServers := [];
  autoExecute := false; multilineMode := false; multilineBuffer := [];
  persistentMode := true; memoryFile := None; confirmations := [];
  clock := 0; trace := []
|}.

Definition with_currentProvider (p : ProviderMode) (s : State) : State :=
  {| currentProvider := p; history := history s; pendingImage := pendingImage s;
     browser := browser s; page := page s; mcpServers := mcpServers s;
     autoExecute := autoExecute s; multilineMode := multilineMode s;
     multilineBuffer := multilineBuffer s; persistentMode := persistentMode s;
     memoryFile := memoryFile s; confirmations := confirmations s;
     clock := clock s; trace := trace s |}.

Definition with_history (h : list Turn) (s : State) : State :=
  {| currentProvider := currentProvider s; history := h; pendingImage := pendingImage s;
     browser := browser s; page := page s; mcpServers := mcpServers s;
     autoExecute := autoExecute s; multilineMode := multilineMode s;
     multilineBuffer := multilineBuffer s; persistentMode := persistentMode s;
     memoryFile := memoryFile s; confirmations := confirmations s;
     clock := clock s; trace := trace s |}.

Definition with_pendingImage (i : option Image) (s : State) : State :=
  {| currentProvider := currentProvider s; history := history s; pendingImage := i;
     browser := browser s; page := page s; mcpServers := mcpServers s;
     autoExecute := autoExecute s; multilineMode := multilineMode s;
     multilineBuffer := multilineBuffer s; persistentMode := persistentMode s;
     memoryFile := memoryFile s; confirmations := confirmations s;
     clock := clock s; trace := trace s |}.

Definition with_browser (b p : bool) (s : State) : State :=
  {| currentProvider := currentProvider s; history := history s;
     pendingImage := pendingImage s;
     browser := b; page := p; mcpServers := mcpServers s;
     autoExecute := autoExecute s; multilineMode := multilineMode s;
     multilineBuffer := multilineBuffer s; persistentMode := persistentMode s;
     memoryFile := memoryFile s; confirmations := confirmations s;
     clock := clock s; trace := trace s |}.

Definition with_mcpServers (m : list (jsstring * jsstring)) (s : State) : State :=
  {| currentProvider := currentProvider s; history := history s;
     pendingImage := pendingImage s;
     browser := browser s; page := page s; mcpServers := m;
     autoExecute := autoExecute s; multilineMode := multilineMode s;
     multilineBuffer := multilineBuffer s; persistentMode := persistentMode s;
     memoryFile := memoryFile s; confirmations := confirmations s;
     clock := clock s; trace := trace s |}.

Definition with_toggles (a m : bool) (buffer : jsstring) (p : bool) (s : State) : State :=
  {| currentProvider := currentProvider s; history := history s;
     pendingImage := pendingImage s;
     browser := browser s; page := page s; mcpServers := mcpServers s;
     autoExecute := a; multilineMode := m;
     multilineBuffer := buffer; persistentMode := p;
     memoryFile := memoryFile s; confirmations := confirmations s;
     clock := clock s; trace := trace s |}.

Definition with_memoryFile (f : option (list N)) (s : State) : State :=
  {| currentProvider := currentProvider s; history := history s;
     pendingImage := pendingImage s;
     browser := browser s; page := page s; mcpServers := mcpServers s;
     autoExecute := autoExecute s; multilineMode := multilineMode s;
     multilineBuffer := multilineBuffer s; persistentMode := persistentMode s;
     memoryFile := f; confirmations := confirmations s;
     clock := clock s; trace := trace s |}.

Definition with_confirmations (c : list jsstring) (s : State) : State :=
  {| currentProvider := currentProvider s; history := history s;
     pendingImage := pendingImage s;
     browser := browser s; page := page s; mcpServers := mcpServers s;
     autoExecute := autoExecute s; multilineMode := multilineMode s;
     multilineBuffer := multilineBuffer s; persistentMode := persistentMode s;
     memoryFile := memoryFile s; confirmations := c;
     clock := clock s; trace := trace s |}.

Definition tick (s : State) : State :=
  {| currentProvider := currentProvider s; history := history s;
     pendingImage := pendingImage s;
     browser := browser s; page := page s; mcpServers := mcpServers s;
     autoExecute := autoExecute s; multilineMode := multilineMode s;
     multilineBuffer := multilineBuffer s; persistentMode := persistentMode s;
     memoryFile := memoryFile s; confirmations := confirmations s;
     clock := S (clock s); trace := trace s |}.

Definition record (e : Event) (s : State) : State :=
  {| currentProvider := currentProvider s; history := history s;
     pendingImage := pendingImage s;
     browser := browser s; page := page s; mcpServers := mcpServers s;
     autoExecute := autoExecute s; multilineMode := multilineMode s;
     multilineBuffer := multilineBuffer s; persistentMode := persistentMode s;
     memoryFile := memoryFile s; confirmations := confirmations s;
     clock := clock s; trace := trace s ++ [e] |}.

(** How a piece of the program ends: it returns, it throws, it ends the
    process ([process.exit]), or it has no outcome: the code never
    returns, or the model ran out of fuel before it did. *)
Inductive Outcome (A : Type) : Type :=
| Return (a : A) (s : State)
| Throw (message : jsstring) (s : State)
| Exit (s : State)
| OutOfFuel.
Arguments Return {A} a s.
Arguments Throw {A} message s.
Arguments Exit {A} s.
Arguments OutOfFuel {A}.

Definition M (A : Type) : Type := State -> Outcome A.

Definition ret {A} (a : A) : M A := fun s => Return a s.

Definition bind {A B} (m : M A) (k : A -> M B) : M B :=
  fun s =>
    match m s with
    | Return a s' => k a s'
    | Throw e s' => Throw e s'
    | Exit s' => Exit s'
    | OutOfFuel => OutOfFuel
    end.

Definition throw {A} (message : jsstring) : M A := fun s => Throw message s.

(** [try { m } catch (e) { handler(e) }] *)
Definition try_catch {A} (m : M A) (handler : jsstring -> M A) : M A :=
  fun s =>
    match m s with
    | Throw e s' => handler e s'
    | r => r
    end.

Definition get : M State := fun s => Return s s.
Definition modify (f : State -> State) : M unit := fun s => Return tt (f s).
Definition processExit {A} : M A := fun s => Exit s.
Definition outOfFuel {A} : M A := fun _ => OutOfFuel.
(** A call that never returns: nothing after it runs, no [catch] sees
    it, and it leaves no final state. *)
Definition never {A} : M A := fun _ => OutOfFuel.

Declare Scope bex_scope.
Delimit Scope bex_scope with bex.
Notation "x <- m ;; k" := (bind m (fun x => k))
  (at level 61, m at next level, right associativity) : bex_scope.
Notation "m ;; k" := (bind m (fun _ => k))
  (at level 61, right associativity) : bex_scope.
Local Open Scope bex_scope.

(** An awaited external call: the oracle answers at the current clock,
    which then advances. *)
Definition await {A} (oracle : nat -> Result A) : M (Result A) :=
  s <- get ;; modify tick ;; ret (oracle (clock s)).

(** An awaited call outside any [try]: a failure is thrown. *)
Definition awaitOrThrow {A} (oracle : nat -> Result A) : M A :=
  r <- await oracle ;;
  match r with
  | Ok a => ret a
  | Err e => throw e
  end.

(** [for (const x of l) await body(x)] *)
Fixpoint forEach {A} (l : list A) (body : A -> M unit) : M unit :=
  match l with
  | [] => ret tt
  | x :: rest => body x ;; forEach rest body
  end.

(** [history.push(turn)] *)
Definition push (r : Role) (text : jsstring) : M unit :=
  modify (fun s => with_history (history s ++ [{| role := r; content := text |}]) s).

(** [fs.writeFileSync(MEMORY_FILE, JSON.stringify(history, null, 2))] *)
Definition persist : M unit :=
  modify (fun s => with_memoryFile (Some (snapshotFile (history s))) s).

Definition arg (n : nat) (args : list jsstring) : option jsstring := nth_error args n.

(** [x || fallback] on an optional string *)
Definition orElse (x : option jsstring) (fallback : jsstring) : jsstring :=
  match x with
  | Some (c :: r) => c :: r
  | _ => fallback
  end.

(** [`${x}`] of an optional string *)
Definition show (x : option jsstring) : jsstring :=
  match x with
  | Some v => v
  | None => lit "undefined"
  end.

Definition newline : jsstring := [10%N].
Definition space : jsstring := [32%N].

(** *** The command table *)

Definition commandNames : list (jsstring * Command) :=
  [(lit "/help", Help); (lit "/menu", Menu); (lit "/quit", Quit);
   (lit "/clear", Clear); (lit "/provider", Provider); (lit "/ls", Ls);
   (lit "/read", Read); (lit "/write", Write); (lit "/append", Append);
   (lit "/delete", Delete); (lit "/rename", Rename); (lit "/save", Save);
   (lit "/download", Download); (lit "/image", ImageCmd);
   (lit "/sandbox", Sandbox); (lit "/exec", Exec); (lit "/task", Task);
   (lit "/auto", Auto); (lit "/workflow", Workflow); (lit "/browser", Browser);
   (lit "/google", Google); (lit "/url", Url); (lit "/open", Open);
   (lit "/visit", Visit); (lit "/click", Click); (lit "/type", TypeText);
   (lit "/dump", Dump); (lit "/screenshot", Screenshot);
   (lit "/mcp_list", McpList); (lit "/mcp_add", McpAdd);
   (lit "/mcp_tools", McpTools); (lit "/mcp_call", McpCall);
   (lit "/multiline", Multiline); (lit "/status", Status);
   (lit "/persistent", Persistent); (lit "/grep", Grep); (lit "/glob", Glob);
   (lit "/git", Git); (lit "/project", Project); (lit "/memory", Memory)].

Fixpoint lookup {A} (key : jsstring) (table : list (jsstring * A)) : option A :=
  match table with
  | [] => None
  | (k, v) :: rest => if JS.eqb k key then Some v else lookup key rest
  end.

(** [commands[cmd]]; the inherited properties of the object do not begin
    with a slash, and every [cmd] looked up does. *)
Definition commands (cmd : jsstring) : option Command := lookup cmd commandNames.

(** The array index a property key stands for, if any: a canonical
    numeric string (decimal digits, no leading zero unless it is [0])
    of value at most 2^32 - 2. *)
Fixpoint digitsValue (acc : N) (s : jsstring) : option N :=
  match s with
  | [] => Some acc
  | c :: s' =>
      if ((48 <=? c) && (c <=? 57))%N then digitsValue (acc * 10 + (c - 48))%N s'
      else None
  end.

Definition arrayIndex (key : jsstring) : option N :=
  match key with
  | [] => None
  | c :: rest =>
      if (c =? 48)%N then
        match rest with
        | [] => Some 0%N
        | _ :: _ => None
        end
      else
        match digitsValue 0 key with
        | Some i => if (i <=? 4294967294)%N then Some i else None
        | None => None
        end
  end.

(** [key in table], for own keys. *)
Definition hasKey {A} (key : jsstring) (table : list (jsstring * A)) : bool :=
  existsb (fun entry => JS.eqb (fst entry) key) table.

(** The value of an own key replaced where it stands. *)
Fixpoint replace (key value : jsstring) (table : list (jsstring * jsstring))
  : list (jsstring * jsstring) :=
  match table with
  | [] => []
  | (k, v) :: rest =>
      if JS.eqb k key then (k, value) :: rest else (k, v) :: replace key value rest
  end.

(** A new key that is the array index [i] goes before the first key
    that is no array index or a greater one. *)
Fixpoint insertIndex (i : N) (key value : jsstring) (table : list (jsstring * jsstring))
  : list (jsstring * jsstring) :=
  match table with
  | [] => [(key, value)]
  | (k, v) :: rest =>
      match arrayIndex k with
      | Some j =>
          if (j <? i)%N then (k, v) :: insertIndex i key value rest
          else (key, value) :: (k, v) :: rest
      | None => (key, value) :: (k, v) :: rest
      end
  end.

(** [table[key] = value] on an object used as a map, the table being
    listed in the order of [Object.entries]: array indices first, in
    ascending order, then the other keys in the order they were added.
    A known key keeps its place; assigning a string to [__proto__] adds
    nothing. *)
Definition assign (key value : jsstring) (table : list (jsstring * jsstring))
  : list (jsstring * jsstring) :=
  if hasKey key table then replace key value table
  else if JS.eqb key (lit "__proto__") then table
  else match arrayIndex key with
       | Some i => insertIndex i key value table
       | None => table ++ [(key, value)]
       end.

(** Engine texts of the [TypeError]s of [e.message] on [null] and on
    [undefined]. *)
Definition msg_message_of_null : jsstring :=
  lit "Cannot read properties of null (reading 'message')".
Definition msg_message_of_undefined : jsstring :=
  lit "Cannot read properties of undefined (reading 'message')".

(** *** Handlers that call no other handler *)

Section Handlers.

Variable w : World.

Definition cmd_quit : M unit :=
  s <- get ;;
  (if browser s then awaitOrThrow (fun n => effect w n CloseBrowser) else ret tt) ;;
  processExit.

Definition cmd_clear : M unit :=
  modify (fun s => with_memoryFile None (with_pendingImage None (with_history [] s))).

Definition cmd_provider (args : list jsstring) : M unit :=
  match arg 0 args with
  | None => ret tt
  | Some a =>
      let p := toLowerCase a in
      if JS.eqb p (lit "google") then modify (with_currentProvider google)
      else if JS.eqb p (lit "deepseek") then modify (with_currentProvider deepseek)
      else if JS.eqb p (lit "auto") then modify (with_currentProvider auto)
      else ret tt
  end.

Definition cmd_ls (args : list jsstring) : M unit :=
  let dir := orElse (arg 0 args) (lit ".") in
  r <- await (fun n => readdir w n dir) ;;
  match r with
  | Ok files =>
      push system (lit "Output of /ls " ++ dir ++ lit ":" ++ newline
                   ++ join (lit ", ") files)
  | Err _ => ret tt
  end.

Definition cmd_read (args : list jsstring) : M unit :=
  if negb (truthy (arg 0 args)) then ret tt
  else
    let file := show (arg 0 args) in
    r <- await (fun n => readFile w n file) ;;
    match r with
    | Ok text => push system (lit "File " ++ file ++ lit " content:" ++ newline ++ text)
    | Err _ => ret tt
    end.

Definition cmd_write (args : list jsstring) : M unit :=
  if negb (truthy (arg 0 args)) then ret tt
  else
    let file := show (arg 0 args) in
    let text := join space (tl args) in
    await (fun n => effect w n (WriteFile file text)) ;; ret tt.

Definition cmd_append (args : list jsstring) : M unit :=
  if List.length args <? 2 then ret tt
  else
    let file := show (arg 0 args) in
    let text := join space (tl args) in
    r <- await (fun n => effect w n (AppendFile file (newline ++ text))) ;;
    match r with
    | Ok _ => push system (lit "Appended content to " ++ file)
    | Err _ => ret tt
    end.

(** [/delete] checks the file, opens a confirmation question on the
    terminal and returns; the question stays open until the operator
    answers it. *)
Definition cmd_delete (args : list jsstring) : M unit :=
  if negb (truthy (arg 0 args)) then ret tt
  else
    let file := show (arg 0 args) in
    r <- await (fun n => effect w n (Access file)) ;;
    match r with
    | Err _ => ret tt
    | Ok _ =>
        modify (fun s => record (AskConfirmation file)
                           (with_confirmations (confirmations s ++ [file]) s))
    end.

(** The callback of the question, run when the operator answers. *)
Definition confirm_delete (file answer : jsstring) : M unit :=
  modify (fun s => with_confirmations (tl (confirmations s)) s) ;;
  if JS.eqb answer file then await (fun n => effect w n (Unlink file)) ;; ret tt
  else ret tt.

Definition cmd_rename (args : list jsstring) : M unit :=
  if List.length args <? 2 then ret tt
  else await (fun n => effect w n (RenameFile (show (arg 0 args)) (show (arg 1 args)))) ;;
       ret tt.

Definition roleUpper (r : Role) : jsstring :=
  match r with
  | user => lit "USER"
  | model => lit "MODEL"
  | system => lit "SYSTEM"
  end.

Definition cmd_save (args : list jsstring) : M unit :=
  s <- get ;;
  let file := match arg 0 args with
              | Some (c :: r) => Some (c :: r)
              | _ => None          (* bex-history-<Date.now()>.md *)
              end in
  let text := join (lit "---" ++ newline)
                (map (fun h => lit "**" ++ roleUpper (role h) ++ lit "**:" ++ newline
                               ++ content h ++ newline) (history s)) in
  awaitOrThrow (fun n => effect w n (SaveHistory file text)).

Definition cmd_download (args : list jsstring) : M unit :=
  if negb (truthy (arg 0 args)) then ret tt
  else
    let filename := match arg 1 args with
                    | Some (c :: r) => Some (c :: r)
                    | _ => None    (* path.basename(url) || 'downloaded-file' *)
                    end in
    await (fun n => effect w n (DownloadTo (show (arg 0 args)) filename)) ;; ret tt.

Definition cmd_image (args : list jsstring) : M unit :=
  if negb (truthy (arg 0 args)) then ret tt
  else
    let file := show (arg 0 args) in
    let mime := orElse (mimeLookup w file) (lit "image/png") in
    r <- await (fun n => readFileBase64 w n file) ;;
    match r with
    | Ok base64 =>
        modify (with_pendingImage (Some {| data := base64; mimeType := mime |}))
    | Err _ => ret tt
    end.

(** [/sandbox] is synchronous.  Its [catch] prints [e.message], which
    throws in its turn when [e] is [null] or [undefined]. *)
Definition cmd_sandbox (args : list jsstring) : M unit :=
  s <- get ;;
  modify tick ;;
  match runSandboxed w (clock s) (join space args) with
  | Finished => ret tt
  | Threw ThrownOther => ret tt
  | Threw ThrownNull => throw msg_message_of_null
  | Threw ThrownUndefined => throw msg_message_of_undefined
  | EndedProcess => processExit
  | NeverReturns => never
  end.

Definition cmd_exec (args : list jsstring) : M unit :=
  let cmd := join space args in
  r <- await (fun n => exec w n cmd) ;;
  match r with
  | Ok (stdout, stderr) =>
      push system (lit "Command '" ++ cmd ++ lit "' output:" ++ newline
                   ++ stdout ++ newline ++ stderr)
  | Err _ => ret tt
  end.

Definition cmd_auto : M unit :=
  modify (fun s => with_toggles (negb (autoExecute s)) (multilineMode s)
                     (multilineBuffer s) (persistentMode s) s).

Definition cmd_multiline : M unit :=
  modify (fun s => with_toggles (autoExecute s) (negb (multilineMode s))
                     [] (persistentMode s) s).

Definition cmd_persistent : M unit :=
  modify (fun s => with_toggles (autoExecute s) (multilineMode s)
                     (multilineBuffer s) (negb (persistentMode s)) s).

Definition cmd_browser : M unit :=
  s <- get ;;
  if browser s then ret tt
  else
    r <- await (fun n => effect w n Launch) ;;
    match r with
    | Err _ => ret tt
    | Ok _ =>
        modify (fun s => with_browser true (page s) s) ;;
        r' <- await (fun n => effect w n NewPage) ;;
        match r' with
        | Err _ => ret tt
        | Ok _ => modify (with_browser true true)
        end
    end.

Definition cmd_url (args : list jsstring) : M unit :=
  if negb (truthy (arg 0 args)) then ret tt
  else
    let url := show (arg 0 args) in
    r <- await (fun n => fetchText w n url) ;;
    match r with
    | Ok text =>
        push system (lit "Content of " ++ url ++ lit ":" ++ newline
                     ++ firstn 5000 text ++ lit "...")
    | Err _ => ret tt
    end.

Definition cmd_open (args : list jsstring) : M unit :=
  if negb (truthy (arg 0 args)) then ret tt
  else awaitOrThrow (fun n => effect w n (OpenExternal (show (arg 0 args)))).

Definition cmd_visit (args : list jsstring) : M unit :=
  s <- get ;;
  if negb (page s) then ret tt
  else await (fun n => effect w n (Goto (arg 0 args))) ;; ret tt.

Definition cmd_click (args : list jsstring) : M unit :=
  s <- get ;;
  if negb (page s) then ret tt
  else await (fun n => effect w n (ClickOn (arg 0 args))) ;; ret tt.

Definition cmd_type (args : list jsstring) : M unit :=
  s <- get ;;
  if negb (page s) then ret tt
  else await (fun n => effect w n (TypeInto (arg 0 args) (join space (tl args)))) ;;
       ret tt.

Definition cmd_dump : M unit :=
  s <- get ;;
  if negb (page s) then ret tt
  else
    text <- awaitOrThrow (evaluate w) ;;
    push system (lit "Browser Page Content:" ++ newline ++ text).

Definition cmd_screenshot : M unit :=
  s <- get ;;
  if negb (page s) then ret tt
  else awaitOrThrow (fun n => effect w n TakeScreenshot).

Definition cmd_mcp_add (args : list jsstring) : M unit :=
  if List.length args <? 2 then ret tt
  else modify (fun s => with_mcpServers
                          (assign (show (arg 0 args)) (show (arg 1 args)) (mcpServers s)) s).

Definition cmd_mcp_tools : M unit :=
  s <- get ;;
  forEach (mcpServers s) (fun server =>
    let (label, url) := server in
    r <- await (fun n => fetchTools w n url) ;;
    match r with
    | Ok (Some tools) =>
        push system (lit "Available tools on " ++ label ++ lit ": " ++ tools)
    | _ => ret tt
    end).

Definition cmd_mcp_call (args : list jsstring) : M unit :=
  if List.length args <? 2 then ret tt
  else
    s <- get ;;
    let tool := show (arg 1 args) in
    match lookup (show (arg 0 args)) (mcpServers s) with
    | Some (c :: u) =>
        r <- await (fun n => postTool w n (c :: u) tool (skipn 2 args)) ;;
        match r with
        | Ok answer =>
            push system (lit "MCP Call " ++ tool ++ lit " result: " ++ answer)
        | Err _ => ret tt
        end
    | _ => ret tt
    end.

Definition cmd_grep (args : list jsstring) : M unit :=
  if List.length args <? 1 then ret tt
  else await (fun n => effect w n (GrepFiles (show (arg 0 args))
                                     (match arg 1 args with
                                      | Some (c :: r) => Some (c :: r)
                                      | _ => None
                                      end))) ;; ret tt.

Definition cmd_glob (args : list jsstring) : M unit :=
  if List.length args <? 1 then ret tt
  else await (fun n => effect w n (GlobFiles (show (arg 0 args)))) ;; ret tt.

Definition gitCommand (args : list jsstring) : option jsstring :=
  match arg 0 args with
  | None => None
  | Some sub =>
      if JS.eqb sub (lit "status") then Some (lit "git status --porcelain")
      else if JS.eqb sub (lit "log") then
        Some (lit "git log --oneline -" ++ orElse (arg 1 args) (lit "10"))
      else if JS.eqb sub (lit "diff") then Some (lit "git diff --stat")
      else if JS.eqb sub (lit "commits") then
        Some (lit "git log --oneline --since=" ++ [34%N]
              ++ orElse (arg 1 args) (lit "7") ++ lit " days ago" ++ [34%N])
      else None
  end.

Definition cmd_git (args : list jsstring) : M unit :=
  match gitCommand args with
  | None => ret tt
  | Some cmd =>
      r <- await (fun n => exec w n cmd) ;;
      match r with
      | Ok (stdout, _) =>
          match trim stdout with
          | [] => ret tt
          | _ => push system (lit "Git " ++ show (arg 0 args) ++ lit " output:"
                              ++ newline ++ stdout)
          end
      | Err _ => ret tt
      end
  end.

Definition cmd_project : M unit :=
  await (fun n => effect w n AnalyzeProject) ;; ret tt.

Definition cmd_memory : M unit :=
  r <- await (scanMemory w) ;;
  match r with
  | Ok (Some found) => push system (lit "Memory files found: " ++ found)
  | _ => ret tt
  end.

End Handlers.

(** *** Context windows *)

(** The Gemini form of a Turn: [role: h.role === 'model' ? 'model' : 'user']
    and [text: (h.role === 'system' ? 'SYSTEM INFO: ' : '') + h.content]. *)
Definition geminiContent (h : Turn) : GeminiContent :=
  {| g_role := match role h with model => g_model | _ => g_user end;
     g_text := match role h with system => lit "SYSTEM INFO: " | _ => [] end
               ++ content h |}.

(** The DeepSeek form of a Turn in [handleInput]:
    [role: h.role === 'model' ? 'assistant' : h.role]. *)
Definition chatMessage (h : Turn) : ChatMessage :=
  {| c_role := match role h with
               | model => c_assistant
               | user => c_user
               | system => c_system
               end;
     c_content := content h |}.

(** The DeepSeek form of a Turn in [/task]:
    [h.role === 'model' ? 'assistant' : h.role === 'system' ? 'user' : h.role]. *)
Definition chatMessageTask (h : Turn) : ChatMessage :=
  {| c_role := match role h with
               | model => c_assistant
               | system => c_user
               | user => c_user
               end;
     c_content := content h |}.

(** Everything a Gemini request shows the model, in order: the chat
    history, then the message being sent, which travels as a user
    message. *)
Definition geminiWindow (request : GeminiRequest) : list GeminiContent :=
  g_history request ++
  match g_parts request with
  | TextPart text :: _ => [{| g_role := g_user; g_text := text |}]
  | _ => []
  end.

(** *** The agent loop and the chat path *)

(** The commands the START prompt offers to the model. *)
Definition contract : list (jsstring * jsstring) :=
  [(lit "/exec <cmd>", lit "Run shell command");
   (lit "/read <file>", lit "Read file");
   (lit "/write <file> <content>", lit "Write file (creates/overwrites)");
   (lit "/append <file> <content>", lit "Append to file");
   (lit "/ls [path]", lit "List files");
   (lit "/browser", lit "Open browser");
   (lit "/visit <url>", lit "Visit website");
   (lit "/dump", lit "Get page text");
   (lit "/click <selector>", lit "Click element");
   (lit "/type <selector> <text>", lit "Type text");
   (lit "/google <query>", lit "Search Google");
   (lit "/done", lit "Task complete")].

Definition completionToken : jsstring := lit "/done".

(** The text of the user Turn pushed by [/task]. *)
Definition taskPrompt (goal : jsstring) : jsstring :=
  lit "GOAL: " ++ goal ++ newline ++ newline
  ++ lit "You are an autonomous agent. Execute the task step-by-step." ++ newline
  ++ lit "AVAILABLE COMMANDS:" ++ newline
  ++ List.concat (map (fun c => lit "- " ++ fst c ++ lit ": " ++ snd c ++ newline) contract)
  ++ newline
  ++ lit "INSTRUCTIONS:" ++ newline
  ++ lit "1. Output ONE command at a time." ++ newline
  ++ lit "2. Wait for the result (SYSTEM INFO)." ++ newline
  ++ lit "3. If the goal is achieved, output " ++ [34%N] ++ completionToken
  ++ [34%N] ++ lit "." ++ newline
  ++ lit "4. Do not output markdown blocks for commands, just the command text."
  ++ newline.

(** [const maxSteps = 20] *)
Definition maxSteps : nat := 20.

(** How one run of the loop ended. *)
Inductive Terminal :=
| DONE
| ABORTED (message : jsstring)
| MAX_STEPS_REACHED.

Inductive Next := Continue | Break (t : Terminal).

(** [command.toLowerCase() === '/done'] *)
Definition isDone (command : jsstring) : bool :=
  JS.eqb (toLowerCase command) completionToken.

Definition msg_google_key : jsstring := lit "Google API Key missing.".
Definition msg_deepseek_key : jsstring := lit "DeepSeek API Key missing.".
(** Engine texts of the [TypeError]s on an empty history and on a
    [null] completion. *)
Definition msg_lastMsg_undefined : jsstring :=
  lit "Cannot read properties of undefined (reading 'role')".
Definition msg_response_null : jsstring :=
  lit "Cannot read properties of null".
Definition msg_not_a_string : jsstring := lit "line.trim is not a function".
Definition msg_syntax_error : jsstring := lit "Unexpected token in JSON".

Section Control.

Variable w : World.
(** [await commands[cmd](args)] and [await handleInput(line, isSystemPrompt)],
    as available to the code below. *)
Variable call : Command -> list jsstring -> M unit.
Variable input : jsstring -> bool -> M unit.

Definition cmd_google (args : list jsstring) : M unit :=
  s <- get ;;
  (if browser s then ret tt else call Browser []) ;;
  match encodeURIComponent w (join space args) with
  | Err e => throw e
  | Ok query =>
      call Visit [lit "https://www.google.com/search?q=" ++ query] ;;
      call Dump []
  end.

Definition cmd_workflow (args : list jsstring) : M unit :=
  if negb (truthy (arg 0 args)) then ret tt
  else
    try_catch
      (text <- awaitOrThrow (fun n => readFile w n (show (arg 0 args))) ;;
       forEach (split1 10%N text) (fun line =>
         match trim line with
         | [] => ret tt
         | _ => input line false
         end))
      (fun _ => ret tt).

(** [currentProvider === 'deepseek' || (currentProvider === 'auto' && !geminiModel)] *)
Definition toDeepSeek (s : State) : bool :=
  match currentProvider s with
  | deepseek => true
  | auto => negb (geminiModel w)
  | google => false
  end.

(** The [messages] of a loop step sent to DeepSeek. *)
Definition taskMessages (s : State) : list ChatMessage :=
  {| c_role := c_system; c_content := SYSTEM_INSTRUCTIONS w |}
  :: map chatMessageTask (history s).

(** The [chatHistory] and [parts] of a loop step sent to Gemini; there
    is none when [history] is empty, [lastMsg] being [undefined]. *)
Definition taskRequest (s : State) : option GeminiRequest :=
  match rev (history s) with
  | [] => None
  | lastMsg :: _ =>
      Some {| g_history := map geminiContent (removelast (history s));
              g_parts := [TextPart (g_text (geminiContent lastMsg))] |}
  end.

(** The provider call of one loop step (the [if]/[else] at the head of
    the [try]); [None] is a [null] completion. *)
Definition taskResponse : M (option jsstring) :=
  s <- get ;;
  if toDeepSeek s then
    if negb (deepseekClient w) then throw msg_deepseek_key
    else
      modify (record (CallDeepSeek (taskMessages s))) ;;
      awaitOrThrow (fun n => createCompletion w n (taskMessages s))
  else
    if negb (geminiModel w) then throw msg_google_key
    else
      match taskRequest s with
      | None => throw msg_lastMsg_undefined
      | Some request =>
          modify (record (CallGemini request)) ;;
          text <- awaitOrThrow (fun n => sendMessage w n request) ;;
          ret (Some text)
      end.

(** What a STEP does with the text it obtained: the trimmed text is
    pushed as a model Turn, then it ends the loop, is dispatched, or is
    left alone. *)
Definition act (text : jsstring) : M Next :=
  let command := trim text in
  push model command ;;
  if isDone command then ret (Break DONE)
  else if startsWith command (lit "/") then
    let parts := split1 32%N command in
    match commands (hd [] parts) with
    | Some c => call c (tl parts) ;; ret Continue
    | None => push system (lit "Unknown command.") ;; ret Continue
    end
  else ret Continue.

(** The body of the [while]: one STEP. *)
Definition agentStep : M Next :=
  try_catch
    (response <- taskResponse ;;
     match response with
     | None => throw msg_response_null
     | Some text => act text
     end)
    (fun e => ret (Break (ABORTED e))).

(** [while (step++ < maxSteps)] with [remaining] iterations left; the
    result tells how the loop ended and how many STEPs it began. *)
Fixpoint agentLoop (remaining steps : nat) : M (Terminal * nat) :=
  match remaining with
  | O => ret (MAX_STEPS_REACHED, steps)
  | S remaining' =>
      next <- agentStep ;;
      match next with
      | Continue => agentLoop remaining' (S steps)
      | Break t => ret (t, S steps)
      end
  end.

(** START, then the loop, for a step bound [bound]. *)
Definition runTask (bound : nat) (goal : jsstring) : M (Terminal * nat) :=
  push user (taskPrompt goal) ;;
  agentLoop bound 0.

(** [commands['/task']] *)
Definition cmd_task (args : list jsstring) : M unit :=
  runTask maxSteps (join space args) ;; ret tt.

(** The first provider call of a run started in [s] answers [text]. *)
Definition firstAnswer (s : State) (text : jsstring) : Prop :=
  (toDeepSeek s = false /\ geminiModel w = true
   /\ forall request, sendMessage w (clock s) request = Ok text)
  \/ (toDeepSeek s = true /\ deepseekClient w = true
      /\ forall messages, createCompletion w (clock s) messages = Ok (Some text)).

(** The [chatHistory] and [parts] that [callGoogle] builds: the history
    without its last Turn (the line just pushed) unless the line is a
    system prompt, then the line and the pending image, if any. *)
Definition chatRequest (line : jsstring) (isSystemPrompt : bool) (s : State)
  : GeminiRequest :=
  {| g_history :=
       map geminiContent
         (if isSystemPrompt then history s else removelast (history s));
     g_parts :=
       TextPart line ::
       match pendingImage s with
       | Some image => [ImagePart image]
       | None => []
       end |}.

(** The [messages] that [callDeepSeek] builds. *)
Definition chatMessages (line : jsstring) (isSystemPrompt : bool) (s : State)
  : list ChatMessage :=
  {| c_role := c_system; c_content := SYSTEM_INSTRUCTIONS w |}
  :: map chatMessage (history s)
  ++ (if isSystemPrompt then [{| c_role := c_user; c_content := line |}] else []).

Definition callGoogle (line : jsstring) (isSystemPrompt : bool) : M jsstring :=
  if negb (geminiModel w) then throw msg_google_key
  else
    s <- get ;;
    let request := chatRequest line isSystemPrompt s in
    match pendingImage s with
    | Some _ => modify (with_pendingImage None)   (* Consume image *)
    | None => ret tt
    end ;;
    modify (record (CallGemini request)) ;;
    awaitOrThrow (fun n => sendMessage w n request).

Definition callDeepSeek (line : jsstring) (isSystemPrompt : bool)
  : M (option jsstring) :=
  if negb (deepseekClient w) then throw msg_deepseek_key
  else
    s <- get ;;
    modify (record (CallDeepSeek (chatMessages line isSystemPrompt s))) ;;
    awaitOrThrow (fun n => createCompletion w n (chatMessages line isSystemPrompt s)).

(** The inner [try]/[catch] of the chat path: the provider gateway. *)
Definition gateway (line : jsstring) (isSystemPrompt : bool) : M (option jsstring) :=
  s <- get ;;
  let providerToUse :=
    match currentProvider s with
    | auto => google
    | p => p
    end in
  try_catch
    (match providerToUse with
     | google => text <- callGoogle line isSystemPrompt ;; ret (Some text)
     | _ => callDeepSeek line isSystemPrompt
     end)
    (fun err =>
       s' <- get ;;
       match currentProvider s', providerToUse with
       | auto, google => callDeepSeek line isSystemPrompt
       | _, _ => throw err
       end).

(** [Check for JSON plan]: an answer that is a JSON array is run step
    by step. *)
Definition runPlan (response : jsstring) : M unit :=
  let t := trim response in
  if startsWith t (lit "[") && endsWith t (lit "]") then
    try_catch
      (match JSON.parse response with
       | None => throw msg_syntax_error
       | Some (JSON.JArray plan) =>
           forEach plan (fun step =>
             match step with
             | JSON.JString line => input line false
             | _ => throw msg_not_a_string
             end)
       | Some _ => ret tt
       end)
      (fun _ => ret tt)
  else ret tt.

(** The chat path up to and including the snapshot: the user Turn, the
    gateway, the model Turn, [writeFileSync]. *)
Definition exchange (line : jsstring) (isSystemPrompt : bool) : M jsstring :=
  response <- gateway line isSystemPrompt ;;
  match response with
  | None => throw msg_response_null
  | Some text => push model text ;; persist ;; ret text
  end.

(** The [else] branch of [handleInput]: AI chat. *)
Definition chat (line : jsstring) (isSystemPrompt : bool) : M unit :=
  (if isSystemPrompt then ret tt else push user line) ;;
  try_catch
    (text <- exchange line isSystemPrompt ;; runPlan text)
    (fun _ => ret tt).

Definition setBuffer (buffer : jsstring) : M unit :=
  modify (fun s => with_toggles (autoExecute s) (multilineMode s) buffer
                     (persistentMode s) s).

(** The body of [handleInput]. *)
Definition handleInputBody (line0 : jsstring) (isSystemPrompt : bool) : M unit :=
  let line := trim line0 in
  s <- get ;;
  if multilineMode s then
    if JS.eqb line (lit "<<<") then setBuffer []
    else if JS.eqb line (lit ">>>") then
      match trim (multilineBuffer s) with
      | [] => ret tt
      | c :: r => input (c :: r) isSystemPrompt
      end ;;
      setBuffer []
    else setBuffer (multilineBuffer s ++ line ++ newline)
  else
    match line with
    | [] => ret tt
    | _ =>
        if startsWith line (lit "/") then
          let parts := split1 32%N line in
          try_catch
            (match commands (hd [] parts) with
             | Some c => call c (tl parts)
             | None => ret tt
             end)
            (fun _ => ret tt)
        else chat line isSystemPrompt
    end.

End Control.

(** *** The knot: handlers call handlers and [handleInput] *)

Section Program.

Variable w : World.

(** [commands[c](args)] and [handleInput]; [fuel] bounds the depth of
    the calls of handlers from handlers. *)
Fixpoint run (fuel : nat) (c : Command) (args : list jsstring) {struct fuel} : M unit :=
  match fuel with
  | O => outOfFuel
  | S fuel' =>
      modify (record (Invoke c args)) ;;
      match c with
      | Help | Menu | McpList | Status => ret tt
      | Quit => cmd_quit w
      | Clear => cmd_clear
      | Provider => cmd_provider args
      | Ls => cmd_ls w args
      | Read => cmd_read w args
      | Write => cmd_write w args
      | Append => cmd_append w args
      | Delete => cmd_delete w args
      | Rename => cmd_rename w args
      | Save => cmd_save w args
      | Download => cmd_download w args
      | ImageCmd => cmd_image w args
      | Sandbox => cmd_sandbox w args
      | Exec => cmd_exec w args
      | Task => cmd_task w (run fuel') args
      | Auto => cmd_auto
      | Workflow => cmd_workflow w (handleInput fuel') args
      | Browser => cmd_browser w
      | Google => cmd_google w (run fuel') args
      | Url => cmd_url w args
      | Open => cmd_open w args
      | Visit => cmd_visit w args
      | Click => cmd_click w args
      | TypeText => cmd_type w args
      | Dump => cmd_dump w
      | Screenshot => cmd_screenshot w
      | McpAdd => cmd_mcp_add args
      | McpTools => cmd_mcp_tools w
      | McpCall => cmd_mcp_call w args
      | Multiline => cmd_multiline
      | Persistent => cmd_persistent
      | Grep => cmd_grep w args
      | Glob => cmd_glob w args
      | Git => cmd_git w args
      | Project => cmd_project w
      | Memory => cmd_memory w
      end
  end
with handleInput (fuel : nat) (line : jsstring) (isSystemPrompt : bool)
  {struct fuel} : M unit :=
  match fuel with
  | O => outOfFuel
  | S fuel' =>
      handleInputBody w (run fuel') (handleInput fuel') line isSystemPrompt
  end.

(** [/task goal] as the loop controller sees it: how the loop ended and
    after how many STEPs. *)
Definition task (fuel : nat) (bound : nat) (goal : jsstring) : M (Terminal * nat) :=
  runTask w (run fuel) bound goal.

End Program.

(** The state an outcome leaves behind, when there is one. *)
Definition finalState {A} (o : Outcome A) : option State :=
  match o with
  | Return _ s => Some s
  | Throw _ s => Some s
  | Exit s => Some s
  | OutOfFuel => None
  end.

(** A computation that opens no confirmation question and answers
    none, however it ends. *)
Definition keeps {A} (m : M A) : Prop :=
  forall s s', finalState (m s) = Some s' -> confirmations s' = confirmations s.

(** The handlers that neither ask for confirmation nor call a handler
    that may. *)
Definition plain (c : Command) : bool :=
  match c with
  | Delete | Task | Workflow | Google => false
  | _ => true
  end.

(** The number of Turns of a role in a history. *)
Definition countRole (r : Role) (h : list Turn) : nat :=
  List.length (filter (fun t => match role t, r with
                               | user, user | model, model | system, system => true
                               | _, _ => false
                               end) h).

End Bex.

(* ------------------------------------------------------------------ *)
(** ** Worlds and states to run the agent in *)

Module Samples.

Import Store Bex.

(** Both backends are configured; Gemini answers [gemini n] to the call
    made at clock [n] and DeepSeek [deepSeek n]; every other call to
    the outside succeeds. *)
Definition world (gemini : nat -> Result jsstring)
    (deepSeek : nat -> Result (option jsstring)) : World := {|
  geminiModel := true;
  deepseekClient := true;
  SYSTEM_INSTRUCTIONS := lit "You are BEX, a powerful AI CLI agent.";
  sendMessage := fun n _ => gemini n;
  createCompletion := fun n _ => deepSeek n;
  readdir := fun _ _ => Ok [lit "index.js"; lit "notes.txt"];
  readFile := fun _ _ => Ok (lit "hello");
  readFileBase64 := fun _ _ => Ok (lit "aGVsbG8=");
  mimeLookup := fun _ => Some (lit "image/png");
  effect := fun _ _ => Ok tt;
  runSandboxed := fun _ _ => Finished;
  exec := fun _ _ => Ok ([], []);
  fetchText := fun _ _ => Ok [];
  evaluate := fun _ => Ok [];
  encodeURIComponent := fun text => Ok text;
  fetchTools := fun _ _ => Ok None;
  postTool := fun _ _ _ _ => Ok (lit "{}");
  scanMemory := fun _ => Ok None
|}.

Definition unavailable : jsstring := lit "503 Service Unavailable".

(** The model asks to delete a file, then reports completion. *)
Definition deleting : World :=
  world (fun n => match n with
                  | O => Ok (lit "/delete notes.txt")
                  | _ => Ok (lit "/done")
                  end)
        (fun _ => Err unavailable).

(** Gemini is down, DeepSeek answers. *)
Definition failingPrimary : World :=
  world (fun _ => Err unavailable) (fun _ => Ok (Some (lit "/done"))).

(** Both backends are down. *)
Definition offline : World :=
  world (fun _ => Err unavailable) (fun _ => Err unavailable).

(** The model reports completion at once, in capitals and padded. *)
Definition finishing : World :=
  world (fun _ => Ok (lit " /DONE ")) (fun _ => Ok (Some (lit " /DONE "))).

(** The model keeps clearing the conversation. *)
Definition clearing : World :=
  world (fun _ => Ok (lit "/clear")) (fun _ => Ok (Some (lit "/clear"))).

(** The model asks to quit. *)
Definition quitting : World :=
  world (fun _ => Ok (lit "/quit")) (fun _ => Ok (Some (lit "/quit"))).

(** The model keeps listing the directory. *)
Definition listing : World :=
  world (fun _ => Ok (lit "/ls .")) (fun _ => Ok (Some (lit "/ls ."))).

(** Only Gemini is configured; the model keeps listing the directory. *)
Definition listingPrimaryOnly : World := {|
  geminiModel := true;
  deepseekClient := false;
  SYSTEM_INSTRUCTIONS := SYSTEM_INSTRUCTIONS listing;
  sendMessage := sendMessage listing;
  createCompletion := fun _ _ => Err (lit "DeepSeek API Key missing.");
  readdir := readdir listing;
  readFile := readFile listing;
  readFileBase64 := readFileBase64 listing;
  mimeLookup := mimeLookup listing;
  effect := effect listing;
  runSandboxed := runSandboxed listing;
  exec := exec listing;
  fetchText := fetchText listing;
  evaluate := evaluate listing;
  encodeURIComponent := encodeURIComponent listing;
  fetchTools := fetchTools listing;
  postTool := postTool listing;
  scanMemory := scanMemory listing
|}.

Definition autoMode : State := with_currentProvider auto initial.

Definition photo : Image := {| data := lit "aGVsbG8="; mimeType := lit "image/png" |}.

Definition withPhoto : State := with_pendingImage (Some photo) initial.

(** A conversation whose last Turn holds a quotation mark, a line
    feed, a surrogate pair and a lone surrogate. *)
Definition conversation : list Turn :=
  [{| role := user; content := lit "what is here?" |};
   {| role := model; content := lit "/ls ." |};
   {| role := system; content := lit "Output of /ls .: index.js, notes.txt" |};
   {| role := model;
      content := lit "two files" ++ [34; 10; 55357; 56832; 55357]%N |}].

(** A conversation that holds the result of a command. *)
Definition afterLs : State :=
  with_history
    [{| role := user; content := lit "what is here?" |};
     {| role := model; content := lit "/ls ." |};
     {| role := system; content := lit "Output of /ls .: index.js, notes.txt" |}]
    initial.

End Samples.

(* ------------------------------------------------------------------ *)
(** ** The tool catalogue ([GET /tools]) *)

Module Catalogue.

(** An entry of [tools]: [{ name, description, input_schema }], the
    schema being an object schema with string properties. *)
Record Descriptor := {
  name : jsstring;
  description : jsstring;
  properties : list (jsstring * jsstring);   (* property, its description *)
  required : list jsstring
}.

Definition tools : list Descriptor :=
  [{| name := lit "readFile";
      description := lit "Reads the entire content of a file from the local system.";
      properties := [(lit "filename", lit "The name of the file to read.")];
      required := [lit "filename"] |};
   {| name := lit "writeFile";
      description :=
        lit "Writes content to a file, creating it or overwriting existing content.";
      properties := [(lit "filename", lit "The name of the file to write to.");
                     (lit "content", lit "The content to write to the file.")];
      required := [lit "filename"; lit "content"] |};
   {| name := lit "appendFile";
      description :=
        lit "Appends content to the end of a file, creating it if it does not exist.";
      properties := [(lit "filename", lit "The name of the file to append to.");
                     (lit "content", lit "The content to append.")];
      required := [lit "filename"; lit "content"] |}].

(** [app.get('/tools', ...)]: [res.json({ tools })] *)
Definition getTools : list Descriptor := tools.

End Catalogue.

(* ------------------------------------------------------------------ *)
(** ** Daemon and worker ([process.argv]) *)

Module Process.

Definition daemonFlag : jsstring := lit "--daemon".
Definition workerFlag : jsstring := lit "--worker".

(** [process.argv.includes(flag)] *)
Definition hasFlag (flag : jsstring) (argv : list jsstring) : bool :=
  existsb (fun a => JS.eqb a flag) argv.

(** The [args] handed to [spawn]:
    [process.argv.slice(1).filter(a => a !== '--daemon')], then
    [args.push('--worker')]. *)
Definition workerArgs (argv : list jsstring) : list jsstring :=
  filter (fun a => negb (JS.eqb a daemonFlag)) (tl argv) ++ [workerFlag].

(** What a process started with [argv] does first. *)
Inductive Start :=
| Supervise (command : option jsstring) (args : list jsstring)
    (* spawn(process.argv[0], args), then process.exit(0) *)
| Work          (* isWorker: no terminal, keep-alive and watchdog timers *)
| Interact.     (* banner, readline *)

Definition start (argv : list jsstring) : Start :=
  if hasFlag daemonFlag argv then Supervise (nth_error argv 0) (workerArgs argv)
  else if hasFlag workerFlag argv then Work
  else Interact.

End Process.

(* ------------------------------------------------------------------ *)
(** ** Ways a piece of the agent may behave *)

Module Laws.

Import Store Bex.

(** It always returns to its caller: it neither throws nor ends the
    process. *)
Definition returns {A} (m : M A) : Prop :=
  forall s, exists a s', m s = Return a s'.


(** However it ends, it has only added Turns to the history, all of
    them system Turns. *)
Definition grows {A} (m : M A) : Prop :=
  forall s s',
    finalState (m s) = Some s' ->
    exists added,
      history s' = history s ++ added
      /\ Forall (fun t => role t = system) added.

(** The provider requests among some events. *)
Definition isProviderCall (e : Event) : bool :=
  match e with
  | CallGemini _ | CallDeepSeek _ => true
  | _ => false
  end.

Definition providerCalls (events : list Event) : nat :=
  List.length (filter isProviderCall events).

(** However it ends, it has made no provider request and has only
    added system Turns to the history. *)
Definition quiet {A} (m : M A) : Prop :=
  forall s s',
    finalState (m s) = Some s' ->
    providerCalls (trace s') = providerCalls (trace s)
    /\ exists added,
         history s' = history s ++ added
         /\ Forall (fun t => role t = system) added.

(** However it ends, the provider mode is the one it found. *)
Definition keepsMode {A} (m : M A) : Prop :=
  forall s s', finalState (m s) = Some s' -> currentProvider s' = currentProvider s.

(** The handler and the arguments that a STEP dispatches for the
    answer [text]: [None] when the trimmed answer does not begin with a
    slash or names no command of the table. *)
Definition dispatched (text : jsstring) : option (Command * list jsstring) :=
  if startsWith (trim text) (lit "/") then
    match commands (hd [] (split1 32%N (trim text))) with
    | Some c => Some (c, tl (split1 32%N (trim text)))
    | None => None
    end
  else None.

(** An action the loop survives: it is not the completion token, and
    the handler it dispatches, if any, returns, makes no provider
    request of its own, only appends system Turns and leaves the
    provider mode alone. *)
Definition surviving (call : Command -> list jsstring -> M unit) (text : jsstring)
  : Prop :=
  isDone (trim text) = false
  /\ forall c args,
       dispatched text = Some (c, args) ->
       returns (call c args) /\ quiet (call c args) /\ keepsMode (call c args).

(** The backend that a STEP begun in [s] asks is configured and,
    whenever and whatever it is asked, answers an action the loop
    survives. *)
Definition neverDone (w : World) (call : Command -> list jsstring -> M unit)
    (s : State) : Prop :=
  if toDeepSeek w s then
    deepseekClient w = true
    /\ forall n messages,
         exists text, createCompletion w n messages = Ok (Some text)
                      /\ surviving call text
  else
    geminiModel w = true
    /\ forall n request,
         exists text, sendMessage w n request = Ok text /\ surviving call text.

(** An answer that a backend of [w] can give. *)
Definition mayAnswer (w : World) (text : jsstring) : Prop :=
  (exists n request, sendMessage w n request = Ok text)
  \/ (exists n messages, createCompletion w n messages = Ok (Some text)).

(** The handlers whose body keeps every failure of the outside inside a
    [try], or calls nothing that fails.  [/sandbox] is not one of them:
    the code it runs in the process can end it or never return, and
    its [catch] can throw. *)
Definition contained (c : Command) : bool :=
  match c with
  | Quit | Clear | Save | Sandbox | Open | Dump | Screenshot | Google | Task
  | Workflow => false
  | _ => true
  end.


(** The provider call of a STEP made in state [s] fails with [e]. *)
Definition providerFails (w : World) (s : State) (e : jsstring) : Prop :=
  (toDeepSeek w s = false /\ geminiModel w = true /\ history s <> []
   /\ forall request, sendMessage w (clock s) request = Err e)
  \/ (toDeepSeek w s = true /\ deepseekClient w = true
      /\ forall messages, createCompletion w (clock s) messages = Err e).

(** The provider call of a STEP made in state [s] answers [text]. *)
Definition providerAnswers (w : World) (s : State) (text : jsstring) : Prop :=
  (toDeepSeek w s = false /\ geminiModel w = true /\ history s <> []
   /\ forall request, sendMessage w (clock s) request = Ok text)
  \/ (toDeepSeek w s = true /\ deepseekClient w = true
      /\ forall messages, createCompletion w (clock s) messages = Ok (Some text)).

(** What a provider call leaves alone. *)
Definition sameConversation (s s' : State) : Prop :=
  history s' = history s /\ memoryFile s' = memoryFile s
  /\ currentProvider s' = currentProvider s.

(** The events a computation adds to the trace of [s] to reach [s']. *)
Definition newEvents (s s' : State) : list Event :=
  skipn (List.length (trace s)) (trace s').

(** The invocations of the delete handler among some events. *)
Definition isDeleteCall (e : Event) : bool :=
  match e with
  | Invoke Delete _ => true
  | _ => false
  end.

(** However it ends, the trace it leaves is the one it found followed
    by new events, and unless the delete handler is invoked among them
    the confirmation questions pending are those it found. *)
Definition asksThroughDelete {A} (m : M A) : Prop :=
  forall s s',
    finalState (m s) = Some s' ->
    exists events,
      trace s' = trace s ++ events
      /\ (existsb isDeleteCall events = false -> confirmations s' = confirmations s).

(** The state in which the chat path calls the gateway: the line has
    been pushed as a user Turn unless it is a system prompt. *)
Definition asked (line : jsstring) (isSystemPrompt : bool) (s : State) : State :=
  if isSystemPrompt then s
  else with_history (history s ++ [{| role := user; content := line |}]) s.

(** [response.trim().startsWith('[') && response.trim().endsWith(']')] *)
Definition looksLikePlan (response : jsstring) : bool :=
  startsWith (trim response) (lit "[") && endsWith (trim response) (lit "]").

(** Two file systems that answer alike on every path [keep] lets
    through. *)
Definition agreeOn (keep : jsstring -> bool) (fs1 fs2 : ToolServer.FileSystem) : Prop :=
  forall p, keep p = true ->
    ToolServer.fs_readFile fs1 p = ToolServer.fs_readFile fs2 p
    /\ (forall c, ToolServer.fs_writeFile fs1 p c = ToolServer.fs_writeFile fs2 p c)
    /\ (forall c, ToolServer.fs_appendFile fs1 p c = ToolServer.fs_appendFile fs2 p c).

(** The external call of a handler that reports to the model, made at
    clock [n], fails. *)
Definition callFails (w : World) (n : nat) (c : Command) (args : list jsstring) : Prop :=
  match c with
  | Ls => exists e, readdir w n (orElse (arg 0 args) (lit ".")) = Err e
  | Read => exists e, readFile w n (show (arg 0 args)) = Err e
  | Append =>
      exists e, effect w n (AppendFile (show (arg 0 args))
                              (newline ++ join space (tl args))) = Err e
  | Exec => exists e, exec w n (join space args) = Err e
  | Url => exists e, fetchText w n (show (arg 0 args)) = Err e
  | _ => False
  end.

(** The subcommands of [/git]. *)
Definition gitSubcommands : list jsstring :=
  [lit "status"; lit "log"; lit "diff"; lit "commits"].


End Laws.

(* ------------------------------------------------------------------ *)
(** ** More sample worlds *)

Module Cases.

Import Store Bex.

(** No API key is set. *)
Definition keyless : World := {|
  geminiModel := false;
  deepseekClient := false;
  SYSTEM_INSTRUCTIONS := SYSTEM_INSTRUCTIONS Samples.offline;
  sendMessage := sendMessage Samples.offline;
  createCompletion := createCompletion Samples.offline;
  readdir := readdir Samples.offline;
  readFile := readFile Samples.offline;
  readFileBase64 := readFileBase64 Samples.offline;
  mimeLookup := mimeLookup Samples.offline;
  effect := effect Samples.offline;
  runSandboxed := runSandboxed Samples.offline;
  exec := exec Samples.offline;
  fetchText := fetchText Samples.offline;
  evaluate := evaluate Samples.offline;
  encodeURIComponent := encodeURIComponent Samples.offline;
  fetchTools := fetchTools Samples.offline;
  postTool := postTool Samples.offline;
  scanMemory := scanMemory Samples.offline
|}.

(** The model asks for a command that does not exist. *)
Definition stray : World :=
  Samples.world (fun _ => Ok (lit "/frobnicate now"))
                (fun _ => Ok (Some (lit "/frobnicate now"))).

(** The model answers in plain text. *)
Definition talking : World :=
  Samples.world (fun _ => Ok (lit "two files")) (fun _ => Ok (Some (lit "two files"))).

(** No file can be read. *)
Definition unreadable : World := {|
  geminiModel := true;
  deepseekClient := true;
  SYSTEM_INSTRUCTIONS := SYSTEM_INSTRUCTIONS Samples.offline;
  sendMessage := sendMessage Samples.offline;
  createCompletion := createCompletion Samples.offline;
  readdir := readdir Samples.offline;
  readFile := fun _ _ => Err (lit "ENOENT: no such file or directory");
  readFileBase64 := fun _ _ => Err (lit "ENOENT: no such file or directory");
  mimeLookup := mimeLookup Samples.offline;
  effect := effect Samples.offline;
  runSandboxed := runSandboxed Samples.offline;
  exec := exec Samples.offline;
  fetchText := fetchText Samples.offline;
  evaluate := evaluate Samples.offline;
  encodeURIComponent := encodeURIComponent Samples.offline;
  fetchTools := fetchTools Samples.offline;
  postTool := postTool Samples.offline;
  scanMemory := scanMemory Samples.offline
|}.

Definition hello : jsstring := lit "hello there".

(** A file system that holds a file outside the served directory. *)
Definition leaky : ToolServer.FileSystem := {|
  ToolServer.fs_readFile := fun p =>
    if JS.eqb p (lit "../secret") then Ok (lit "hunter2")
    else ToolServer.fs_readFile ToolServer.oneFile p;
  ToolServer.fs_writeFile := ToolServer.fs_writeFile ToolServer.oneFile;
  ToolServer.fs_appendFile := ToolServer.fs_appendFile ToolServer.oneFile
|}.

(** Both backends are down and no MIME type is known for any file. *)
Definition untyped : World := {|
  geminiModel := true;
  deepseekClient := true;
  SYSTEM_INSTRUCTIONS := SYSTEM_INSTRUCTIONS Samples.offline;
  sendMessage := sendMessage Samples.offline;
  createCompletion := createCompletion Samples.offline;
  readdir := readdir Samples.offline;
  readFile := readFile Samples.offline;
  readFileBase64 := readFileBase64 Samples.offline;
  mimeLookup := fun _ => None;
  effect := effect Samples.offline;
  runSandboxed := runSandboxed Samples.offline;
  exec := exec Samples.offline;
  fetchText := fetchText Samples.offline;
  evaluate := evaluate Samples.offline;
  encodeURIComponent := encodeURIComponent Samples.offline;
  fetchTools := fetchTools Samples.offline;
  postTool := postTool Samples.offline;
  scanMemory := scanMemory Samples.offline
|}.

End Cases.

(* ================================================================== *)
(** * Part II: properties *)
(* ================================================================== *)

(** ** The tool server *)

Module ToolServerFacts.
Import ToolServer.

Section Statuses.

Variable isAbsolute : jsstring -> bool.
Variable fs : FileSystem.

(** No platform takes the empty path for an absolute one. *)
Hypothesis isAbsolute_empty : isAbsolute [] = false.

Lemma invalid_path_first (a0 : jsstring) (rest : list jsstring) :
  invalid_path isAbsolute (Some (a0 :: rest)) = path_rejected isAbsolute a0.
Proof.
  unfold invalid_path, path_rejected. destruct a0 as [|c a0]; cbn [truthy andb].
  - rewrite isAbsolute_empty. reflexivity.
  - reflexivity.
Qed.

(** C9. The statuses of [POST /tools/:toolName], in the order the
    handler decides them: a first argument that contains [..] or is an
    absolute path gives 400 with an error body; otherwise an unknown
    tool name gives 404; otherwise a tool that fails gives 500 with the
    error in an [{ error }] body; otherwise the answer is [{ output }]. *)
Theorem post_statuses (req : Request) :
  (forall a0 rest,
      arguments req = Some (a0 :: rest) ->
      includes a0 (lit "..") = true \/ isAbsolute a0 = true ->
      status (post isAbsolute fs req) = 400
      /\ exists e, body (post isAbsolute fs req) = ErrorBody e)
  /\ (invalid_path isAbsolute (arguments req) = false ->
      tool_of_name (toolName req) = None ->
      status (post isAbsolute fs req) = 404)
  /\ (forall t e,
      invalid_path isAbsolute (arguments req) = false ->
      tool_of_name (toolName req) = Some t ->
      run_tool fs t (arguments req) = Err e ->
      post isAbsolute fs req = {| status := 500; body := ErrorBody e |})
  /\ (forall t out,
      invalid_path isAbsolute (arguments req) = false ->
      tool_of_name (toolName req) = Some t ->
      run_tool fs t (arguments req) = Ok out ->
      post isAbsolute fs req = {| status := 200; body := OutputBody out |}).
Proof.
  unfold post. split; [|split; [|split]].
  - intros a0 rest Ha Hrej. rewrite Ha, invalid_path_first. unfold path_rejected.
    destruct Hrej as [-> | ->]; [|rewrite orb_true_r];
      (split; [reflexivity | eexists; reflexivity]).
  - intros Hv Hn. rewrite Hv, Hn. reflexivity.
  - intros t e Hv Ht Hr. rewrite Hv, Ht, Hr. reflexivity.
  - intros t out Hv Ht Hr. rewrite Hv, Ht, Hr. reflexivity.
Qed.

(** C10. The path check comes before the tool name is looked at and
    reads the first argument only: a request whose first argument
    contains [..] or is absolute is answered 400 whatever the tool name,
    known or not; a request whose first argument passes is never
    answered 400, whatever its later arguments hold. *)
Theorem path_check_first (name a0 : jsstring) (rest : list jsstring) :
  let req := {| toolName := name; arguments := Some (a0 :: rest) |} in
  (path_rejected isAbsolute a0 = true ->
   post isAbsolute fs req =
   {| status := 400;
      body := ErrorBody (lit "Invalid file path. Only relative paths are allowed.") |})
  /\ (path_rejected isAbsolute a0 = false -> status (post isAbsolute fs req) <> 400).
Proof.
  cbn zeta. unfold post. cbn [arguments toolName].
  rewrite invalid_path_first. split; intros Hp; rewrite Hp.
  - reflexivity.
  - destruct (tool_of_name name) as [t|]; [|discriminate].
    destruct (run_tool fs t (Some (a0 :: rest))); discriminate.
Qed.

End Statuses.

Lemma post_statuses_witness :
  status (post posix_isAbsolute oneFile
            {| toolName := lit "readFile"; arguments := Some [lit "../secret"] |}) = 400
  /\ status (post posix_isAbsolute oneFile
               {| toolName := lit "removeFile"; arguments := Some [lit "notes.txt"] |}) = 404
  /\ post posix_isAbsolute oneFile
       {| toolName := lit "readFile"; arguments := Some [lit "missing.txt"] |}
     = {| status := 500; body := ErrorBody (lit "ENOENT: no such file or directory") |}
  /\ post posix_isAbsolute oneFile
       {| toolName := lit "readFile"; arguments := Some [lit "notes.txt"] |}
     = {| status := 200; body := OutputBody (lit "hello") |}.
Proof.
  split; [|split; [|split]].
  - apply (proj1 (post_statuses posix_isAbsolute oneFile eq_refl
             {| toolName := lit "readFile"; arguments := Some [lit "../secret"] |}))
      with (a0 := lit "../secret") (rest := []); [reflexivity | left; reflexivity].
  - apply (proj1 (proj2 (post_statuses posix_isAbsolute oneFile eq_refl
             {| toolName := lit "removeFile"; arguments := Some [lit "notes.txt"] |})));
      reflexivity.
  - apply (proj1 (proj2 (proj2 (post_statuses posix_isAbsolute oneFile eq_refl
             {| toolName := lit "readFile"; arguments := Some [lit "missing.txt"] |})))
             ReadFile); reflexivity.
  - apply (proj2 (proj2 (proj2 (post_statuses posix_isAbsolute oneFile eq_refl
             {| toolName := lit "readFile"; arguments := Some [lit "notes.txt"] |})))
             ReadFile); reflexivity.
Defined.

Lemma path_check_first_witness :
  status (post posix_isAbsolute oneFile
            {| toolName := lit "removeFile"; arguments := Some [lit "/etc/passwd"] |}) = 400
  /\ status (post posix_isAbsolute oneFile
               {| toolName := lit "writeFile";
                  arguments := Some [lit "notes.txt"; lit "../../etc/passwd"] |}) <> 400.
Proof.
  split.
  - rewrite (proj1 (path_check_first posix_isAbsolute oneFile eq_refl
               (lit "removeFile") (lit "/etc/passwd") [])); reflexivity.
  - apply (proj2 (path_check_first posix_isAbsolute oneFile eq_refl
               (lit "writeFile") (lit "notes.txt") [lit "../../etc/passwd"])).
    reflexivity.
Defined.

End ToolServerFacts.

(** ** JSON text of strings *)

Module JSONFacts.
Import JSON.

(** Boolean tests on code units, turned into arithmetic facts. *)
Ltac nbool :=
  repeat match goal with
  | H : (_ && _)%bool = true |- _ => apply andb_true_iff in H; destruct H
  | H : (_ && _)%bool = false |- _ => apply andb_false_iff in H
  | H : (_ || _)%bool = true |- _ => apply orb_true_iff in H
  | H : (_ || _)%bool = false |- _ => apply orb_false_iff in H; destruct H
  | H : negb _ = true |- _ => apply negb_true_iff in H
  | H : negb _ = false |- _ => apply negb_false_iff in H
  | H : (_ =? _)%N = true |- _ => apply N.eqb_eq in H
  | H : (_ =? _)%N = false |- _ => apply N.eqb_neq in H
  | H : (_ <=? _)%N = true |- _ => apply N.leb_le in H
  | H : (_ <=? _)%N = false |- _ => apply N.leb_gt in H
  | H : (_ <? _)%N = true |- _ => apply N.ltb_lt in H
  | H : (_ <? _)%N = false |- _ => apply N.ltb_ge in H
  | H : _ \/ _ |- _ => destruct H
  end.

Ltac ncases :=
  repeat match goal with
  | |- context [if ?b then _ else _] => destruct b eqn:?
  end; nbool.

Lemma hexValue_hexDigit (d : N) : (d < 16)%N -> hexValue (hexDigit d) = Some d.
Proof.
  intros Hd. unfold hexValue, hexDigit.
  destruct (d <? 10)%N eqn:Hlt; ncases; try (f_equal; lia); lia.
Qed.

Lemma hex4_unicodeEscape (c : N) :
  (c < 65536)%N ->
  hex4 (hexDigit (c / 4096 mod 16)) (hexDigit (c / 256 mod 16))
       (hexDigit (c / 16 mod 16)) (hexDigit (c mod 16)) = Some c.
Proof.
  intros Hc. unfold hex4.
  rewrite !hexValue_hexDigit by (apply N.mod_upper_bound; discriminate).
  f_equal.
  replace (c / 4096)%N with (c / 16 / 16 / 16)%N by (rewrite !N.Div0.div_div; reflexivity).
  replace (c / 256)%N with (c / 16 / 16)%N by (rewrite !N.Div0.div_div; reflexivity).
  pose proof (N.div_mod c 16). pose proof (N.div_mod (c / 16) 16).
  pose proof (N.div_mod (c / 16 / 16) 16).
  assert (c / 16 / 16 / 16 < 16)%N.
  { rewrite !N.Div0.div_div. apply N.Div0.div_lt_upper_bound. exact Hc. }
  rewrite (N.mod_small (c / 16 / 16 / 16) 16) by assumption.
  lia.
Qed.

Lemma parseChars_plain (c : N) (X : jsstring) :
  c <> 34%N -> c <> 92%N -> (32 <= c)%N ->
  parseChars (c :: X) = pcons c (parseChars X).
Proof.
  intros H1 H2 H3. cbn [parseChars].
  apply N.eqb_neq in H1, H2. rewrite H1, H2.
  apply N.ltb_ge in H3. rewrite H3. reflexivity.
Qed.

Lemma parseChars_unicodeEscape (c : N) (X : jsstring) :
  (c < 65536)%N ->
  parseChars (unicodeEscape c ++ X) = pcons c (parseChars X).
Proof.
  intros Hc. unfold unicodeEscape. cbn [app parseChars N.eqb Pos.eqb].
  rewrite hex4_unicodeEscape by assumption. reflexivity.
Qed.

Lemma parseChars_quoteUnit (c : N) (X : jsstring) :
  isHighSurrogate c = false ->
  parseChars (quoteUnit c ++ X) = pcons c (parseChars X).
Proof.
  intros Hh. unfold quoteUnit.
  repeat match goal with
  | |- context [if (c =? ?k)%N then _ else _] =>
      destruct (N.eqb_spec c k); [subst c; reflexivity|]
  end.
  destruct ((c <? 32)%N || isHighSurrogate c || isLowSurrogate c) eqn:He.
  - apply parseChars_unicodeEscape.
    unfold isHighSurrogate, isLowSurrogate in He. nbool; lia.
  - unfold isHighSurrogate, isLowSurrogate in He. nbool.
    all: apply parseChars_plain; assumption.
Qed.

Theorem parseChars_quoteBody (s rest : jsstring) :
  parseChars (quoteBody s ++ 34%N :: rest) = Some (s, rest).
Proof.
  remember (List.length s) as n eqn:Hn.
  revert s Hn. induction n as [n IH] using lt_wf_ind. intros s Hn.
  destruct s as [|c s1].
  - reflexivity.
  - cbn [quoteBody]. destruct (isHighSurrogate c) eqn:Hh.
    + assert (Hc : (55296 <= c <= 56319)%N) by (unfold isHighSurrogate in Hh; nbool; lia).
      destruct s1 as [|d s2].
      * rewrite parseChars_unicodeEscape by lia. reflexivity.
      * destruct (isLowSurrogate d) eqn:Hl.
        -- assert (Hd : (56320 <= d)%N) by (unfold isLowSurrogate in Hl; nbool; lia).
           cbn [app]. rewrite parseChars_plain by lia.
           rewrite parseChars_plain by lia.
           rewrite (IH (List.length s2)) by (cbn in Hn; try lia; reflexivity).
           reflexivity.
        -- rewrite <- app_assoc, parseChars_unicodeEscape by lia.
           rewrite (IH (List.length (d :: s2))) by (cbn in Hn |- *; try lia; reflexivity).
           reflexivity.
    + rewrite <- app_assoc, parseChars_quoteUnit by assumption.
      rewrite (IH (List.length s1)) by (cbn in Hn; try lia; reflexivity).
      reflexivity.
Qed.

End JSONFacts.

(** ** UTF-8 *)

Module UTF8Facts.
Import JSON UTF8.

Import JSONFacts.

(** Quotient and remainder of [cp] by 64, 4096 and 262144, as
    equations [lia] can use. *)
Ltac split_point cp :=
  pose proof (N.div_mod cp 64 ltac:(discriminate));
  pose proof (N.mod_upper_bound cp 64 ltac:(discriminate));
  pose proof (N.div_mod (cp / 64) 64 ltac:(discriminate));
  pose proof (N.mod_upper_bound (cp / 64) 64 ltac:(discriminate));
  pose proof (N.div_mod (cp / 64 / 64) 64 ltac:(discriminate));
  pose proof (N.mod_upper_bound (cp / 64 / 64) 64 ltac:(discriminate));
  replace (cp / 4096)%N with (cp / 64 / 64)%N in *
    by (rewrite N.Div0.div_div; reflexivity);
  replace (cp / 262144)%N with (cp / 64 / 64 / 64)%N in *
    by (rewrite !N.Div0.div_div; reflexivity);
  let q1 := fresh "q" in let m1 := fresh "m" in
  let q2 := fresh "q" in let m2 := fresh "m" in
  let q3 := fresh "q" in let m3 := fresh "m" in
  set (q1 := (cp / 64)%N) in *; set (m1 := (cp mod 64)%N) in *;
  set (q2 := (q1 / 64)%N) in *; set (m2 := (q1 mod 64)%N) in *;
  set (q3 := (q2 / 64)%N) in *; set (m3 := (q2 mod 64)%N) in *;
  clearbody q3 m3 q2 m2 q1 m1.

Lemma decode_encodePoint (c : N) (rest : list N) :
  (c < 65536)%N -> isHighSurrogate c = false -> isLowSurrogate c = false ->
  decode (encodePoint c ++ rest) = option_map (cons c) (decode rest).
Proof.
  intros Hc Hh Hl. unfold isHighSurrogate, isLowSurrogate in Hh, Hl.
  unfold encodePoint. split_point c.
  destruct (c <? 128)%N eqn:Hone; [|destruct (c <? 2048)%N eqn:Htwo;
    [|destruct (c <? 65536)%N eqn:Hthree]]; nbool; try lia.
  all: cbn [app decode].
  all: repeat match goal with
       | |- context [if ?b then _ else _] =>
           let Hb := fresh "Hb" in destruct b eqn:Hb
       end.
  all: unfold isContinuation, isHighSurrogate, isLowSurrogate in *; nbool; try lia.
  all: try reflexivity.
  all: f_equal; f_equal; lia.
Qed.

Lemma decode_encodePair (c d : N) (rest : list N) :
  isHighSurrogate c = true -> isLowSurrogate d = true ->
  decode (encodePoint (65536 + (c - 55296) * 1024 + (d - 56320)) ++ rest)
  = option_map (fun s => c :: d :: s) (decode rest).
Proof.
  intros Hh Hl. unfold isHighSurrogate, isLowSurrogate in Hh, Hl. nbool.
  set (cp := (65536 + (c - 55296) * 1024 + (d - 56320))%N).
  assert (Hrange : (65536 <= cp < 1114112)%N) by (unfold cp; lia).
  assert (Hq : ((cp - 65536) / 1024 = c - 55296)%N).
  { symmetry. apply N.div_unique with (r := (d - 56320)%N); unfold cp; lia. }
  assert (Hm : ((cp - 65536) mod 1024 = d - 56320)%N).
  { symmetry. apply N.mod_unique with (q := (c - 55296)%N); unfold cp; lia. }
  clearbody cp. unfold encodePoint.
  replace (cp <? 128)%N with false by (symmetry; apply N.ltb_ge; lia).
  replace (cp <? 2048)%N with false by (symmetry; apply N.ltb_ge; lia).
  replace (cp <? 65536)%N with false by (symmetry; apply N.ltb_ge; lia).
  cbn [app decode].
  assert (Hrec : ((240 + cp / 262144 - 240) * 262144 + (128 + cp / 4096 mod 64 - 128) * 4096
                  + (128 + cp / 64 mod 64 - 128) * 64 + (128 + cp mod 64 - 128) = cp)%N).
  { split_point cp. lia. }
  rewrite Hrec, Hq, Hm.
  replace (55296 + (c - 55296))%N with c by lia.
  replace (56320 + (d - 56320))%N with d by lia.
  split_point cp.
  repeat match goal with
  | |- context [if ?b then _ else _] =>
      let Hb := fresh "Hb" in destruct b eqn:Hb
  end; unfold isContinuation in *; nbool; try lia; reflexivity.
Qed.

(** Written as UTF-8 and read back, a well-formed string is itself. *)
Theorem decode_encode (s : jsstring) :
  wellFormed s = true -> decode (encode s) = Some s.
Proof.
  remember (List.length s) as n eqn:Hn. revert s Hn.
  induction n as [n IH] using lt_wf_ind. intros s Hn Hwf.
  destruct s as [|c rest]; [reflexivity|].
  cbn [encode wellFormed] in *.
  destruct (isHighSurrogate c) eqn:Hh.
  - destruct rest as [|d rest']; [discriminate|].
    apply andb_true_iff in Hwf. destruct Hwf as [Hl Hwf]. rewrite Hl.
    rewrite decode_encodePair by assumption.
    rewrite (IH (List.length rest')) by (cbn [List.length] in Hn; try lia; auto).
    reflexivity.
  - apply andb_true_iff in Hwf. destruct Hwf as [Hc Hwf].
    apply andb_true_iff in Hc. destruct Hc as [Hl Hc].
    apply negb_true_iff in Hl. rewrite Hl. apply N.ltb_lt in Hc.
    rewrite decode_encodePoint by assumption.
    rewrite (IH (List.length rest)) by (cbn [List.length] in Hn; try lia; auto).
    reflexivity.
Qed.

Lemma wellFormed_app (a b : jsstring) :
  wellFormed a = true -> wellFormed b = true -> wellFormed (a ++ b) = true.
Proof.
  remember (List.length a) as n eqn:Hn. revert a Hn.
  induction n as [n IH] using lt_wf_ind. intros a Hn Ha Hb.
  destruct a as [|c rest]; [exact Hb|].
  cbn [app wellFormed] in *. destruct (isHighSurrogate c).
  - destruct rest as [|d rest']; [discriminate|]. cbn [app].
    apply andb_true_iff in Ha. destruct Ha as [-> Ha]. cbn [andb].
    apply (IH (List.length rest')); cbn [List.length] in Hn; try lia; auto.
  - apply andb_true_iff in Ha. destruct Ha as [-> Ha]. cbn [andb].
    apply (IH (List.length rest)); cbn [List.length] in Hn; try lia; auto.
Qed.

(** Plain characters: 16-bit code units that are not surrogates. *)
Lemma wellFormed_plain (s : jsstring) :
  Forall (fun c => (c < 55296)%N) s -> wellFormed s = true.
Proof.
  induction 1 as [|c rest Hc _ IH]; [reflexivity|].
  cbn [wellFormed]. unfold isHighSurrogate, isLowSurrogate.
  replace (55296 <=? c)%N with false by (symmetry; apply N.leb_gt; lia).
  replace (56320 <=? c)%N with false by (symmetry; apply N.leb_gt; lia).
  replace (c <? 65536)%N with true by (symmetry; apply N.ltb_lt; lia).
  exact IH.
Qed.

Lemma wellFormed_unicodeEscape (c : N) : wellFormed (unicodeEscape c) = true.
Proof.
  apply wellFormed_plain. unfold unicodeEscape.
  assert (Hd : forall d, (d < 16)%N -> (hexDigit d < 55296)%N).
  { intros d Hlt. unfold hexDigit. destruct (d <? 10)%N; lia. }
  repeat constructor; try lia; apply Hd; apply N.mod_upper_bound; discriminate.
Qed.

Lemma wellFormed_quoteUnit (c : N) :
  (c < 65536)%N -> isHighSurrogate c = false -> wellFormed (quoteUnit c) = true.
Proof.
  intros Hc Hh. unfold quoteUnit.
  repeat match goal with
  | |- context [if (c =? ?k)%N then _ else _] => destruct (c =? k)%N; [reflexivity|]
  end.
  destruct ((c <? 32)%N || isHighSurrogate c || isLowSurrogate c) eqn:He.
  - apply wellFormed_unicodeEscape.
  - apply orb_false_iff in He. destruct He as [_ Hl].
    cbn [wellFormed]. rewrite Hh, Hl. apply N.ltb_lt in Hc. rewrite Hc. reflexivity.
Qed.

(** The text of a quoted string holds no lone surrogate. *)
Lemma wellFormed_quoteBody (s : jsstring) :
  Forall (fun c => (c < 65536)%N) s -> wellFormed (quoteBody s) = true.
Proof.
  remember (List.length s) as n eqn:Hn. revert s Hn.
  induction n as [n IH] using lt_wf_ind. intros s Hn Hs.
  destruct s as [|c rest]; [reflexivity|].
  inversion Hs as [|? ? Hc Hrest]; subst.
  cbn [quoteBody]. destruct (isHighSurrogate c) eqn:Hh.
  - destruct rest as [|d rest']; [apply wellFormed_unicodeEscape|].
    destruct (isLowSurrogate d) eqn:Hl.
    + cbn [wellFormed]. rewrite Hh, Hl. cbn [andb].
      inversion Hrest; subst.
      apply (IH (List.length rest')); cbn [List.length]; try lia; auto.
    + apply wellFormed_app; [apply wellFormed_unicodeEscape|].
      apply (IH (List.length (d :: rest'))); cbn [List.length]; try lia; auto.
  - apply wellFormed_app; [apply wellFormed_quoteUnit; assumption|].
    apply (IH (List.length rest)); cbn [List.length]; try lia; auto.
Qed.

End UTF8Facts.

(** ** The snapshot round trip *)

Module StoreFacts.
Import JSON Store JSONFacts.

Lemma turnText_eq (t : Turn) :
  turnText t =
  (123 :: 10 :: 32 :: 32 :: 32 :: 32 :: 34 :: quoteBody (lit "role") ++
   34 :: 58 :: 32 :: 34 :: quoteBody (roleName (role t)) ++
   34 :: 44 :: 10 :: 32 :: 32 :: 32 :: 32 :: 34 :: quoteBody (lit "content") ++
   34 :: 58 :: 32 :: 34 :: quoteBody (content t) ++
   34 :: 10 :: 32 :: 32 :: [125])%N.
Proof.
  unfold turnText, json_of_turn. cbn. unfold quote.
  repeat first [rewrite <- app_assoc | progress cbn [app]]. reflexivity.
Qed.

Lemma snapshot_cons (t : Turn) (h : list Turn) :
  snapshot (t :: h) =
  (91 :: 10 :: 32 :: 32 :: join turnSeparator (map turnText (t :: h)) ++ [10; 93])%N.
Proof.
  unfold snapshot, stringify2, json_of_history.
  cbn [serialize map]. rewrite map_map. reflexivity.
Qed.

Lemma parseValue_turn (t : Turn) (rest : jsstring) (fuel : nat) :
  parseValue (4 + fuel) (10 :: 32 :: 32 :: turnText t ++ rest)%N
  = Some (json_of_turn t, rest).
Proof.
  rewrite turnText_eq. destruct t as [r c]. unfold json_of_turn.
  cbn [Store.role Store.content].
  repeat (rewrite <- ?app_assoc; cbn [app]).
  destruct r; cbn; rewrite parseChars_quoteBody; reflexivity.
Qed.

Lemma turnText_nonempty (t : Turn) : exists s, turnText t = 123%N :: s.
Proof. rewrite turnText_eq. eexists. reflexivity. Qed.

Lemma parseElements_S (fuel : nat) (s : jsstring) :
  parseElements (S fuel) s =
  match parseValue fuel s with
  | None => None
  | Some (v, s1) =>
      match skipWs s1 with
      | 44%N :: s2 =>
          match parseElements fuel s2 with
          | Some (vs, rest) => Some (v :: vs, rest)
          | None => None
          end
      | 93%N :: rest => Some ([v], rest)
      | _ => None
      end
  end.
Proof. reflexivity. Qed.

Lemma parseElements_turns (h : list Turn) :
  forall (t : Turn) (rest : jsstring) (fuel : nat),
  parseElements (S (4 + (List.length h + fuel)))
    (10 :: 32 :: 32 :: join turnSeparator (map turnText (t :: h)) ++ 10 :: 93 :: rest)%N
  = Some (map json_of_turn (t :: h), rest).
Proof.
  induction h as [|t' h IH]; intros t rest fuel; rewrite parseElements_S.
  - cbn [map join]. rewrite parseValue_turn. reflexivity.
  - change (map turnText (t :: t' :: h)) with (turnText t :: map turnText (t' :: h)).
    change (join turnSeparator (turnText t :: map turnText (t' :: h)))
      with (turnText t ++ turnSeparator ++ join turnSeparator (map turnText (t' :: h))).
    rewrite <- !app_assoc. rewrite parseValue_turn.
    cbn [turnSeparator app skipWs isWs N.eqb Pos.eqb orb].
    replace (4 + (List.length (t' :: h) + fuel))
      with (S (4 + (List.length h + fuel))) by (cbn [List.length]; lia).
    rewrite IH. reflexivity.
Qed.

Lemma length_join_turns (h : list Turn) :
  List.length h <= List.length (join turnSeparator (map turnText h)).
Proof.
  induction h as [|t h IH]; [apply Nat.le_refl|].
  destruct (turnText_nonempty t) as [s Hs].
  cbn [map join]. rewrite Hs.
  destruct (map turnText h) eqn:Hm.
  - destruct h; [cbn; lia | discriminate].
  - cbn [List.length]. rewrite !length_app. cbn [List.length] in *. lia.
Qed.

Lemma parseValue_array_of_objects (fuel : nat) (s1 x : jsstring) :
  skipWs s1 = 123%N :: x ->
  parseValue (S fuel) (91%N :: s1) =
  match parseElements fuel s1 with
  | Some (items, rest) => Some (JArray items, rest)
  | None => None
  end.
Proof.
  intros Hopen. cbn [parseValue skipWs isWs N.eqb Pos.eqb orb].
  rewrite Hopen. reflexivity.
Qed.

Lemma parse_snapshot (h : list Turn) :
  parse (snapshot h) = Some (json_of_history h).
Proof.
  destruct h as [|t h]; [reflexivity|].
  rewrite snapshot_cons. unfold parse.
  set (body := join turnSeparator (map turnText (t :: h))).
  assert (Hlen : S (List.length h) <= List.length body)
    by apply (length_join_turns (t :: h)).
  assert (Hopen : exists x, skipWs (10 :: 32 :: 32 :: body ++ [10; 93])%N = 123%N :: x).
  { unfold body. cbn [map join]. destruct (turnText_nonempty t) as [x Hx].
    rewrite Hx. destruct (map turnText h); eexists; reflexivity. }
  destruct Hopen as [x Hopen].
  replace (S (List.length (91 :: 10 :: 32 :: 32 :: body ++ [10; 93])%N))
    with (S (S (4 + (List.length h + (List.length body - List.length h + 1)))))
    by (cbn [List.length]; rewrite length_app; cbn [List.length]; lia).
  rewrite (parseValue_array_of_objects _ _ x Hopen).
  unfold body. change [10; 93]%N with (10 :: 93 :: @nil N)%N.
  rewrite parseElements_turns. reflexivity.
Qed.

Lemma turn_of_json_of_turn (t : Turn) : turn_of_json (json_of_turn t) = Some t.
Proof. destruct t as [[] c]; reflexivity. Qed.

Lemma history_of_json_of_history (h : list Turn) :
  history_of_json (json_of_history h) = Some h.
Proof.
  unfold history_of_json, json_of_history.
  induction h as [|t h IH]; [reflexivity|].
  cbn [map turns_of_json]. rewrite turn_of_json_of_turn, IH. reflexivity.
Qed.

Lemma wellFormed_cons (c : N) (s : jsstring) :
  (c < 55296)%N -> UTF8.wellFormed s = true -> UTF8.wellFormed (c :: s) = true.
Proof.
  intros Hc Hs. change (c :: s) with ([c] ++ s).
  apply UTF8Facts.wellFormed_app; [|exact Hs].
  apply UTF8Facts.wellFormed_plain. repeat constructor. exact Hc.
Qed.

Ltac well_formed :=
  repeat first
    [ apply wellFormed_cons; [lia|]
    | apply UTF8Facts.wellFormed_quoteBody; assumption
    | apply UTF8Facts.wellFormed_app
    | reflexivity ].

Lemma wellFormed_turnText (t : Turn) :
  isString (content t) -> UTF8.wellFormed (turnText t) = true.
Proof.
  intros Hc. rewrite turnText_eq. destruct t as [[] c]; cbn [role content] in *;
    well_formed.
Qed.

Lemma wellFormed_turns (h : list Turn) (tail : jsstring) :
  Forall (fun t => isString (content t)) h ->
  UTF8.wellFormed tail = true ->
  UTF8.wellFormed (join turnSeparator (map turnText h) ++ tail) = true.
Proof.
  intros Hh Htail. induction Hh as [|t h Ht Hh IH]; [exact Htail|].
  cbn [map join]. destruct (map turnText h) as [|next texts] eqn:Hmap.
  - apply UTF8Facts.wellFormed_app; [apply wellFormed_turnText; exact Ht | exact Htail].
  - rewrite <- !app_assoc. apply UTF8Facts.wellFormed_app;
      [apply wellFormed_turnText; exact Ht|].
    unfold turnSeparator. cbn [app].
    repeat (apply wellFormed_cons; [lia|]). exact IH.
Qed.

(** The snapshot text holds no lone surrogate: they are all escaped. *)
Lemma wellFormed_snapshot (h : list Turn) :
  Forall (fun t => isString (content t)) h ->
  UTF8.wellFormed (snapshot h) = true.
Proof.
  intros Hh. destruct h as [|t h]; [reflexivity|].
  rewrite snapshot_cons. repeat (apply wellFormed_cons; [lia|]).
  apply wellFormed_turns; [exact Hh | reflexivity].
Qed.

(** C5. Restoring the persisted snapshot of a conversation gives back
    the same Turns in the same order: for every sequence [h] of Turns
    (whose contents are strings of 16-bit code units), the bytes written
    to the snapshot file, read back, decoded and parsed, are [h]. *)
Theorem restore_snapshot (h : list Turn) :
  Forall (fun t => isString (content t)) h ->
  restore (snapshotFile h) = Some h.
Proof.
  intros Hh. unfold restore, snapshotFile.
  rewrite UTF8Facts.decode_encode by (apply wellFormed_snapshot; exact Hh).
  rewrite parse_snapshot. apply history_of_json_of_history.
Qed.

Lemma restore_snapshot_witness :
  restore (snapshotFile Samples.conversation) = Some Samples.conversation.
Proof.
  apply restore_snapshot. unfold Samples.conversation, isString.
  repeat constructor; cbn; lia.
Defined.

End StoreFacts.

(** ** The agent loop *)

Module BexFacts.
Import Store Bex Laws.

(** Unfolds the effect monad down to case analyses on outcomes. *)
Ltac run_monad :=
  cbv beta iota delta
    [bind ret get modify throw try_catch await awaitOrThrow push persist
     processExit outOfFuel].

Section Loop.

Variable w : World.
Variable call : Command -> list jsstring -> M unit.

Lemma taskRequest_push (s : State) (r : Role) (text : jsstring) :
  taskRequest (with_history (history s ++ [{| role := r; content := text |}]) s)
  = Some {| g_history := map geminiContent (history s);
            g_parts := [TextPart (g_text (geminiContent {| role := r; content := text |}))] |}.
Proof.
  unfold taskRequest. cbn [history with_history].
  rewrite rev_unit, removelast_last. reflexivity.
Qed.

Lemma taskRequest_nonempty (s : State) :
  history s <> [] -> exists request, taskRequest s = Some request.
Proof.
  intros Hne. unfold taskRequest. destruct (rev (history s)) eqn:Hrev.
  - apply (f_equal (@rev Turn)) in Hrev. rewrite rev_involutive in Hrev.
    contradiction.
  - eexists. reflexivity.
Qed.

(** The provider call of a step, when it goes to Gemini. *)
Lemma taskResponse_gemini (s : State) (request : GeminiRequest) :
  toDeepSeek w s = false -> geminiModel w = true ->
  taskRequest s = Some request ->
  taskResponse w s =
  match sendMessage w (clock s) request with
  | Ok text => Return (Some text) (tick (record (CallGemini request) s))
  | Err e => Throw e (tick (record (CallGemini request) s))
  end.
Proof.
  intros Hto Hg Hreq. unfold taskResponse. run_monad.
  rewrite Hto, Hg, Hreq. cbn [negb clock record].
  destruct (sendMessage w (clock s) request); reflexivity.
Qed.

(** The provider call of a step, when it goes to DeepSeek. *)
Lemma taskResponse_deepseek (s : State) :
  toDeepSeek w s = true -> deepseekClient w = true ->
  taskResponse w s =
  match createCompletion w (clock s) (taskMessages w s) with
  | Ok answer => Return answer (tick (record (CallDeepSeek (taskMessages w s)) s))
  | Err e => Throw e (tick (record (CallDeepSeek (taskMessages w s)) s))
  end.
Proof.
  intros Hto Hd. unfold taskResponse. run_monad.
  rewrite Hto, Hd. cbn [negb clock record].
  destruct (createCompletion w (clock s) (taskMessages w s)); reflexivity.
Qed.

Lemma agentStep_eq (s : State) :
  agentStep w call s =
  match taskResponse w s with
  | Return (Some text) s1 =>
      match act call text s1 with
      | Throw e s2 => Return (Break (ABORTED e)) s2
      | r => r
      end
  | Return None s1 => Return (Break (ABORTED msg_response_null)) s1
  | Throw e s1 => Return (Break (ABORTED e)) s1
  | Exit s1 => Exit s1
  | OutOfFuel => OutOfFuel
  end.
Proof.
  unfold agentStep. run_monad.
  destruct (taskResponse w s) as [[text|] s1 | e s1 | s1 |]; reflexivity.
Qed.

Lemma agentLoop_S (remaining steps : nat) (s : State) :
  agentLoop w call (S remaining) steps s =
  match agentStep w call s with
  | Return Continue s' => agentLoop w call remaining (S steps) s'
  | Return (Break t) s' => Return (t, S steps) s'
  | Throw e s' => Throw e s'
  | Exit s' => Exit s'
  | OutOfFuel => OutOfFuel
  end.
Proof.
  cbn [agentLoop]. run_monad.
  destruct (agentStep w call s) as [[|t] s' | e s' | s' |]; reflexivity.
Qed.

Lemma act_done (text : jsstring) (s : State) :
  isDone (trim text) = true ->
  act call text s =
  Return (Break DONE)
    (with_history (history s ++ [{| role := model; content := trim text |}]) s).
Proof. intros Hdone. unfold act. run_monad. rewrite Hdone. reflexivity. Qed.

(** C7 (amended). Whatever the step bound, 3 or the 20 of the source,
    when the first provider call answers the completion token (in any
    letter case, white space around it) the loop is DONE after exactly
    one STEP and has appended exactly one model Turn, the trimmed
    answer, after the user Turn of START. *)
Theorem task_done_first (bound : nat) (goal : jsstring) (s : State) (text : jsstring) :
  1 <= bound ->
  firstAnswer w s text ->
  isDone (trim text) = true ->
  exists s',
    runTask w call bound goal s = Return (DONE, 1) s'
    /\ history s' = history s ++ [{| role := user; content := taskPrompt goal |};
                                  {| role := model; content := trim text |}]
    /\ countRole model (history s') = countRole model (history s) + 1.
Proof.
  intros Hb Hfirst Hdone. destruct bound as [|b]; [lia|].
  unfold runTask, bind at 1, push, modify.
  rewrite agentLoop_S, agentStep_eq.
  set (s1 := with_history _ s).
  assert (Hhist : forall s2, history s2 = history s1 ->
            history (with_history (history s2 ++ [{| role := model; content := trim text |}]) s2)
            = history s ++ [{| role := user; content := taskPrompt goal |};
                            {| role := model; content := trim text |}]).
  { intros s2 ->. cbn [history with_history s1]. unfold s1. cbn [history with_history].
    rewrite <- app_assoc. reflexivity. }
  assert (Hcount : forall h, h = history s ++ [{| role := user; content := taskPrompt goal |};
                            {| role := model; content := trim text |}] ->
            countRole model h = countRole model (history s) + 1).
  { intros h ->. unfold countRole. rewrite filter_app, length_app. cbn. lia. }
  destruct Hfirst as [(Hto & Hg & Hans) | (Hto & Hd & Hans)].
  - rewrite (taskResponse_gemini s1 _ Hto Hg (taskRequest_push s user (taskPrompt goal))).
    cbn [clock with_history s1]. unfold s1. cbn [clock with_history]. rewrite Hans.
    rewrite act_done by assumption.
    eexists. split; [reflexivity|]. split; [|apply Hcount]; apply Hhist; reflexivity.
  - rewrite (taskResponse_deepseek s1 Hto Hd).
    unfold s1 at 1. cbn [clock with_history]. rewrite Hans.
    rewrite act_done by assumption.
    eexists. split; [reflexivity|]. split; [|apply Hcount]; apply Hhist; reflexivity.
Qed.

(** Whatever the world and the handlers do, a run that returns began
    no more STEPs than it was allowed, and it reports MAX_STEPS_REACHED
    only after all of them. *)
Lemma agentLoop_bounded (remaining : nat) :
  forall steps s t n s',
    agentLoop w call remaining steps s = Return (t, n) s' ->
    n <= steps + remaining
    /\ (t = MAX_STEPS_REACHED -> n = steps + remaining).
Proof.
  induction remaining as [|r IH]; intros steps s t n s' Hrun.
  - injection Hrun as <- <- <-. split; [lia | intros _; lia].
  - rewrite agentLoop_S in Hrun.
    destruct (agentStep w call s) as [[|t0] s1 | e s1 | s1 |] eqn:Hstep;
      try discriminate.
    + apply IH in Hrun. split; [lia | intros Ht; apply Hrun in Ht; lia].
    + injection Hrun as <- <- <-. split; [lia|]. intros ->.
      rewrite agentStep_eq in Hstep.
      destruct (taskResponse w s) as [[text|] s2 | e s2 | s2 |]; try discriminate.
      unfold act in Hstep. revert Hstep. run_monad.
      destruct (isDone (trim text)); [discriminate|].
      destruct (startsWith (trim text) (lit "/")); [|discriminate].
      destruct (commands (hd [] (split1 32%N (trim text)))) as [c|]; [|discriminate].
      destruct (call c _ _); discriminate.
Qed.

(** *** Counting Turns and provider requests *)

Lemma countRole_app (r : Role) (h l : list Turn) :
  countRole r (h ++ l) = countRole r h + countRole r l.
Proof. unfold countRole. rewrite filter_app, length_app. reflexivity. Qed.

Lemma countRole_system_only (added : list Turn) :
  Forall (fun t => role t = system) added ->
  countRole model added = 0 /\ countRole user added = 0.
Proof.
  induction 1 as [|t added Ht _ [IHm IHu]]; [split; reflexivity|].
  unfold countRole in *. cbn [filter]. rewrite Ht. split; assumption.
Qed.

Lemma providerCalls_app (l1 l2 : list Event) :
  providerCalls (l1 ++ l2) = providerCalls l1 + providerCalls l2.
Proof. unfold providerCalls. rewrite filter_app, length_app. reflexivity. Qed.

(** What [act] does with an answer that is not the completion token:
    the model Turn, then the dispatch. *)
Lemma act_dispatch (text : jsstring) (s : State) (c : Command) (args : list jsstring) :
  isDone (trim text) = false ->
  dispatched text = Some (c, args) ->
  act call text s =
  match call c args
          (with_history (history s ++ [{| role := model; content := trim text |}]) s) with
  | Return _ s' => Return Continue s'
  | Throw e s' => Throw e s'
  | Exit s' => Exit s'
  | OutOfFuel => OutOfFuel
  end.
Proof.
  intros Hnot Hd. unfold dispatched in Hd. unfold act. run_monad. rewrite Hnot.
  destruct (startsWith (trim text) (lit "/")); [|discriminate].
  destruct (commands (hd [] (split1 32%N (trim text)))) as [c0|]; [|discriminate].
  injection Hd as -> <-. reflexivity.
Qed.

Lemma act_no_dispatch (text : jsstring) (s : State) :
  isDone (trim text) = false ->
  dispatched text = None ->
  exists added,
    act call text s =
    Return Continue
      (with_history (history s ++ {| role := model; content := trim text |} :: added) s)
    /\ Forall (fun t => role t = system) added.
Proof.
  intros Hnot Hd. unfold dispatched in Hd. unfold act. run_monad. rewrite Hnot.
  destruct (startsWith (trim text) (lit "/")).
  - destruct (commands (hd [] (split1 32%N (trim text)))) as [c0|]; [discriminate|].
    exists [{| role := system; content := lit "Unknown command." |}].
    cbn [history with_history]. rewrite <- app_assoc.
    split; [reflexivity | repeat constructor].
  - exists []. split; [reflexivity | constructor].
Qed.

(** What a STEP leaves when its answer is an action the loop
    survives. *)
Lemma act_surviving (text : jsstring) (s : State) :
  surviving call text ->
  exists s' added,
    act call text s = Return Continue s'
    /\ providerCalls (trace s') = providerCalls (trace s)
    /\ history s' = history s ++ {| role := model; content := trim text |} :: added
    /\ Forall (fun t => role t = system) added
    /\ currentProvider s' = currentProvider s.
Proof.
  intros [Hnot Hcall]. destruct (dispatched text) as [[c args]|] eqn:Hd.
  - rewrite (act_dispatch text s c args Hnot Hd).
    destruct (Hcall c args eq_refl) as (Hret & Hquiet & Hmode).
    set (s1 := with_history _ s).
    destruct (Hret s1) as ([] & s' & Hrun). rewrite Hrun.
    destruct (Hquiet s1 s') as (Hcalls & added & Hh & Hsys); [rewrite Hrun; reflexivity|].
    exists s', added. split; [reflexivity|]. split; [exact Hcalls|].
    split; [rewrite Hh; unfold s1; cbn [history with_history];
            rewrite <- app_assoc; reflexivity|].
    split; [exact Hsys|]. apply (Hmode s1 s'). rewrite Hrun. reflexivity.
  - destruct (act_no_dispatch text s Hnot Hd) as (added & -> & Hsys).
    eexists. exists added. repeat split. exact Hsys.
Qed.

Lemma neverDone_mode (s s1 : State) :
  currentProvider s1 = currentProvider s -> neverDone w call s -> neverDone w call s1.
Proof.
  intros Hmode. unfold neverDone, toDeepSeek. rewrite Hmode. auto.
Qed.

Lemma agentStep_surviving (s : State) :
  neverDone w call s ->
  history s <> [] ->
  exists s' text added,
    agentStep w call s = Return Continue s'
    /\ providerCalls (trace s') = providerCalls (trace s) + 1
    /\ history s' = history s ++ {| role := model; content := trim text |} :: added
    /\ Forall (fun t => role t = system) added
    /\ currentProvider s' = currentProvider s.
Proof.
  intros Hnever Hne. rewrite agentStep_eq. unfold neverDone in Hnever.
  destruct (toDeepSeek w s) eqn:Hto; destruct Hnever as [Hready Hanswers].
  - rewrite (taskResponse_deepseek s Hto Hready).
    destruct (Hanswers (clock s) (taskMessages w s)) as (text & -> & Hsurv).
    destruct (act_surviving text (tick (record (CallDeepSeek (taskMessages w s)) s)) Hsurv)
      as (s' & added & -> & Hcalls & Hh & Hsys & Hmode).
    exists s', text, added. split; [reflexivity|].
    split; [rewrite Hcalls; cbn [trace tick record]; rewrite providerCalls_app;
            reflexivity|].
    repeat split; assumption.
  - destruct (taskRequest_nonempty s Hne) as [request Hreq].
    rewrite (taskResponse_gemini s request Hto Hready Hreq).
    destruct (Hanswers (clock s) request) as (text & -> & Hsurv).
    destruct (act_surviving text (tick (record (CallGemini request) s)) Hsurv)
      as (s' & added & -> & Hcalls & Hh & Hsys & Hmode).
    exists s', text, added. split; [reflexivity|].
    split; [rewrite Hcalls; cbn [trace tick record]; rewrite providerCalls_app;
            reflexivity|].
    repeat split; assumption.
Qed.

Lemma agentLoop_exhausts (remaining : nat) :
  forall steps s,
    neverDone w call s ->
    history s <> [] ->
    exists s',
      agentLoop w call remaining steps s
      = Return (MAX_STEPS_REACHED, steps + remaining) s'
      /\ providerCalls (trace s') = providerCalls (trace s) + remaining
      /\ countRole model (history s') = countRole model (history s) + remaining
      /\ countRole user (history s') = countRole user (history s).
Proof.
  induction remaining as [|r IH]; intros steps s Hnever Hne.
  - exists s. rewrite !Nat.add_0_r. repeat split.
  - rewrite agentLoop_S.
    destruct (agentStep_surviving s Hnever Hne)
      as (s1 & text & added & -> & Hcalls & Hh & Hsys & Hmode).
    assert (Hne1 : history s1 <> []).
    { rewrite Hh. intros H. apply app_eq_nil in H. destruct H; discriminate. }
    destruct (IH (S steps) s1 (neverDone_mode s s1 Hmode Hnever) Hne1)
      as (s' & -> & Hcalls' & Hmodel & Huser).
    destruct (countRole_system_only added Hsys) as [Hm0 Hu0].
    exists s'. split; [rewrite Nat.add_succ_r; reflexivity|].
    rewrite Hcalls', Hcalls, Hmodel, Huser, Hh.
    change ({| role := model; content := trim text |} :: added)
      with ([{| role := model; content := trim text |}] ++ added).
    rewrite !countRole_app, Hm0, Hu0. cbn. repeat split; lia.
Qed.

(** C6 (amended). When the backend that the provider mode selects is
    configured and every answer it gives is an action other than the
    completion token whose handler, if it dispatches one, returns,
    makes no provider request of its own, only appends system Turns and
    leaves the provider mode alone, a run with bound [bound] performs
    exactly [bound] STEPs and ends in MAX_STEPS_REACHED by returning,
    nothing being thrown: it has made exactly [bound] provider requests
    and pushed exactly [bound] model Turns, after the one user Turn of
    START. *)
Theorem task_exhausts (bound : nat) (goal : jsstring) (s : State) :
  neverDone w call s ->
  exists s',
    runTask w call bound goal s = Return (MAX_STEPS_REACHED, bound) s'
    /\ providerCalls (trace s') = providerCalls (trace s) + bound
    /\ countRole model (history s') = countRole model (history s) + bound
    /\ countRole user (history s') = countRole user (history s) + 1.
Proof.
  intros Hnever. unfold runTask, bind at 1, push, modify.
  set (s1 := with_history _ s).
  destruct (agentLoop_exhausts bound 0 s1) as (s' & Hrun & Hcalls & Hmodel & Huser).
  - apply (neverDone_mode s s1); [reflexivity | exact Hnever].
  - unfold s1. cbn [history with_history]. intros H. apply app_eq_nil in H.
    destruct H; discriminate.
  - exists s'. split; [exact Hrun|]. rewrite Hcalls, Hmodel, Huser.
    unfold s1. cbn [history with_history trace]. rewrite !countRole_app. cbn.
    repeat split; lia.
Qed.

End Loop.
End BexFacts.

(** ** Confirmation questions *)

Module ConfirmationFacts.
Import Store Bex BexFacts Laws.

Lemma keeps_ret {A} (a : A) : keeps (ret a).
Proof. intros s s' H. injection H as <-. reflexivity. Qed.

Lemma keeps_throw {A} (e : jsstring) : keeps (@throw A e).
Proof. intros s s' H. injection H as <-. reflexivity. Qed.

Lemma keeps_get : keeps get.
Proof. intros s s' H. injection H as <-. reflexivity. Qed.

Lemma keeps_exit {A} : keeps (@processExit A).
Proof. intros s s' H. injection H as <-. reflexivity. Qed.

Lemma keeps_outOfFuel {A} : keeps (@outOfFuel A).
Proof. intros s s' H. discriminate. Qed.

Lemma keeps_never {A} : keeps (@never A).
Proof. intros s s' H. discriminate. Qed.

Lemma keeps_modify (f : State -> State) :
  (forall s, confirmations (f s) = confirmations s) -> keeps (modify f).
Proof. intros Hf s s' H. injection H as <-. apply Hf. Qed.

Lemma keeps_bind {A B} (m : M A) (k : A -> M B) :
  keeps m -> (forall a, keeps (k a)) -> keeps (bind m k).
Proof.
  intros Hm Hk s s' H. unfold bind in H.
  destruct (m s) as [a s1 | e s1 | s1 |] eqn:Hms.
  - rewrite (Hk a s1 s' H). apply Hm. rewrite Hms. reflexivity.
  - injection H as <-. apply Hm. rewrite Hms. reflexivity.
  - injection H as <-. apply Hm. rewrite Hms. reflexivity.
  - discriminate.
Qed.

Lemma keeps_try_catch {A} (m : M A) (handler : jsstring -> M A) :
  keeps m -> (forall e, keeps (handler e)) -> keeps (try_catch m handler).
Proof.
  intros Hm Hh s s' H. unfold try_catch in H.
  destruct (m s) as [a s1 | e s1 | s1 |] eqn:Hms.
  - injection H as <-. apply Hm. rewrite Hms. reflexivity.
  - rewrite (Hh e s1 s' H). apply Hm. rewrite Hms. reflexivity.
  - injection H as <-. apply Hm. rewrite Hms. reflexivity.
  - discriminate.
Qed.

Lemma keeps_await {A} (oracle : nat -> Result A) : keeps (await oracle).
Proof.
  unfold await. apply keeps_bind; [apply keeps_get | intros s0].
  apply keeps_bind; [apply keeps_modify; reflexivity | intros _; apply keeps_ret].
Qed.

Lemma keeps_awaitOrThrow {A} (oracle : nat -> Result A) : keeps (awaitOrThrow oracle).
Proof.
  unfold awaitOrThrow. apply keeps_bind; [apply keeps_await | intros [a|e]].
  - apply keeps_ret.
  - apply keeps_throw.
Qed.

Lemma keeps_push (r : Role) (text : jsstring) : keeps (push r text).
Proof. apply keeps_modify. reflexivity. Qed.

Lemma keeps_forEach {A} (l : list A) (body : A -> M unit) :
  (forall x, keeps (body x)) -> keeps (forEach l body).
Proof.
  intros Hb. induction l as [|x l IH]; cbn [forEach].
  - apply keeps_ret.
  - apply keeps_bind; [apply Hb | intros _; exact IH].
Qed.

(** Walks through a handler built from the pieces above. *)
Ltac keeps_step :=
  first
    [ apply keeps_ret | apply keeps_throw | apply keeps_get | apply keeps_exit
    | apply keeps_never | apply keeps_push | apply keeps_await | apply keeps_awaitOrThrow
    | apply keeps_modify; intros; reflexivity
    | apply keeps_bind; [|intros]
    | apply keeps_try_catch; [|intros]
    | apply keeps_forEach; intros
    | match goal with
      | |- keeps (if ?b then _ else _) => destruct b
      | |- keeps (match ?x with _ => _ end) => destruct x
      | |- keeps (let (_, _) := ?x in _) => destruct x
      end ].

Ltac keeps_auto := repeat keeps_step.

Lemma keeps_run_plain (w : World) (fuel : nat) (c : Command) (args : list jsstring) :
  plain c = true -> keeps (run w fuel c args).
Proof.
  intros Hc. destruct fuel as [|fuel]; [apply keeps_outOfFuel|].
  cbn [run]. apply keeps_bind; [apply keeps_modify; reflexivity | intros _].
  destruct c; try discriminate Hc;
    unfold cmd_quit, cmd_clear, cmd_provider, cmd_ls, cmd_read, cmd_write,
      cmd_append, cmd_rename, cmd_save, cmd_download, cmd_image, cmd_sandbox,
      cmd_exec, cmd_auto, cmd_browser, cmd_url, cmd_open, cmd_visit, cmd_click,
      cmd_type, cmd_dump, cmd_screenshot, cmd_mcp_add, cmd_mcp_tools,
      cmd_mcp_call, cmd_multiline, cmd_persistent, cmd_grep, cmd_glob, cmd_git,
      cmd_project, cmd_memory;
    keeps_auto.
Qed.

Lemma keeps_run_google (w : World) (fuel : nat) (args : list jsstring) :
  keeps (run w fuel Google args).
Proof.
  destruct fuel as [|fuel]; [apply keeps_outOfFuel|].
  cbn [run]. apply keeps_bind; [apply keeps_modify; reflexivity | intros _].
  unfold cmd_google. keeps_auto; apply keeps_run_plain; reflexivity.
Qed.

(** *** Questions are opened through the delete handler only *)

Lemma through_silent {A} (m : M A) :
  (forall s s', finalState (m s) = Some s' ->
                trace s' = trace s /\ confirmations s' = confirmations s) ->
  asksThroughDelete m.
Proof.
  intros Hm s s' H. destruct (Hm s s' H) as [Ht Hc].
  exists []. rewrite app_nil_r. split; [exact Ht | intros _; exact Hc].
Qed.

Lemma through_ret {A} (a : A) : asksThroughDelete (ret a).
Proof. apply through_silent. intros s s' H. injection H as <-. split; reflexivity. Qed.

Lemma through_throw {A} (e : jsstring) : asksThroughDelete (@throw A e).
Proof. apply through_silent. intros s s' H. injection H as <-. split; reflexivity. Qed.

Lemma through_get : asksThroughDelete get.
Proof. apply through_silent. intros s s' H. injection H as <-. split; reflexivity. Qed.

Lemma through_exit {A} : asksThroughDelete (@processExit A).
Proof. apply through_silent. intros s s' H. injection H as <-. split; reflexivity. Qed.

Lemma through_outOfFuel {A} : asksThroughDelete (@outOfFuel A).
Proof. intros s s' H. discriminate. Qed.

Lemma through_never {A} : asksThroughDelete (@never A).
Proof. intros s s' H. discriminate. Qed.

Lemma through_modify (f : State -> State) :
  (forall s, confirmations (f s) = confirmations s) ->
  (forall s, exists events, trace (f s) = trace s ++ events) ->
  asksThroughDelete (modify f).
Proof.
  intros Hc Ht s s' H. injection H as <-. destruct (Ht s) as [events Hev].
  exists events. split; [exact Hev | intros _; apply Hc].
Qed.

Lemma through_bind {A B} (m : M A) (k : A -> M B) :
  asksThroughDelete m -> (forall a, asksThroughDelete (k a)) ->
  asksThroughDelete (bind m k).
Proof.
  intros Hm Hk s s' H. unfold bind in H.
  destruct (m s) as [a s1 | e s1 | s1 |] eqn:Hms.
  - destruct (Hm s s1) as (ev1 & Ht1 & Hc1); [rewrite Hms; reflexivity|].
    destruct (Hk a s1 s' H) as (ev2 & Ht2 & Hc2).
    exists (ev1 ++ ev2). rewrite Ht2, Ht1, app_assoc. split; [reflexivity|].
    rewrite existsb_app. intros Hno. apply orb_false_iff in Hno.
    destruct Hno as [Hno1 Hno2]. rewrite (Hc2 Hno2). exact (Hc1 Hno1).
  - apply (Hm s s'). rewrite Hms. exact H.
  - apply (Hm s s'). rewrite Hms. exact H.
  - discriminate.
Qed.

Lemma through_try_catch {A} (m : M A) (handler : jsstring -> M A) :
  asksThroughDelete m -> (forall e, asksThroughDelete (handler e)) ->
  asksThroughDelete (try_catch m handler).
Proof.
  intros Hm Hh s s' H. unfold try_catch in H.
  destruct (m s) as [a s1 | e s1 | s1 |] eqn:Hms.
  - apply (Hm s s'). rewrite Hms. exact H.
  - destruct (Hm s s1) as (ev1 & Ht1 & Hc1); [rewrite Hms; reflexivity|].
    destruct (Hh e s1 s' H) as (ev2 & Ht2 & Hc2).
    exists (ev1 ++ ev2). rewrite Ht2, Ht1, app_assoc. split; [reflexivity|].
    rewrite existsb_app. intros Hno. apply orb_false_iff in Hno.
    destruct Hno as [Hno1 Hno2]. rewrite (Hc2 Hno2). exact (Hc1 Hno1).
  - apply (Hm s s'). rewrite Hms. exact H.
  - discriminate.
Qed.

Lemma through_await {A} (oracle : nat -> Result A) : asksThroughDelete (await oracle).
Proof.
  apply through_silent. intros s s' H. injection H as <-. split; reflexivity.
Qed.

Lemma through_awaitOrThrow {A} (oracle : nat -> Result A) :
  asksThroughDelete (awaitOrThrow oracle).
Proof.
  unfold awaitOrThrow. apply through_bind; [apply through_await | intros [a|e]].
  - apply through_ret.
  - apply through_throw.
Qed.

Lemma through_forEach {A} (l : list A) (body : A -> M unit) :
  (forall x, asksThroughDelete (body x)) -> asksThroughDelete (forEach l body).
Proof.
  intros Hb. induction l as [|x l IH]; cbn [forEach].
  - apply through_ret.
  - apply through_bind; [apply Hb | intros _; exact IH].
Qed.

Ltac through_step :=
  first
    [ apply through_ret | apply through_throw | apply through_get | apply through_exit
    | apply through_never | apply through_outOfFuel
    | apply through_await | apply through_awaitOrThrow
    | apply through_modify;
      [ intros; reflexivity
      | intros; first [ exists []; rewrite app_nil_r; reflexivity
                      | eexists; reflexivity ] ]
    | apply through_bind; [|intros]
    | apply through_try_catch; [|intros]
    | apply through_forEach; intros
    | progress cbv beta zeta
    | match goal with
      | |- asksThroughDelete (if ?b then _ else _) => destruct b
      | |- asksThroughDelete (match ?x with _ => _ end) => destruct x
      | |- asksThroughDelete (let (_, _) := ?x in _) => destruct x
      end
    | assumption ].

Ltac through_auto := repeat through_step.

Section Dispatch.

Variable w : World.
Variable call : Command -> list jsstring -> M unit.
Variable input : jsstring -> bool -> M unit.
Hypothesis through_call : forall c args, asksThroughDelete (call c args).
Hypothesis through_input : forall line sys, asksThroughDelete (input line sys).

Lemma through_agentLoop (remaining : nat) :
  forall steps, asksThroughDelete (agentLoop w call remaining steps).
Proof.
  induction remaining as [|r IH]; intros steps; cbn [agentLoop].
  - apply through_ret.
  - apply through_bind.
    + unfold agentStep, taskResponse, act, push. through_auto; apply through_call.
    + intros [|t]; [apply IH | apply through_ret].
Qed.

Lemma through_task (args : list jsstring) : asksThroughDelete (cmd_task w call args).
Proof.
  unfold cmd_task, runTask, push.
  apply through_bind; [|intros; apply through_ret].
  apply through_bind; [|intros; apply through_agentLoop].
  apply through_modify; [intros; reflexivity | intros; exists []].
  rewrite app_nil_r. reflexivity.
Qed.

Lemma through_google (args : list jsstring) : asksThroughDelete (cmd_google w call args).
Proof. unfold cmd_google. through_auto; apply through_call. Qed.

Lemma through_workflow (args : list jsstring) :
  asksThroughDelete (cmd_workflow w input args).
Proof. unfold cmd_workflow. through_auto; apply through_input. Qed.

Lemma through_handleInputBody (line : jsstring) (sys : bool) :
  asksThroughDelete (handleInputBody w call input line sys).
Proof.
  unfold handleInputBody, chat, exchange, gateway, callGoogle, callDeepSeek, runPlan,
    setBuffer, push, persist.
  through_auto; first [apply through_call | apply through_input].
Qed.

End Dispatch.

(** The delete handler is entered with its invocation on the trace. *)
Lemma through_delete (w : World) (fuel : nat) (args : list jsstring) :
  asksThroughDelete (run w (S fuel) Delete args).
Proof.
  intros s s' H. cbn [run] in H. unfold cmd_delete in H. revert H. run_monad.
  destruct (truthy (arg 0 args)); cbn [negb]; cbv beta iota; cbn [clock record].
  - destruct (effect w (clock s) (Access (show (arg 0 args)))); intros H;
      injection H as <-; eexists;
      (split; [cbn [trace tick record with_confirmations]; try rewrite <- app_assoc;
               reflexivity
              |cbn [existsb isDeleteCall app orb]; discriminate]).
  - intros H. injection H as <-. eexists.
    split; [reflexivity | cbn [existsb isDeleteCall orb]; discriminate].
Qed.

Lemma through_program (w : World) (fuel : nat) :
  (forall c args, asksThroughDelete (run w fuel c args))
  /\ (forall line sys, asksThroughDelete (handleInput w fuel line sys)).
Proof.
  induction fuel as [|fuel [IHrun IHinput]].
  - split; intros; apply through_outOfFuel.
  - split.
    + intros c args.
      destruct c;
        try (apply through_delete);
        cbn [run];
        (apply through_bind;
         [apply through_modify;
          [intros; reflexivity | intros; eexists; reflexivity]
         | intros _]);
        try apply through_ret;
        try (apply through_task; exact IHrun);
        try (apply through_google; exact IHrun);
        try (apply through_workflow; exact IHinput);
        unfold cmd_quit, cmd_clear, cmd_provider, cmd_ls, cmd_read, cmd_write,
          cmd_append, cmd_rename, cmd_save, cmd_download, cmd_image, cmd_sandbox,
          cmd_exec, cmd_auto, cmd_browser, cmd_url, cmd_open, cmd_visit, cmd_click,
          cmd_type, cmd_dump, cmd_screenshot, cmd_mcp_add, cmd_mcp_tools,
          cmd_mcp_call, cmd_multiline, cmd_persistent, cmd_grep, cmd_glob, cmd_git,
          cmd_project, cmd_memory, push;
        through_auto.
    + intros line sys. cbn [handleInput].
      apply through_handleInputBody; assumption.
Qed.

(** C1 (amended). Of the forty commands that the dispatch of a STEP can
    reach, only [/delete] asks the operator for confirmation.  Every
    handler other than those of [/delete], [/task] and [/workflow]
    leaves the pending questions as it found them, whatever the world
    answers and however it ends.  And whatever is run, [/task] and
    [/workflow] with all that they dispatch in turn included, a question
    is opened only when the delete handler is invoked on the way: a run
    whose new events hold no invocation of [/delete] leaves the pending
    questions as it found them. *)
Theorem only_delete_asks (w : World) (fuel : nat) (c : Command) (args : list jsstring) :
  (c <> Delete -> c <> Task -> c <> Workflow -> keeps (run w fuel c args))
  /\ (forall s s',
        finalState (run w fuel c args s) = Some s' ->
        existsb isDeleteCall (newEvents s s') = false ->
        confirmations s' = confirmations s).
Proof.
  split.
  - intros Hd Ht Hw.
    destruct c; try contradiction;
      first [apply keeps_run_plain; reflexivity | apply keeps_run_google].
  - intros s s' H Hno.
    destruct (proj1 (through_program w fuel) c args s s' H) as (events & Ht & Hc).
    apply Hc. unfold newEvents in Hno. rewrite Ht in Hno.
    rewrite skipn_app, Nat.sub_diag, skipn_all in Hno. exact Hno.
Qed.

Lemma only_delete_asks_witness :
  keeps (run Samples.listing 1 Ls [lit "."])
  /\ exists s',
       finalState (run Samples.finishing 2 Task [lit "tidy"; lit "up"] initial) = Some s'
       /\ confirmations s' = confirmations initial.
Proof.
  split.
  - apply (proj1 (only_delete_asks Samples.listing 1 Ls [lit "."])); discriminate.
  - eexists. split; [vm_compute; reflexivity|].
    apply (proj2 (only_delete_asks Samples.finishing 2 Task [lit "tidy"; lit "up"]) initial);
      [vm_compute; reflexivity | vm_compute; reflexivity].
Defined.

End ConfirmationFacts.

(** ** The provider gateway and the context windows *)

Module GatewayFacts.
Import Store Bex BexFacts Samples.

Section Gateway.

Variable w : World.

Lemma callGoogle_eq (line : jsstring) (isSystemPrompt : bool) (s : State) :
  geminiModel w = true ->
  callGoogle w line isSystemPrompt s =
  let request := chatRequest line isSystemPrompt s in
  let s' := tick (record (CallGemini request)
                    (match pendingImage s with
                     | Some _ => with_pendingImage None s
                     | None => s
                     end)) in
  match sendMessage w (clock s) request with
  | Ok text => Return text s'
  | Err e => Throw e s'
  end.
Proof.
  intros Hg. unfold callGoogle. rewrite Hg. cbn [negb]. run_monad.
  destruct (pendingImage s) as [image|]; cbn [clock record with_pendingImage];
    destruct (sendMessage w (clock s) (chatRequest line isSystemPrompt s)); reflexivity.
Qed.

Lemma callDeepSeek_eq (line : jsstring) (isSystemPrompt : bool) (s : State) :
  deepseekClient w = true ->
  callDeepSeek w line isSystemPrompt s =
  let messages := chatMessages w line isSystemPrompt s in
  match createCompletion w (clock s) messages with
  | Ok answer => Return answer (tick (record (CallDeepSeek messages) s))
  | Err e => Throw e (tick (record (CallDeepSeek messages) s))
  end.
Proof.
  intros Hd. unfold callDeepSeek. rewrite Hd. cbn [negb]. run_monad.
  cbn [clock record].
  destruct (createCompletion w (clock s) (chatMessages w line isSystemPrompt s));
    reflexivity.
Qed.

(** A call that never builds a request keeps the image: no Gemini
    client, or the DeepSeek backend. *)
Lemma pendingImage_kept_without_client (line : jsstring) (isSystemPrompt : bool)
    (s : State) :
  geminiModel w = false ->
  callGoogle w line isSystemPrompt s = Throw msg_google_key s.
Proof. intros Hg. unfold callGoogle. rewrite Hg. reflexivity. Qed.

Lemma pendingImage_kept_by_deepseek (line : jsstring) (isSystemPrompt : bool)
    (s s' : State) :
  finalState (callDeepSeek w line isSystemPrompt s) = Some s' ->
  pendingImage s' = pendingImage s.
Proof.
  unfold callDeepSeek. destruct (deepseekClient w); cbn [negb].
  - run_monad. cbn [clock record].
    destruct (createCompletion w (clock s) (chatMessages w line isSystemPrompt s));
      intros H; injection H as <-; reflexivity.
  - intros H. injection H as <-. reflexivity.
Qed.

(** The Gemini request of a loop STEP carries one text part, and the
    provider call of a STEP leaves the pending image alone. *)
Lemma taskRequest_text_only (s : State) (request : GeminiRequest) :
  taskRequest s = Some request -> exists text, g_parts request = [TextPart text].
Proof.
  unfold taskRequest. destruct (rev (history s)) as [|lastMsg rest]; [discriminate|].
  intros H. injection H as <-. eexists. reflexivity.
Qed.

Lemma taskResponse_keeps_image (s s' : State) :
  finalState (taskResponse w s) = Some s' -> pendingImage s' = pendingImage s.
Proof.
  unfold taskResponse. run_monad.
  destruct (toDeepSeek w s).
  - destruct (deepseekClient w); cbn [negb].
    + cbn [clock record].
      destruct (createCompletion w (clock s) (taskMessages w s));
        intros H; injection H as <-; reflexivity.
    + intros H; injection H as <-; reflexivity.
  - destruct (geminiModel w); cbn [negb].
    + destruct (taskRequest s) as [request|].
      * cbn [clock record].
        destruct (sendMessage w (clock s) request);
          intros H; injection H as <-; reflexivity.
      * intros H; injection H as <-; reflexivity.
    + intros H; injection H as <-; reflexivity.
Qed.

(** C4 (amended). In the chat path the pending image goes into the
    parts of the Gemini request and is cleared as it is attached,
    before the request is sent: once that request has been sent
    [pendingImage] is [null], whether the call succeeded or threw.  No
    other provider call sends the image or clears it: a chat call
    without a Gemini client, a DeepSeek call, and the provider call of a
    loop STEP, whose Gemini request carries one text part only. *)
Theorem pendingImage_consumed_when_attached
    (line : jsstring) (isSystemPrompt : bool) (s : State) :
  (forall image,
      geminiModel w = true ->
      pendingImage s = Some image ->
      exists s',
        g_parts (chatRequest line isSystemPrompt s) = [TextPart line; ImagePart image]
        /\ pendingImage s' = None
        /\ callGoogle w line isSystemPrompt s =
           match sendMessage w (clock s) (chatRequest line isSystemPrompt s) with
           | Ok text => Return text s'
           | Err e => Throw e s'
           end)
  /\ (geminiModel w = false ->
      callGoogle w line isSystemPrompt s = Throw msg_google_key s)
  /\ (forall s',
        finalState (callDeepSeek w line isSystemPrompt s) = Some s' ->
        pendingImage s' = pendingImage s)
  /\ (forall request,
        taskRequest s = Some request -> exists text, g_parts request = [TextPart text])
  /\ (forall s',
        finalState (taskResponse w s) = Some s' -> pendingImage s' = pendingImage s).
Proof.
  split; [|split; [|split; [|split]]].
  - intros image Hg Himg. rewrite (callGoogle_eq line isSystemPrompt s Hg).
    cbv zeta. unfold chatRequest at 1. cbn [g_parts]. rewrite Himg.
    eexists. split; [reflexivity|]. split; [|reflexivity]. reflexivity.
  - apply pendingImage_kept_without_client.
  - apply pendingImage_kept_by_deepseek.
  - apply taskRequest_text_only.
  - apply taskResponse_keeps_image.
Qed.

(** In automatic mode the chat path falls back: when the Gemini call
    throws, the DeepSeek call is made in the same request and its
    outcome is the outcome of the gateway. *)
Lemma gateway_falls_back (line : jsstring) (isSystemPrompt : bool) (s : State)
    (e : jsstring) :
  currentProvider s = auto -> geminiModel w = true ->
  sendMessage w (clock s) (chatRequest line isSystemPrompt s) = Err e ->
  exists s1,
    callGoogle w line isSystemPrompt s = Throw e s1
    /\ gateway w line isSystemPrompt s = callDeepSeek w line isSystemPrompt s1.
Proof.
  intros Hauto Hg Hfail. unfold gateway. run_monad. rewrite Hauto.
  rewrite (callGoogle_eq line isSystemPrompt s Hg). cbv zeta. rewrite Hfail.
  eexists. split; [reflexivity|].
  destruct (pendingImage s); cbn [currentProvider tick record with_pendingImage];
    rewrite Hauto; reflexivity.
Qed.

(** After the chat path has pushed a model Turn the snapshot file holds
    the whole history. *)
Lemma exchange_persists (line : jsstring) (isSystemPrompt : bool)
    (s s' : State) (text : jsstring) :
  exchange w line isSystemPrompt s = Return text s' ->
  memoryFile s' = Some (snapshotFile (history s'))
  /\ exists h, history s' = h ++ [{| role := model; content := text |}].
Proof.
  unfold exchange. run_monad.
  destruct (gateway w line isSystemPrompt s) as [[answer|] s1 | e s1 | s1 |];
    try discriminate.
  intros H. injection H as <- <-. cbn [memoryFile history with_memoryFile with_history].
  split; [reflexivity | eexists; reflexivity].
Qed.

End Gateway.

(** C8 (amended). In every Gemini request, of the chat path and of the
    agent loop alike, a system Turn of the history is shown to the
    model at its place, under the user role and with [SYSTEM INFO: ]
    before its content. *)
Theorem gemini_window_marks_system (s : State) (i : nat) (t : Turn) :
  nth_error (history s) i = Some t ->
  role t = system ->
  let marked := {| g_role := g_user; g_text := lit "SYSTEM INFO: " ++ content t |} in
  (forall line,
      nth_error
        (geminiWindow
           (chatRequest line false
              (with_history (history s ++ [{| role := user; content := line |}]) s))) i
      = Some marked)
  /\ (forall line, nth_error (geminiWindow (chatRequest line true s)) i = Some marked)
  /\ (forall request,
        taskRequest s = Some request ->
        nth_error (geminiWindow request) i = Some marked).
Proof.
  intros Hnth Hrole marked.
  assert (Hmark : geminiContent t = marked).
  { unfold geminiContent, marked. rewrite Hrole. reflexivity. }
  assert (Hmap : nth_error (map geminiContent (history s)) i = Some marked).
  { rewrite nth_error_map, Hnth. cbn. rewrite Hmark. reflexivity. }
  assert (Hlt : i < List.length (map geminiContent (history s))).
  { apply nth_error_Some. rewrite Hmap. discriminate. }
  split; [|split].
  - intros line. unfold geminiWindow, chatRequest. cbn [g_history g_parts history with_history].
    rewrite removelast_last, nth_error_app1 by assumption. exact Hmap.
  - intros line. unfold geminiWindow, chatRequest. cbn [g_history g_parts].
    rewrite nth_error_app1 by assumption. exact Hmap.
  - intros request Hreq. unfold taskRequest in Hreq.
    destruct (rev (history s)) as [|lastMsg rest] eqn:Hrev; [discriminate|].
    injection Hreq as <-. unfold geminiWindow. cbn [g_history g_parts].
    assert (Hh : history s = rev rest ++ [lastMsg]).
    { rewrite <- (rev_involutive (history s)), Hrev. reflexivity. }
    rewrite Hh in Hnth |- *. rewrite removelast_last.
    destruct (Nat.lt_ge_cases i (List.length (rev rest))) as [Hi|Hi].
    + rewrite nth_error_app1 in Hnth by assumption.
      rewrite nth_error_app1 by (rewrite length_map; assumption).
      rewrite nth_error_map, Hnth. cbn. rewrite Hmark. reflexivity.
    + rewrite nth_error_app2 in Hnth by assumption.
      rewrite nth_error_app2 by (rewrite length_map; assumption).
      rewrite length_map.
      destruct (i - List.length (rev rest)) as [|k]; cbn [nth_error] in Hnth |- *.
      * injection Hnth as ->. rewrite Hrole. reflexivity.
      * destruct k; discriminate.
Qed.

Lemma gemini_window_marks_system_witness :
  let marked := {| g_role := g_user;
                   g_text := lit "SYSTEM INFO: Output of /ls .: index.js, notes.txt" |} in
  (forall line,
      nth_error
        (geminiWindow
           (chatRequest line false
              (with_history (history afterLs ++ [{| role := user; content := line |}])
                 afterLs))) 2
      = Some marked)
  /\ (forall line, nth_error (geminiWindow (chatRequest line true afterLs)) 2 = Some marked)
  /\ (forall request,
        taskRequest afterLs = Some request ->
        nth_error (geminiWindow request) 2 = Some marked).
Proof.
  exact (gemini_window_marks_system afterLs 2
           {| role := system; content := lit "Output of /ls .: index.js, notes.txt" |}
           eq_refl eq_refl).
Defined.

Lemma pendingImage_consumed_when_attached_witness :
  (exists s',
      g_parts (chatRequest (lit "describe this") false withPhoto)
      = [TextPart (lit "describe this"); ImagePart photo]
      /\ pendingImage s' = None
      /\ callGoogle offline (lit "describe this") false withPhoto =
         match sendMessage offline (clock withPhoto)
                 (chatRequest (lit "describe this") false withPhoto) with
         | Ok text => Return text s'
         | Err e => Throw e s'
         end)
  /\ (exists s',
         finalState (taskResponse finishing (with_pendingImage (Some photo) afterLs))
         = Some s'
         /\ pendingImage s' = Some photo).
Proof.
  split.
  - exact (proj1 (pendingImage_consumed_when_attached offline (lit "describe this") false
                    withPhoto) photo eq_refl eq_refl).
  - eexists. split; [vm_compute; reflexivity|].
    apply (proj2 (proj2 (proj2 (proj2
             (pendingImage_consumed_when_attached finishing (lit "describe this") false
                (with_pendingImage (Some photo) afterLs)))))).
    vm_compute. reflexivity.
Defined.

End GatewayFacts.

(** ** Runs of the agent *)

Module Runs.
Import Store Bex BexFacts Laws Samples.

(** C1, counterexample. The model answers [/delete notes.txt]: the STEP
    looks the name up in the whole table and invokes the delete
    handler, which opens its confirmation question; the loop goes on
    and ends with the question still open. *)
Lemma loop_invokes_delete :
  exists s',
    task deleting 1 maxSteps (lit "tidy up") initial = Return (DONE, 2) s'
    /\ In (Invoke Delete [lit "notes.txt"]) (trace s')
    /\ In (AskConfirmation (lit "notes.txt")) (trace s')
    /\ confirmations s' = [lit "notes.txt"].
Proof.
  eexists. split; [vm_compute; reflexivity|].
  split; [|split]; cbn; auto.
Qed.

(** C2, at the failing input. In automatic mode with both backends
    configured, the Gemini call of the first STEP throws: the loop ends
    ABORTED with Gemini's error, DeepSeek is never called, and no model
    Turn is appended. *)
Theorem loop_does_not_fall_back :
  exists s' request,
    task failingPrimary 1 maxSteps (lit "tidy up") autoMode
    = Return (ABORTED unavailable, 1) s'
    /\ trace s' = [CallGemini request]
    /\ countRole model (history s') = 0.
Proof.
  eexists. eexists. split; [vm_compute; reflexivity|].
  split; reflexivity.
Qed.

(** The chat path in the same world and mode: Gemini, then DeepSeek,
    one model Turn with DeepSeek's answer. *)
Lemma chat_falls_back :
  exists s' request messages,
    handleInput failingPrimary 1 (lit "hello") false autoMode = Return tt s'
    /\ trace s' = [CallGemini request; CallDeepSeek messages]
    /\ history s' = [{| role := user; content := lit "hello" |};
                     {| role := model; content := lit "/done" |}].
Proof.
  eexists. eexists. eexists. split; [vm_compute; reflexivity|].
  split; reflexivity.
Qed.

(** C3, at the failing input. A run of the loop appends a model Turn
    and leaves the snapshot file as it was: here it does not exist
    before and does not exist after. *)
Theorem loop_does_not_persist :
  exists s',
    task finishing 1 maxSteps (lit "tidy up") initial = Return (DONE, 1) s'
    /\ countRole model (history s') = 1
    /\ memoryFile initial = None
    /\ memoryFile s' = None.
Proof.
  eexists. split; [vm_compute; reflexivity|].
  repeat split.
Qed.

(** The chat path in the same world writes the snapshot. *)
Lemma chat_persists :
  exists s',
    handleInput finishing 1 (lit "hello") false initial = Return tt s'
    /\ memoryFile s' = Some (snapshotFile (history s')).
Proof.
  eexists. split; [vm_compute; reflexivity|]. vm_compute. reflexivity.
Qed.

(** C4, counterexample. An image is pending and the Gemini call fails:
    the image was sent with the request, no model Turn was appended,
    and the image is gone. *)
Lemma failed_call_loses_image :
  exists s' request,
    handleInput offline 1 (lit "describe this") false withPhoto = Return tt s'
    /\ trace s' = [CallGemini request]
    /\ In (ImagePart photo) (g_parts request)
    /\ countRole model (history s') = 0
    /\ pendingImage s' = None.
Proof.
  eexists. eexists. split; [vm_compute; reflexivity|].
  split; [reflexivity|]. split; [cbn; auto|]. split; reflexivity.
Qed.

(** C6, counterexample. The model never answers the completion token.
    When it answers [/quit] the handler ends the process during the
    first STEP.  When it answers [/clear] the first STEP empties the
    history, the second finds no last message and throws inside the
    [try]: the loop ends ABORTED after 2 STEPs.  Neither run reaches
    [maxSteps]. *)
Lemma loop_stops_early :
  (exists s' request,
      task quitting 1 maxSteps (lit "tidy up") initial = Exit s'
      /\ trace s' = [CallGemini request; Invoke Quit []])
  /\ (exists s',
         task clearing 1 maxSteps (lit "tidy up") initial
         = Return (ABORTED msg_lastMsg_undefined, 2) s'
         /\ 2 <> maxSteps).
Proof.
  split.
  - eexists. eexists. split; [vm_compute; reflexivity | reflexivity].
  - eexists. split; [vm_compute; reflexivity | discriminate].
Qed.

(** C7, counterexample. With a bound of 3 and the completion token as
    first answer the loop is DONE after 1 STEP and has appended one
    model Turn, not two; two Turns in all, the user Turn of START
    included. *)
Lemma done_appends_one_model_turn :
  exists s',
    task finishing 0 3 (lit "tidy up") initial = Return (DONE, 1) s'
    /\ countRole model (history s') = 1
    /\ countRole model (history s') <> 2
    /\ List.length (history s') = 2.
Proof.
  eexists. split; [vm_compute; reflexivity|].
  split; [reflexivity|]. split; [discriminate | reflexivity].
Qed.

(** C8, counterexample. The messages built for DeepSeek show a system
    Turn under the system role in the chat path and under the user role
    in the loop, with its content as it is: no marker is put before
    it. *)
Lemma deepseek_window_has_no_marker :
  nth_error (history afterLs) 2
  = Some {| role := system; content := lit "Output of /ls .: index.js, notes.txt" |}
  /\ nth_error (chatMessages offline (lit "and now?") false afterLs) 3
     = Some {| c_role := c_system;
               c_content := lit "Output of /ls .: index.js, notes.txt" |}
  /\ nth_error (taskMessages offline afterLs) 3
     = Some {| c_role := c_user;
               c_content := lit "Output of /ls .: index.js, notes.txt" |}
  /\ startsWith (lit "Output of /ls .: index.js, notes.txt") (lit "SYSTEM INFO: ")
     = false.
Proof. repeat split. Qed.

Lemma task_done_first_witness :
  exists s',
    runTask finishing (run finishing 0) 3 (lit "tidy up") initial = Return (DONE, 1) s'
    /\ history s' = history initial
                    ++ [{| role := user; content := taskPrompt (lit "tidy up") |};
                        {| role := model; content := trim (lit " /DONE ") |}]
    /\ countRole model (history s') = countRole model (history initial) + 1.
Proof.
  apply (task_done_first finishing (run finishing 0) 3 (lit "tidy up") initial
           (lit " /DONE ")).
  - lia.
  - left. split; [reflexivity|]. split; [reflexivity|]. intros request. reflexivity.
  - reflexivity.
Defined.

(** [/ls .] when the directory can be listed. *)
Lemma ls_surviving (w : World) (fuel : nat) :
  (forall n dir, exists files, readdir w n dir = Ok files) ->
  surviving (run w (S fuel)) (lit "/ls .").
Proof.
  intros Hdir. split; [reflexivity|]. intros c args Hd.
  assert (Hc : c = Ls /\ args = [lit "."]).
  { cbv in Hd. injection Hd as <- <-. split; reflexivity. }
  destruct Hc as [-> ->]. clear Hd.
  assert (Hrun : forall s, exists files,
             run w (S fuel) Ls [lit "."] s
             = Return tt
                 (with_history
                    (history s
                     ++ [{| role := system;
                            content := lit "Output of /ls " ++ lit "." ++ lit ":"
                                       ++ newline ++ join (lit ", ") files |}])
                    (tick (record (Invoke Ls [lit "."]) s)))).
  { intros s. destruct (Hdir (clock s) (lit ".")) as [files Hfiles].
    exists files. cbn [run]. unfold cmd_ls. run_monad.
    cbn [arg nth_error orElse lit map list_ascii_of_string clock record].
    change (readdir w (clock s) (map N_of_ascii [])) with (readdir w (clock s) []).
    cbn [clock record] in *. unfold lit in Hfiles. cbn in Hfiles. cbn.
    rewrite Hfiles. reflexivity. }
  split; [|split].
  - intros s. destruct (Hrun s) as [files ->]. eexists. eexists. reflexivity.
  - intros s s' H. destruct (Hrun s) as [files Hs]. rewrite Hs in H.
    injection H as <-. split.
    + cbn [trace with_history tick record]. rewrite providerCalls_app. cbn. lia.
    + eexists. split; [reflexivity|]. repeat constructor.
  - intros s s' H. destruct (Hrun s) as [files Hs]. rewrite Hs in H.
    injection H as <-. reflexivity.
Qed.

Lemma task_exhausts_witness :
  exists s',
    runTask listingPrimaryOnly (run listingPrimaryOnly 1) maxSteps (lit "list files")
      initial
    = Return (MAX_STEPS_REACHED, maxSteps) s'
    /\ providerCalls (trace s') = providerCalls (trace initial) + maxSteps
    /\ countRole model (history s') = countRole model (history initial) + maxSteps
    /\ countRole user (history s') = countRole user (history initial) + 1.
Proof.
  apply (task_exhausts listingPrimaryOnly (run listingPrimaryOnly 1)).
  split; [reflexivity|].
  intros n request. exists (lit "/ls ."). split; [reflexivity|].
  apply ls_surviving. intros n0 dir. eexists. reflexivity.
Defined.

End Runs.

(** ** Strings and the tool server, further properties *)

Module JSFacts.

Lemma eqb_eq (a b : jsstring) : JS.eqb a b = true <-> a = b.
Proof.
  revert b. induction a as [|x a IH]; intros [|y b]; cbn [JS.eqb];
    try (split; [discriminate | discriminate]); [tauto|].
  rewrite andb_true_iff, N.eqb_eq, IH. split.
  - intros [-> ->]. reflexivity.
  - intros H. injection H as -> ->. auto.
Qed.

Lemma eqb_refl (a : jsstring) : JS.eqb a a = true.
Proof. apply eqb_eq. reflexivity. Qed.

Lemma eqb_neq (a b : jsstring) : JS.eqb a b = false <-> a <> b.
Proof.
  split.
  - intros H Heq. apply eqb_eq in Heq. congruence.
  - intros H. destruct (JS.eqb a b) eqn:E; [|reflexivity].
    apply eqb_eq in E. contradiction.
Qed.

Lemma split1_nonempty (sep : N) (s : jsstring) : split1 sep s <> [].
Proof.
  destruct s as [|c s]; cbn [split1]; [discriminate|].
  destruct (N.eqb c sep); [discriminate|].
  destruct (split1 sep s); discriminate.
Qed.

Lemma join_cons (sep x y : jsstring) (l : list jsstring) :
  join sep (x :: y :: l) = x ++ sep ++ join sep (y :: l).
Proof. reflexivity. Qed.

Lemma join_split1 (sep : N) (s : jsstring) : join [sep] (split1 sep s) = s.
Proof.
  induction s as [|c s IH]; [reflexivity|].
  cbn [split1]. pose proof (split1_nonempty sep s) as Hne.
  destruct (split1 sep s) as [|p ps]; [contradiction|].
  destruct (N.eqb_spec c sep) as [->|Hc].
  - rewrite join_cons, IH. reflexivity.
  - destruct ps as [|q ps].
    + cbn [join] in *. rewrite IH. reflexivity.
    + rewrite join_cons in *. rewrite <- IH. reflexivity.
Qed.

Lemma split1_name (sep : N) (name rest : jsstring) :
  Forall (fun c => c <> sep) name ->
  split1 sep (name ++ sep :: rest) = name :: split1 sep rest.
Proof.
  induction 1 as [|c name Hc _ IH]; cbn [app split1].
  - rewrite N.eqb_refl. reflexivity.
  - apply N.eqb_neq in Hc. rewrite Hc, IH. reflexivity.
Qed.

Lemma trimStart_idem (s : jsstring) : trimStart (trimStart s) = trimStart s.
Proof.
  induction s as [|c s IH]; [reflexivity|]. cbn [trimStart].
  destruct (isSpace c) eqn:Hc; [exact IH|]. cbn [trimStart]. rewrite Hc. reflexivity.
Qed.

Lemma trimStart_snoc (l : jsstring) (c : N) :
  isSpace c = false -> trimStart (l ++ [c]) = trimStart l ++ [c].
Proof.
  intros Hc. induction l as [|x l IH]; cbn [app trimStart].
  - rewrite Hc. reflexivity.
  - destruct (isSpace x); [exact IH | reflexivity].
Qed.

Lemma trimStart_head (s : jsstring) :
  trimStart s = [] \/ exists c t, trimStart s = c :: t /\ isSpace c = false.
Proof.
  induction s as [|c s IH]; [left; reflexivity|]. cbn [trimStart].
  destruct (isSpace c) eqn:Hc; [exact IH|]. right. eauto.
Qed.

Lemma trimEnd_idem (s : jsstring) : trimEnd (trimEnd s) = trimEnd s.
Proof. unfold trimEnd. rewrite rev_involutive, trimStart_idem. reflexivity. Qed.

Lemma trimEnd_cons (c : N) (t : jsstring) :
  isSpace c = false -> trimEnd (c :: t) = c :: trimEnd t.
Proof.
  intros Hc. unfold trimEnd. cbn [rev]. rewrite (trimStart_snoc _ c Hc), rev_app_distr.
  reflexivity.
Qed.

(** [s.trim().trim() === s.trim()] *)
Lemma trim_idem (s : jsstring) : trim (trim s) = trim s.
Proof.
  unfold trim. destruct (trimStart_head s) as [-> | (c & t & -> & Hc)]; [reflexivity|].
  rewrite (trimEnd_cons c t Hc). cbn [trimStart]. rewrite Hc.
  rewrite (trimEnd_cons c _ Hc), trimEnd_idem. reflexivity.
Qed.

(** X1. A line made of a command name without spaces, one space and any
    text splits into that name and arguments which, joined with spaces
    as the handlers do, are the text again, runs of spaces included. *)
Theorem command_line_parts (name rest : jsstring) :
  Forall (fun c => c <> 32%N) name ->
  let parts := split1 32%N (name ++ 32%N :: rest) in
  hd [] parts = name /\ join (lit " ") (tl parts) = rest.
Proof.
  intros Hname parts. unfold parts. rewrite split1_name by assumption.
  split; [reflexivity|]. cbn [tl]. apply (join_split1 32%N).
Qed.

Lemma command_line_parts_witness :
  let parts := split1 32%N (lit "/exec" ++ 32%N :: lit "echo  a   b") in
  hd [] parts = lit "/exec" /\ join (lit " ") (tl parts) = lit "echo  a   b".
Proof.
  apply command_line_parts. cbv. repeat constructor; discriminate.
Defined.

End JSFacts.

Module CatalogueFacts.
Import ToolServer Catalogue.

(** X2. The catalogue of [GET /tools] names exactly the tools that
    [POST /tools/:toolName] implements: a name is advertised if and
    only if the switch has a case for it. *)
Theorem catalogue_matches_switch (n : jsstring) :
  In n (map name getTools) <-> tool_of_name n <> None.
Proof.
  unfold tool_of_name, getTools, tools. cbn [map name In]. split.
  - intros [<- | [<- | [<- | []]]]; discriminate.
  - intros H.
    destruct (JS.eqb n (lit "readFile")) eqn:E1;
      [apply JSFacts.eqb_eq in E1; subst; auto|].
    destruct (JS.eqb n (lit "writeFile")) eqn:E2;
      [apply JSFacts.eqb_eq in E2; subst; auto|].
    destruct (JS.eqb n (lit "appendFile")) eqn:E3;
      [apply JSFacts.eqb_eq in E3; subst; auto 6|].
    contradiction.
Qed.

Section Requests.

Variable isAbsolute : jsstring -> bool.

(** X3. A request without arguments, or with an empty list of them,
    never reaches the file system: a known tool answers 500, an unknown
    one 404, whatever the file system holds. *)
Theorem no_arguments_no_file_access (fs : FileSystem) (tool : jsstring)
    (args : option (list jsstring)) :
  args = None \/ args = Some [] ->
  let response := post isAbsolute fs {| toolName := tool; arguments := args |} in
  status response = match tool_of_name tool with Some _ => 500 | None => 404 end
  /\ forall fs', post isAbsolute fs' {| toolName := tool; arguments := args |} = response.
Proof.
  intros Hargs response. unfold response, post. cbn [arguments toolName].
  destruct Hargs as [-> | ->]; cbn [invalid_path];
    destruct (tool_of_name tool) as [[]|]; split; reflexivity.
Qed.

(** X4. The answer to a POST is one of four: its status is 200, 400,
    404 or 500, and it carries an output exactly when the status is
    200; every other status carries an error. *)
Theorem post_status_and_body (fs : FileSystem) (req : Request) :
  let response := post isAbsolute fs req in
  In (status response) [200; 400; 404; 500]
  /\ ((exists out, body response = OutputBody out) <-> status response = 200).
Proof.
  cbv zeta. unfold post.
  destruct (invalid_path isAbsolute (arguments req)).
  - cbn. split; [tauto|]. split; [intros [out H]; discriminate | discriminate].
  - destruct (tool_of_name (toolName req)) as [t|].
    + destruct (run_tool fs t (arguments req)) as [out|e]; cbn.
      * split; [tauto|]. split; [reflexivity | intros _; eexists; reflexivity].
      * split; [tauto|]. split; [intros [out H]; discriminate | discriminate].
    + cbn. split; [tauto|]. split; [intros [out H]; discriminate | discriminate].
Qed.

End Requests.

Lemma no_arguments_no_file_access_witness :
  let response := post posix_isAbsolute oneFile
                    {| toolName := lit "readFile"; arguments := None |} in
  status response = 500
  /\ forall fs', post posix_isAbsolute fs'
                   {| toolName := lit "readFile"; arguments := None |} = response.
Proof.
  exact (no_arguments_no_file_access posix_isAbsolute oneFile (lit "readFile") None
           (or_introl eq_refl)).
Defined.

End CatalogueFacts.

(** ** Input handling, further properties *)

Module InputFacts.
Import Store Bex BexFacts Laws Samples.








Section Input.

Variable w : World.



(** X6. Outside multiline mode a blank line, and a line that names a
    command which is not in the table, change nothing at all: no Turn,
    no provider call, no handler. *)
Theorem blank_or_unknown_line_is_ignored (fuel : nat) (line : jsstring)
    (isSystemPrompt : bool) (s : State) :
  multilineMode s = false ->
  trim line = []
  \/ (startsWith (trim line) (lit "/") = true
      /\ commands (hd [] (split1 32%N (trim line))) = None) ->
  handleInput w (S fuel) line isSystemPrompt s = Return tt s.
Proof.
  intros Hml Hline. cbn [handleInput]. unfold handleInputBody. run_monad.
  rewrite Hml. destruct Hline as [-> | [Hslash Hcmd]]; [reflexivity|].
  destruct (trim line) as [|c rest] eqn:Htrim; [discriminate|].
  rewrite Hslash, Hcmd. reflexivity.
Qed.

Lemma multiline_line (fuel : nat) (line : jsstring) (isSystemPrompt : bool)
    (s : State) :
  multilineMode s = true ->
  trim line <> lit ">>>" ->
  exists buffer,
    handleInput w (S fuel) line isSystemPrompt s
    = Return tt (with_toggles (autoExecute s) true buffer (persistentMode s) s).
Proof.
  intros Hml Hline. cbn [handleInput]. unfold handleInputBody, setBuffer. run_monad.
  destruct (multilineMode s) eqn:Hmode; [clear Hml | discriminate].
  cbv beta.
  destruct (JS.eqb (trim line) (lit "<<<")); [rewrite Hmode; eexists; reflexivity|].
  destruct (JS.eqb (trim line) (lit ">>>")) eqn:Hclose;
    [apply JSFacts.eqb_eq in Hclose; contradiction|].
  rewrite Hmode. eexists. reflexivity.
Qed.

(** X7. While multiline mode is on, [handleInput] returns having
    changed nothing but the buffer: whatever the line, no Turn is
    pushed, no provider is called and no command handler runs, the
    closing [>>>] included, whose buffered text is handed to
    [handleInput] while the mode is still on; and the mode stays on. *)
Theorem multiline_mode_only_buffers (fuel : nat) (line : jsstring)
    (isSystemPrompt : bool) (s : State) :
  multilineMode s = true ->
  trim (multilineBuffer s) <> lit ">>>" ->
  exists buffer,
    handleInput w (S (S fuel)) line isSystemPrompt s
    = Return tt (with_toggles (autoExecute s) true buffer (persistentMode s) s).
Proof.
  intros Hml Hbuffer.
  destruct (JS.eqb (trim line) (lit ">>>")) eqn:Hclose.
  - cbn [handleInput]. unfold handleInputBody at 1, setBuffer. run_monad.
    rewrite Hml, Hclose. cbv beta.
    destruct (JS.eqb (trim line) (lit "<<<")); [rewrite Hml; eexists; reflexivity|].
    destruct (trim (multilineBuffer s)) as [|c rest] eqn:Htrim;
      [rewrite Hml; eexists; reflexivity|].
    assert (Hinner : trim (c :: rest) <> lit ">>>").
    { rewrite <- Htrim, JSFacts.trim_idem, Htrim. exact Hbuffer. }
    destruct (multiline_line fuel (c :: rest) isSystemPrompt s Hml Hinner) as [buffer Hrun].
    change (handleInputBody w (run w fuel) (handleInput w fuel) (c :: rest) isSystemPrompt s)
      with (handleInput w (S fuel) (c :: rest) isSystemPrompt s).
    rewrite Hrun. eexists. reflexivity.
  - apply multiline_line; [exact Hml|]. intros H. rewrite H in Hclose. discriminate.
Qed.

End Input.

Lemma blank_or_unknown_line_is_ignored_witness :
  handleInput offline 1 (lit "  /frobnicate now ") false afterLs = Return tt afterLs.
Proof.
  apply blank_or_unknown_line_is_ignored; [reflexivity | right; split; reflexivity].
Defined.

Lemma multiline_mode_only_buffers_witness :
  exists buffer,
    handleInput finishing 2 (lit ">>>") false
      (with_toggles false true (lit "first line") true afterLs)
    = Return tt (with_toggles false true buffer true afterLs).
Proof.
  apply (multiline_mode_only_buffers finishing 0 (lit ">>>") false
           (with_toggles false true (lit "first line") true afterLs));
    [reflexivity | discriminate].
Defined.

End InputFacts.

(** ** The agent loop, further properties *)

Module LoopFacts.
Import Store Bex BexFacts Laws Samples Cases InputFacts.

Section Loop.

Variable w : World.
Variable call : Command -> list jsstring -> M unit.



(** What [act] leaves, however it ends, when the handler it dispatches
    is quiet. *)
Lemma act_effect (text : jsstring) (s s1 : State) :
  (forall c args, dispatched text = Some (c, args) -> quiet (call c args)) ->
  finalState (act call text s) = Some s1 ->
  providerCalls (trace s1) = providerCalls (trace s)
  /\ countRole model (history s1) = countRole model (history s) + 1.
Proof.
  intros Hquiet Hfinal.
  assert (Hpushed : forall added,
             Forall (fun t => role t = system) added ->
             countRole model
               (history s ++ {| role := model; content := trim text |} :: added)
             = countRole model (history s) + 1).
  { intros added Hsys. destruct (countRole_system_only added Hsys) as [Hm _].
    change ({| role := model; content := trim text |} :: added)
      with ([{| role := model; content := trim text |}] ++ added).
    rewrite !countRole_app, Hm. cbn. lia. }
  destruct (isDone (trim text)) eqn:Hdone.
  - rewrite (act_done call text s Hdone) in Hfinal. injection Hfinal as <-.
    split; [reflexivity|]. apply (Hpushed []). constructor.
  - destruct (dispatched text) as [[c args]|] eqn:Hd.
    + rewrite (act_dispatch call text s c args Hdone Hd) in Hfinal.
      set (s0 := with_history _ s) in Hfinal.
      assert (Hcall : finalState (call c args s0) = Some s1).
      { destruct (call c args s0) as [[] s2 | e s2 | s2 |]; try discriminate;
          exact Hfinal. }
      destruct (Hquiet c args eq_refl s0 s1 Hcall) as (Hcalls & added & Hh & Hsys).
      split; [exact Hcalls|]. rewrite Hh. unfold s0. cbn [history with_history].
      rewrite <- app_assoc. apply Hpushed. exact Hsys.
    + destruct (act_no_dispatch call text s Hdone Hd) as (added & Hact & Hsys).
      rewrite Hact in Hfinal. injection Hfinal as <-.
      split; [reflexivity|]. apply Hpushed. exact Hsys.
Qed.

Lemma act_next (text : jsstring) (s s1 : State) (next : Next) :
  act call text s = Return next s1 -> next = Continue \/ next = Break DONE.
Proof.
  unfold act. run_monad. destruct (isDone (trim text)).
  - intros H. injection H as <- _. right. reflexivity.
  - destruct (startsWith (trim text) (lit "/")).
    + destruct (commands _) as [c|].
      * destruct (call c _ _) as [[] s2 | e s2 | s2 |]; try discriminate.
        intros H. injection H as <- _. left. reflexivity.
      * intros H. injection H as <- _. left. reflexivity.
    + intros H. injection H as <- _. left. reflexivity.
Qed.

Section Requests.

Hypothesis quiet_dispatch :
  forall text c args,
    mayAnswer w text -> dispatched text = Some (c, args) -> quiet (call c args).

(** What one STEP costs: one provider request and one model Turn when
    it goes on or is DONE, at most that when it aborts. *)
Lemma agentStep_effect (s s1 : State) (next : Next) :
  agentStep w call s = Return next s1 ->
  match next with
  | Continue | Break DONE =>
      providerCalls (trace s1) = providerCalls (trace s) + 1
      /\ countRole model (history s1) = countRole model (history s) + 1
  | Break (ABORTED _) =>
      providerCalls (trace s) <= providerCalls (trace s1) <= providerCalls (trace s) + 1
  | Break MAX_STEPS_REACHED => False
  end.
Proof.
  assert (Hact : forall text s0,
             mayAnswer w text ->
             providerCalls (trace s0) = providerCalls (trace s) + 1 ->
             history s0 = history s ->
             match act call text s0 with
             | Throw e s2 => Return (Break (ABORTED e)) s2
             | r => r
             end = Return next s1 ->
             match next with
             | Continue | Break DONE =>
                 providerCalls (trace s1) = providerCalls (trace s) + 1
                 /\ countRole model (history s1) = countRole model (history s) + 1
             | Break (ABORTED _) =>
                 providerCalls (trace s) <= providerCalls (trace s1)
                 <= providerCalls (trace s) + 1
             | Break MAX_STEPS_REACHED => False
             end).
  { intros text s0 Hmay Hcalls Hh Hrun.
    assert (Heffect : forall s2, finalState (act call text s0) = Some s2 ->
               providerCalls (trace s2) = providerCalls (trace s) + 1
               /\ countRole model (history s2) = countRole model (history s) + 1).
    { intros s2 Hf.
      destruct (act_effect text s0 s2 (fun c args => quiet_dispatch text c args Hmay) Hf)
        as [H1 H2].
      rewrite H1, H2, Hcalls, Hh. split; reflexivity. }
    destruct (act call text s0) as [next0 s2 | e s2 | s2 |] eqn:Hacted;
      try discriminate.
    - injection Hrun as <- <-.
      destruct (act_next text s0 s2 next0 Hacted) as [-> | ->];
        apply Heffect; reflexivity.
    - injection Hrun as <- <-. destruct (Heffect s2 eq_refl) as [H1 _]. lia. }
  rewrite agentStep_eq. unfold taskResponse. run_monad.
  destruct (toDeepSeek w s).
  - destruct (deepseekClient w); cbn [negb].
    + cbn [clock record].
      destruct (createCompletion w (clock s) (taskMessages w s)) as [[text|]|e] eqn:Hc.
      * apply (Hact text); [right; eauto | | reflexivity].
        cbn [trace tick record]. rewrite providerCalls_app. reflexivity.
      * intros H. injection H as <- <-. cbn [trace tick record].
        rewrite providerCalls_app. cbn. lia.
      * intros H. injection H as <- <-. cbn [trace tick record].
        rewrite providerCalls_app. cbn. lia.
    + intros H. injection H as <- <-. lia.
  - destruct (geminiModel w); cbn [negb].
    + destruct (taskRequest s) as [request|].
      * cbn [clock record].
        destruct (sendMessage w (clock s) request) as [text|e] eqn:Hc.
        -- apply (Hact text); [left; eauto | | reflexivity].
           cbn [trace tick record]. rewrite providerCalls_app. reflexivity.
        -- intros H. injection H as <- <-. cbn [trace tick record].
           rewrite providerCalls_app. cbn. lia.
      * intros H. injection H as <- <-. lia.
    + intros H. injection H as <- <-. lia.
Qed.

Lemma agentLoop_effect (remaining : nat) :
  forall steps s t n s',
    agentLoop w call remaining steps s = Return (t, n) s' ->
    exists k,
      n = steps + k /\ k <= remaining
      /\ providerCalls (trace s') <= providerCalls (trace s) + k
      /\ providerCalls (trace s) + k <= providerCalls (trace s') + 1
      /\ (t = DONE \/ t = MAX_STEPS_REACHED ->
          providerCalls (trace s') = providerCalls (trace s) + k
          /\ countRole model (history s') = countRole model (history s) + k)
      /\ (t = MAX_STEPS_REACHED -> k = remaining).
Proof.
  induction remaining as [|r IH]; intros steps s t n s' Hrun.
  - injection Hrun as <- <- <-. exists 0. repeat split; lia.
  - rewrite agentLoop_S in Hrun.
    destruct (agentStep w call s) as [[|t0] s1 | e s1 | s1 |] eqn:Hstep;
      try discriminate.
    + apply agentStep_effect in Hstep. destruct Hstep as [Hc Hm].
      apply IH in Hrun. destruct Hrun as (k & -> & Hk & Hle & Hge & Hexact & Hmax).
      exists (S k). split; [lia|]. split; [lia|]. split; [lia|]. split; [lia|].
      split; [intros Ht; destruct (Hexact Ht); lia | intros Ht; rewrite (Hmax Ht); lia].
    + injection Hrun as <- <- <-. apply agentStep_effect in Hstep.
      exists 1. split; [lia|]. split; [lia|].
      destruct t0 as [|e|]; [| |contradiction].
      * destruct Hstep as [Hc Hm]. split; [lia|]. split; [lia|].
        split; [intros _; split; lia | intros Ht; discriminate Ht].
      * split; [lia|]. split; [lia|].
        split; [intros [Ht | Ht]; discriminate Ht | intros Ht; discriminate Ht].
Qed.

(** X9. In a run of the agent loop whose dispatched handlers make no
    provider request of their own and only append system Turns, every
    STEP begun makes at most one provider request, and every STEP but
    an aborted last one makes exactly one and pushes exactly one model
    Turn: a run that returns after [n] STEPs has [n] at most the bound,
    has made [n] requests or [n - 1], and exactly [n], with exactly [n]
    model Turns, when it ends DONE or by exhaustion, which happens only
    at [n] equal to the bound. *)
Theorem runTask_steps_bounded (bound : nat) (goal : jsstring) (s s' : State)
    (t : Terminal) (n : nat) :
  runTask w call bound goal s = Return (t, n) s' ->
  n <= bound
  /\ providerCalls (trace s') <= providerCalls (trace s) + n
  /\ providerCalls (trace s) + n <= providerCalls (trace s') + 1
  /\ (t = DONE \/ t = MAX_STEPS_REACHED ->
      providerCalls (trace s') = providerCalls (trace s) + n
      /\ countRole model (history s') = countRole model (history s) + n)
  /\ (t = MAX_STEPS_REACHED -> n = bound).
Proof.
  unfold runTask, bind at 1, push, modify. intros Hrun.
  apply agentLoop_effect in Hrun.
  destruct Hrun as (k & -> & Hk & Hle & Hge & Hexact & Hmax).
  cbn [trace history with_history] in *.
  rewrite countRole_app in Hexact. cbn in Hexact.
  split; [lia|]. split; [lia|]. split; [lia|]. split.
  - intros Ht. destruct (Hexact Ht). split; lia.
  - intros Ht. rewrite (Hmax Ht). reflexivity.
Qed.

End Requests.

(** X10. When the provider call of a STEP throws, the loop ends at once
    in ABORTED with that error, however many STEPs were left, and the
    STEP has pushed no Turn. *)
Theorem provider_failure_aborts (remaining steps : nat) (s : State) (e : jsstring) :
  providerFails w s e ->
  exists s',
    agentLoop w call (S remaining) steps s = Return (ABORTED e, S steps) s'
    /\ history s' = history s.
Proof.
  intros Hfail. rewrite agentLoop_S, agentStep_eq.
  destruct Hfail as [(Hto & Hg & Hne & Herr) | (Hto & Hd & Herr)].
  - destruct (taskRequest_nonempty s Hne) as [request Hreq].
    rewrite (taskResponse_gemini w s request Hto Hg Hreq), Herr.
    eexists. split; reflexivity.
  - rewrite (taskResponse_deepseek w s Hto Hd), Herr.
    eexists. split; reflexivity.
Qed.

(** X11. Without a client for the backend the mode selects, a run ends
    ABORTED in its first STEP with the missing-key message of that
    backend, after the START Turn and before any provider request. *)
Theorem missing_key_aborts (bound : nat) (goal : jsstring) (s : State) :
  (if toDeepSeek w s then deepseekClient w else geminiModel w) = false ->
  runTask w call (S bound) goal s
  = Return (ABORTED (if toDeepSeek w s then msg_deepseek_key else msg_google_key), 1)
      (with_history (history s ++ [{| role := user; content := taskPrompt goal |}]) s).
Proof.
  intros Hkey. unfold runTask, bind at 1, push, modify.
  rewrite agentLoop_S. unfold agentStep, taskResponse. run_monad.
  change (toDeepSeek w (with_history ?h s)) with (toDeepSeek w s).
  destruct (toDeepSeek w s); rewrite Hkey; reflexivity.
Qed.

(** X12. A STEP whose action is neither the completion token nor a
    registered command runs no handler and goes on: plain text is
    pushed as a model Turn and nothing else; a slash command that is
    not in the table is pushed as a model Turn followed by the system
    Turn [Unknown command.]. *)
Theorem unregistered_action_is_not_executed (s : State) (text : jsstring) :
  providerAnswers w s text ->
  isDone (trim text) = false ->
  (startsWith (trim text) (lit "/") = true ->
   commands (hd [] (split1 32%N (trim text))) = None) ->
  exists s',
    agentStep w call s = Return Continue s'
    /\ history s' =
       history s ++ {| role := model; content := trim text |}
       :: (if startsWith (trim text) (lit "/")
           then [{| role := system; content := lit "Unknown command." |}]
           else [])
    /\ forall c args, ~ In (Invoke c args) (newEvents s s').
Proof.
  intros Hans Hnot Hunknown.
  assert (Htrace : exists s1, history s1 = history s
            /\ (exists ev, trace s1 = trace s ++ [ev]
                           /\ forall c args, ev <> Invoke c args)
            /\ agentStep w call s =
               match act call text s1 with
               | Throw e s2 => Return (Break (ABORTED e)) s2
               | r => r
               end).
  { rewrite agentStep_eq.
    destruct Hans as [(Hto & Hg & Hne & Hok) | (Hto & Hd & Hok)].
    - destruct (taskRequest_nonempty s Hne) as [request Hreq].
      rewrite (taskResponse_gemini w s request Hto Hg Hreq), Hok.
      exists (tick (record (CallGemini request) s)).
      split; [reflexivity|]. split; [|reflexivity].
      eexists. split; [reflexivity | discriminate].
    - rewrite (taskResponse_deepseek w s Hto Hd), Hok.
      exists (tick (record (CallDeepSeek (taskMessages w s)) s)).
      split; [reflexivity|]. split; [|reflexivity].
      eexists. split; [reflexivity | discriminate]. }
  destruct Htrace as (s1 & Hh & (ev & Htr & Hev) & ->).
  unfold newEvents, act. run_monad. rewrite Hnot.
  assert (Hskip : forall l, skipn (List.length (trace s)) (trace s ++ l) = l).
  { intros l. rewrite skipn_app, Nat.sub_diag, skipn_all. reflexivity. }
  destruct (startsWith (trim text) (lit "/")) eqn:Hslash.
  - rewrite (Hunknown eq_refl). eexists. split; [reflexivity|].
    cbn [history trace with_history]. rewrite Hh, Htr, Hskip, <- app_assoc.
    split; [reflexivity|]. intros c args [Hin | []]. exact (Hev c args Hin).
  - eexists. split; [reflexivity|].
    cbn [history trace with_history]. rewrite Hh, Htr, Hskip.
    split; [reflexivity|]. intros c args [Hin | []]. exact (Hev c args Hin).
Qed.

End Loop.

Lemma runTask_steps_bounded_witness :
  exists s',
    runTask listing (run listing 1) 2 (lit "list files") initial
    = Return (MAX_STEPS_REACHED, 2) s'
    /\ 2 <= 2
    /\ providerCalls (trace s') <= providerCalls (trace initial) + 2
    /\ providerCalls (trace initial) + 2 <= providerCalls (trace s') + 1
    /\ (MAX_STEPS_REACHED = DONE \/ MAX_STEPS_REACHED = MAX_STEPS_REACHED ->
        providerCalls (trace s') = providerCalls (trace initial) + 2
        /\ countRole model (history s') = countRole model (history initial) + 2)
    /\ (MAX_STEPS_REACHED = MAX_STEPS_REACHED -> 2 = 2).
Proof.
  eexists. split; [vm_compute; reflexivity|].
  refine (runTask_steps_bounded listing (run listing 1) _ 2 (lit "list files") initial
            _ _ _ _); [|vm_compute; reflexivity].
  intros text c args Hmay Hd.
  assert (Htext : text = lit "/ls .").
  { destruct Hmay as [(n & request & H) | (n & messages & H)];
      injection H as <-; reflexivity. }
  subst text.
  destruct (Runs.ls_surviving listing 0) as [_ Hsurv];
    [intros n dir; eexists; reflexivity|].
  apply (Hsurv c args Hd).
Defined.

Lemma provider_failure_aborts_witness :
  exists s',
    agentLoop failingPrimary (run failingPrimary 1) (S 19) 0 afterLs
    = Return (ABORTED unavailable, 1) s'
    /\ history s' = history afterLs.
Proof.
  apply provider_failure_aborts. left.
  split; [reflexivity|]. split; [reflexivity|]. split; [discriminate|].
  intros request. reflexivity.
Defined.

Lemma missing_key_aborts_witness :
  runTask keyless (run keyless 1) (S 19) (lit "tidy up") initial
  = Return (ABORTED msg_google_key, 1)
      (with_history (history initial
                     ++ [{| role := user; content := taskPrompt (lit "tidy up") |}])
         initial).
Proof.
  exact (missing_key_aborts keyless (run keyless 1) 19 (lit "tidy up") initial eq_refl).
Defined.

Lemma unregistered_action_is_not_executed_witness :
  exists s',
    agentStep stray (run stray 1) afterLs = Return Continue s'
    /\ history s' =
       history afterLs
       ++ [{| role := model; content := lit "/frobnicate now" |};
           {| role := system; content := lit "Unknown command." |}]
    /\ forall c args, ~ In (Invoke c args) (newEvents afterLs s').
Proof.
  apply (unregistered_action_is_not_executed stray (run stray 1) afterLs
           (lit "/frobnicate now")).
  - left. split; [reflexivity|]. split; [reflexivity|]. split; [discriminate|].
    intros request. reflexivity.
  - reflexivity.
  - intros _. reflexivity.
Defined.

End LoopFacts.

(** ** The chat path, further properties *)

Module ChatFacts.
Import Store Bex BexFacts StoreFacts GatewayFacts Laws Samples Cases.

Section Chat.

Variable w : World.
Variable input : jsstring -> bool -> M unit.

Lemma skipn_trace (s : State) (l : list Event) :
  skipn (List.length (trace s)) (trace s ++ l) = l.
Proof. rewrite skipn_app, Nat.sub_diag, skipn_all. reflexivity. Qed.

Lemma callGoogle_frame (line : jsstring) (sys : bool) (s s' : State) :
  finalState (callGoogle w line sys s) = Some s' ->
  sameConversation s s'
  /\ trace s' = trace s ++ (if geminiModel w then [CallGemini (chatRequest line sys s)] else []).
Proof.
  destruct (geminiModel w) eqn:Hg.
  - rewrite (callGoogle_eq w line sys s Hg). cbv zeta.
    destruct (sendMessage w (clock s) (chatRequest line sys s));
      intros H; injection H as <-; destruct (pendingImage s);
      (split; [repeat split|reflexivity]).
  - rewrite (pendingImage_kept_without_client w line sys s Hg).
    intros H; injection H as <-. rewrite app_nil_r. repeat split.
Qed.

Lemma callDeepSeek_frame (line : jsstring) (sys : bool) (s s' : State) :
  finalState (callDeepSeek w line sys s) = Some s' ->
  sameConversation s s'
  /\ pendingImage s' = pendingImage s
  /\ trace s' = trace s ++ (if deepseekClient w
                            then [CallDeepSeek (chatMessages w line sys s)] else []).
Proof.
  destruct (deepseekClient w) eqn:Hd.
  - rewrite (callDeepSeek_eq w line sys s Hd). cbv zeta.
    destruct (createCompletion w (clock s) (chatMessages w line sys s));
      intros H; injection H as <-; repeat split.
  - unfold callDeepSeek. rewrite Hd. cbn [negb].
    intros H; injection H as <-. rewrite app_nil_r. repeat split.
Qed.

(** The gateway in an explicit mode is the one call. *)
Lemma gateway_google (line : jsstring) (sys : bool) (s : State) :
  currentProvider s = google ->
  gateway w line sys s =
  match callGoogle w line sys s with
  | Return text s' => Return (Some text) s'
  | Throw e s' => Throw e s'
  | Exit s' => Exit s'
  | OutOfFuel => OutOfFuel
  end.
Proof.
  intros Hp. unfold gateway. run_monad. rewrite Hp.
  destruct (callGoogle w line sys s) as [text s1 | e s1 | s1 |] eqn:Hcall;
    try reflexivity.
  assert (Hf : finalState (callGoogle w line sys s) = Some s1) by (rewrite Hcall; reflexivity).
  apply callGoogle_frame in Hf. destruct Hf as [(_ & _ & Hcp) _].
  rewrite Hcp, Hp. reflexivity.
Qed.

Lemma gateway_deepseek (line : jsstring) (sys : bool) (s : State) :
  currentProvider s = deepseek ->
  gateway w line sys s = callDeepSeek w line sys s.
Proof.
  intros Hp. unfold gateway. run_monad. rewrite Hp.
  destruct (callDeepSeek w line sys s) as [text s1 | e s1 | s1 |] eqn:Hcall;
    try reflexivity.
  assert (Hf : finalState (callDeepSeek w line sys s) = Some s1) by (rewrite Hcall; reflexivity).
  apply callDeepSeek_frame in Hf. destruct Hf as [(_ & _ & Hcp) _].
  rewrite Hcp, Hp. reflexivity.
Qed.

(** The gateway in automatic mode: the Gemini call, and the DeepSeek
    call when that one throws. *)
Lemma gateway_auto (line : jsstring) (sys : bool) (s : State) :
  currentProvider s = auto ->
  gateway w line sys s =
  match callGoogle w line sys s with
  | Return text s' => Return (Some text) s'
  | Throw _ s' => callDeepSeek w line sys s'
  | Exit s' => Exit s'
  | OutOfFuel => OutOfFuel
  end.
Proof.
  intros Hp. unfold gateway. run_monad. rewrite Hp.
  destruct (callGoogle w line sys s) as [text s1 | e s1 | s1 |] eqn:Hcall;
    try reflexivity.
  assert (Hf : finalState (callGoogle w line sys s) = Some s1) by (rewrite Hcall; reflexivity).
  apply callGoogle_frame in Hf. destruct Hf as [(_ & _ & Hcp) _].
  rewrite Hcp, Hp. reflexivity.
Qed.

Lemma gateway_frame (line : jsstring) (sys : bool) (s s' : State) :
  finalState (gateway w line sys s) = Some s' -> sameConversation s s'.
Proof.
  destruct (currentProvider s) eqn:Hp.
  - rewrite (gateway_google line sys s Hp).
    destruct (callGoogle w line sys s) as [text s1 | e s1 | s1 |] eqn:Hcall;
      try discriminate; intros H; injection H as <-;
      apply (callGoogle_frame line sys s s1); rewrite Hcall; reflexivity.
  - rewrite (gateway_deepseek line sys s Hp). intros H.
    apply (callDeepSeek_frame line sys s s' H).
  - rewrite (gateway_auto line sys s Hp).
    destruct (callGoogle w line sys s) as [text s1 | e s1 | s1 |] eqn:Hcall;
      try discriminate.
    + intros H; injection H as <-.
      apply (callGoogle_frame line sys s s1); rewrite Hcall; reflexivity.
    + intros H. apply callDeepSeek_frame in H.
      assert (Hf : finalState (callGoogle w line sys s) = Some s1)
        by (rewrite Hcall; reflexivity).
      apply callGoogle_frame in Hf.
      destruct H as [(H1 & H2 & H3) _], Hf as [(G1 & G2 & G3) _].
      repeat split; congruence.
    + intros H; injection H as <-.
      apply (callGoogle_frame line sys s s1); rewrite Hcall; reflexivity.
Qed.

Lemma callGoogle_ends (line : jsstring) (sys : bool) (s : State) :
  (exists r s', callGoogle w line sys s = Return r s')
  \/ (exists e s', callGoogle w line sys s = Throw e s').
Proof.
  destruct (geminiModel w) eqn:Hg.
  - rewrite (callGoogle_eq w line sys s Hg). cbv zeta.
    destruct (sendMessage w (clock s) (chatRequest line sys s)); eauto.
  - rewrite (pendingImage_kept_without_client w line sys s Hg). eauto.
Qed.

Lemma callDeepSeek_ends (line : jsstring) (sys : bool) (s : State) :
  (exists r s', callDeepSeek w line sys s = Return r s')
  \/ (exists e s', callDeepSeek w line sys s = Throw e s').
Proof.
  destruct (deepseekClient w) eqn:Hd.
  - rewrite (callDeepSeek_eq w line sys s Hd). cbv zeta.
    destruct (createCompletion w (clock s) (chatMessages w line sys s)); eauto.
  - unfold callDeepSeek. rewrite Hd. cbn [negb]. unfold throw. eauto.
Qed.

(** The gateway returns or throws: it neither ends the process nor
    needs fuel. *)
Lemma gateway_ends (line : jsstring) (sys : bool) (s : State) :
  (exists r s', gateway w line sys s = Return r s')
  \/ (exists e s', gateway w line sys s = Throw e s').
Proof.
  destruct (currentProvider s) eqn:Hp.
  - rewrite (gateway_google line sys s Hp).
    destruct (callGoogle_ends line sys s) as [(r & s1 & ->) | (e & s1 & ->)]; eauto.
  - rewrite (gateway_deepseek line sys s Hp). apply callDeepSeek_ends.
  - rewrite (gateway_auto line sys s Hp).
    destruct (callGoogle_ends line sys s) as [(r & s1 & ->) | (e & s1 & ->)]; eauto.
    apply callDeepSeek_ends.
Qed.

(** X13. In an explicit provider mode the gateway contacts the selected
    backend only, and at most once: whatever the outcome, the only
    provider call it has made is the one to that backend, and none
    when its API key is missing. *)
Theorem explicit_mode_contacts_one_backend (line : jsstring) (sys : bool)
    (s s' : State) :
  currentProvider s <> auto ->
  finalState (gateway w line sys s) = Some s' ->
  newEvents s s' =
  match currentProvider s with
  | deepseek =>
      if deepseekClient w then [CallDeepSeek (chatMessages w line sys s)] else []
  | _ =>
      if geminiModel w then [CallGemini (chatRequest line sys s)] else []
  end.
Proof.
  intros Hmode. unfold newEvents. destruct (currentProvider s) eqn:Hp.
  - rewrite (gateway_google line sys s Hp).
    destruct (callGoogle w line sys s) as [text s1 | e s1 | s1 |] eqn:Hcall;
      try discriminate; intros H; injection H as <-;
      assert (Hf : finalState (callGoogle w line sys s) = Some s1)
        by (rewrite Hcall; reflexivity);
      apply callGoogle_frame in Hf; destruct Hf as [_ ->]; apply skipn_trace.
  - rewrite (gateway_deepseek line sys s Hp). intros H.
    apply callDeepSeek_frame in H. destruct H as (_ & _ & ->). apply skipn_trace.
  - contradiction.
Qed.

(** X14. In automatic mode an error that leaves the gateway is always
    the error of the DeepSeek call: the missing-key message of
    DeepSeek, or what the DeepSeek request threw.  What the Gemini call
    threw is dropped. *)
Theorem auto_mode_reports_secondary_error (line : jsstring) (sys : bool)
    (s s' : State) (e : jsstring) :
  currentProvider s = auto ->
  gateway w line sys s = Throw e s' ->
  (deepseekClient w = false /\ e = msg_deepseek_key)
  \/ (deepseekClient w = true
      /\ exists n messages, createCompletion w n messages = Err e).
Proof.
  intros Hp. rewrite (gateway_auto line sys s Hp).
  destruct (callGoogle w line sys s) as [text s1 | e1 s1 | s1 |]; try discriminate.
  destruct (deepseekClient w) eqn:Hd.
  - rewrite (callDeepSeek_eq w line sys s1 Hd). cbv zeta.
    destruct (createCompletion w (clock s1) (chatMessages w line sys s1)) as [a|e2] eqn:Hc;
      [discriminate|].
    intros H; injection H as <- _. right. split; [reflexivity|]. eauto.
  - unfold callDeepSeek. rewrite Hd. cbn [negb].
    intros H; injection H as <- _. left. split; reflexivity.
Qed.

(** X15. In DeepSeek mode an exchange neither sends the pending image
    nor drops it: the image is still pending afterwards. *)
Theorem deepseek_mode_keeps_image (line : jsstring) (sys : bool) (s s' : State) :
  currentProvider s = deepseek ->
  finalState (gateway w line sys s) = Some s' ->
  pendingImage s' = pendingImage s
  /\ forall request, ~ In (CallGemini request) (newEvents s s').
Proof.
  intros Hp. rewrite (gateway_deepseek line sys s Hp). intros H.
  apply callDeepSeek_frame in H. destruct H as (_ & Himg & Htr).
  split; [exact Himg|]. unfold newEvents. rewrite Htr, skipn_trace.
  intros request. destruct (deepseekClient w); [|intros []].
  intros [Hin | []]. discriminate.
Qed.

(** X16. A chat exchange that obtains no answer, because the gateway
    throws or the completion is [null], returns normally: the line
    stays in the history as a user Turn (unless it is a system prompt),
    no model Turn is pushed and the snapshot file is not written. *)
Theorem failed_chat_keeps_user_turn (line : jsstring) (sys : bool) (s : State) :
  (forall text s2, gateway w line sys (asked line sys s) <> Return (Some text) s2) ->
  exists s',
    chat w input line sys s = Return tt s'
    /\ history s' = history (asked line sys s)
    /\ memoryFile s' = memoryFile s.
Proof.
  intros Hfail.
  assert (Hchat : chat w input line sys s =
                  try_catch (text <- exchange w line sys ;; runPlan input text)%bex
                            (fun _ => ret tt) (asked line sys s)).
  { unfold chat, asked. destruct sys; reflexivity. }
  rewrite Hchat. unfold exchange. run_monad.
  assert (Hm : memoryFile (asked line sys s) = memoryFile s)
    by (unfold asked; destruct sys; reflexivity).
  destruct (gateway w line sys (asked line sys s)) as [[text|] s2 | e s2 | s2 |] eqn:Hg.
  - exfalso. exact (Hfail text s2 eq_refl).
  - assert (Hf : finalState (gateway w line sys (asked line sys s)) = Some s2)
      by (rewrite Hg; reflexivity).
    apply gateway_frame in Hf. destruct Hf as (H1 & H2 & _).
    exists s2. split; [reflexivity|]. split; congruence.
  - assert (Hf : finalState (gateway w line sys (asked line sys s)) = Some s2)
      by (rewrite Hg; reflexivity).
    apply gateway_frame in Hf. destruct Hf as (H1 & H2 & _).
    exists s2. split; [reflexivity|]. split; congruence.
  - exfalso. destruct (gateway_ends line sys (asked line sys s)) as [(r & s3 & H) | (e & s3 & H)];
      rewrite H in Hg; discriminate.
  - exfalso. destruct (gateway_ends line sys (asked line sys s)) as [(r & s3 & H) | (e & s3 & H)];
      rewrite H in Hg; discriminate.
Qed.

(** X17. A chat exchange that obtains an answer pushes the line as a
    user Turn (unless it is a system prompt), then the answer, as
    received, as a model Turn, and writes the snapshot of that history
    before it looks for a plan in the answer. *)
Theorem answered_chat_records_and_saves (line : jsstring) (sys : bool)
    (s s2 : State) (text : jsstring) :
  gateway w line sys (asked line sys s) = Return (Some text) s2 ->
  exists s3,
    history s3 = history (asked line sys s) ++ [{| role := model; content := text |}]
    /\ memoryFile s3 = Some (snapshotFile (history s3))
    /\ chat w input line sys s = try_catch (runPlan input text) (fun _ => ret tt) s3.
Proof.
  intros Hg.
  assert (Hchat : chat w input line sys s =
                  try_catch (text <- exchange w line sys ;; runPlan input text)%bex
                            (fun _ => ret tt) (asked line sys s)).
  { unfold chat, asked. destruct sys; reflexivity. }
  rewrite Hchat. unfold exchange. run_monad. rewrite Hg.
  assert (Hf : finalState (gateway w line sys (asked line sys s)) = Some s2)
    by (rewrite Hg; reflexivity).
  apply gateway_frame in Hf. destruct Hf as (H1 & _ & _).
  eexists. split; [|split; [|reflexivity]];
    cbn [history memoryFile with_history with_memoryFile]; rewrite H1; reflexivity.
Qed.

Lemma strings_check (h : list Turn) :
  forallb (fun t => forallb (fun c => (c <? 65536)%N) (content t)) h = true ->
  Forall (fun t => isString (content t)) h.
Proof.
  intros H. apply Forall_forall. intros t Hin.
  rewrite forallb_forall in H. specialize (H t Hin).
  apply Forall_forall. intros c Hc.
  rewrite forallb_forall in H. apply N.ltb_lt. exact (H c Hc).
Qed.

(** X18. The snapshot that a chat exchange writes restores, at the next
    start, to the history the exchange left in memory. *)
Theorem chat_snapshot_restores (line : jsstring) (sys : bool) (s s' : State)
    (text : jsstring) :
  exchange w line sys s = Return text s' ->
  Forall (fun t => isString (content t)) (history s') ->
  exists file, memoryFile s' = Some file /\ restore file = Some (history s').
Proof.
  intros Hex Hstr. apply exchange_persists in Hex. destruct Hex as [Hfile _].
  exists (snapshotFile (history s')). split; [exact Hfile|].
  unfold restore, snapshotFile.
  rewrite UTF8Facts.decode_encode by (apply wellFormed_snapshot; exact Hstr).
  rewrite parse_snapshot. apply history_of_json_of_history.
Qed.

End Chat.

Lemma explicit_mode_contacts_one_backend_witness :
  exists s',
    finalState (gateway offline hello false (asked hello false initial)) = Some s'
    /\ newEvents (asked hello false initial) s'
       = [CallGemini (chatRequest hello false (asked hello false initial))].
Proof.
  eexists. split; [reflexivity|].
  apply (explicit_mode_contacts_one_backend offline hello false (asked hello false initial));
    [discriminate | reflexivity].
Defined.

Lemma auto_mode_reports_secondary_error_witness :
  (deepseekClient offline = false /\ unavailable = msg_deepseek_key)
  \/ (deepseekClient offline = true
      /\ exists n messages, createCompletion offline n messages = Err unavailable).
Proof.
  eapply (auto_mode_reports_secondary_error offline hello false
            (asked hello false autoMode)); [reflexivity | lazy; reflexivity].
Defined.

Lemma deepseek_mode_keeps_image_witness :
  exists s',
    finalState (gateway failingPrimary hello false
                  (with_currentProvider deepseek withPhoto)) = Some s'
    /\ pendingImage s' = Some photo
    /\ forall request,
         ~ In (CallGemini request) (newEvents (with_currentProvider deepseek withPhoto) s').
Proof.
  eexists. split; [reflexivity|].
  apply (deepseek_mode_keeps_image failingPrimary hello false
           (with_currentProvider deepseek withPhoto)); reflexivity.
Defined.

Lemma failed_chat_keeps_user_turn_witness :
  exists s',
    chat offline (handleInput offline 1) hello false initial = Return tt s'
    /\ history s' = [{| role := user; content := hello |}]
    /\ memoryFile s' = None.
Proof.
  apply (failed_chat_keeps_user_turn offline (handleInput offline 1) hello false initial).
  intros text s2 H. vm_compute in H. discriminate H.
Defined.

Lemma answered_chat_records_and_saves_witness :
  exists s3,
    history s3 = [{| role := user; content := hello |};
                  {| role := model; content := lit "two files" |}]
    /\ memoryFile s3 = Some (snapshotFile (history s3))
    /\ chat talking (handleInput talking 1) hello false initial
       = try_catch (runPlan (handleInput talking 1) (lit "two files"))
                   (fun _ => ret tt) s3.
Proof.
  eapply (answered_chat_records_and_saves talking (handleInput talking 1) hello false
            initial).
  lazy. reflexivity.
Defined.

Lemma chat_snapshot_restores_witness :
  exists s',
    exchange talking hello false (asked hello false initial)
    = Return (lit "two files") s'
    /\ exists file, memoryFile s' = Some file /\ restore file = Some (history s').
Proof.
  eexists. split; [reflexivity|].
  eapply (chat_snapshot_restores talking hello false (asked hello false initial));
    [reflexivity|].
  apply strings_check. vm_compute. reflexivity.
Defined.

End ChatFacts.

(** ** The command handlers *)

Module HandlerFacts.
Import Store Bex BexFacts Laws Samples Cases JSFacts.
Local Open Scope bex_scope.

(** *** Handlers that always return *)

Lemma returns_ret {A} (a : A) : returns (ret a).
Proof. intros s. eexists. eexists. reflexivity. Qed.

Lemma returns_get : returns get.
Proof. intros s. eexists. eexists. reflexivity. Qed.

Lemma returns_modify (f : State -> State) : returns (modify f).
Proof. intros s. eexists. eexists. reflexivity. Qed.

Lemma returns_push (r : Role) (text : jsstring) : returns (push r text).
Proof. apply returns_modify. Qed.

Lemma returns_await {A} (oracle : nat -> Result A) : returns (await oracle).
Proof. intros s. eexists. eexists. reflexivity. Qed.

Lemma returns_bind {A B} (m : M A) (k : A -> M B) :
  returns m -> (forall a, returns (k a)) -> returns (bind m k).
Proof.
  intros Hm Hk s. destruct (Hm s) as (a & s1 & H). unfold bind. rewrite H. apply Hk.
Qed.

Lemma returns_forEach {A} (l : list A) (body : A -> M unit) :
  (forall x, returns (body x)) -> returns (forEach l body).
Proof.
  intros Hbody. induction l as [|x l IH]; cbn [forEach].
  - apply returns_ret.
  - apply returns_bind; [apply Hbody | intros _; exact IH].
Qed.

Ltac returns_step :=
  first
    [ apply returns_ret | apply returns_get | apply returns_push | apply returns_modify
    | apply returns_await
    | apply returns_forEach; intros [? ?]
    | apply returns_bind; [|intros ?]
    | progress cbv beta zeta
    | match goal with
      | |- returns (if ?b then _ else _) => destruct b
      | |- returns (match ?x with _ => _ end) => destruct x
      end ].

Ltac returns_auto := repeat returns_step.

(** *** Handlers that only append system Turns *)










Lemma grows_try_catch {A} (m : M A) (handler : jsstring -> M A) :
  grows m -> (forall e, grows (handler e)) -> grows (try_catch m handler).
Proof.
  intros Hm Hh s s'. unfold try_catch.
  destruct (m s) as [a s1 | e s1 | s1 |] eqn:Hms; intros H.
  - apply (Hm s s'). rewrite Hms. exact H.
  - destruct (Hm s s1) as (l1 & E1 & F1); [rewrite Hms; reflexivity|].
    destruct (Hh e s1 s' H) as (l2 & E2 & F2).
    exists (l1 ++ l2). rewrite E2, E1, app_assoc. split; [reflexivity|].
    apply Forall_app. split; assumption.
  - apply (Hm s s'). rewrite Hms. exact H.
  - discriminate.
Qed.






Section Handlers.

Variable w : World.

Lemma returns_run (c : Command) (fuel : nat) (args : list jsstring) :
  contained c = true -> returns (run w (S fuel) c args).
Proof.
  intros Hc. cbn [run]. apply returns_bind; [apply returns_modify | intros _].
  destruct c; try discriminate Hc; clear Hc;
    try apply returns_ret;
    unfold cmd_provider, cmd_ls, cmd_read, cmd_write, cmd_append, cmd_delete,
      cmd_rename, cmd_download, cmd_image, cmd_sandbox, cmd_exec, cmd_auto,
      cmd_multiline, cmd_persistent, cmd_browser, cmd_url, cmd_visit, cmd_click,
      cmd_type, cmd_mcp_add, cmd_mcp_tools, cmd_mcp_call, cmd_grep, cmd_glob,
      cmd_git, cmd_project, cmd_memory;
    returns_auto.
Qed.

(** X19. Thirty of the forty handlers keep every failure of the file
    system, the shell, the network and the browser to themselves:
    called with any arguments in any state, and every call they await
    being answered, they return normally; they neither throw nor end
    the process. *)
Theorem contained_handlers_always_return (c : Command) (fuel : nat)
    (args : list jsstring) (s : State) :
  contained c = true ->
  exists s', run w (S fuel) c args s = Return tt s'.
Proof.
  intros Hc. destruct (returns_run c fuel args Hc s) as ([] & s' & H).
  exists s'. exact H.
Qed.

(** X20. A STEP of the agent loop whose action is one of these
    handlers goes on to the next STEP, whatever the handler met: no
    failure of the file system, the shell, the network or the browser
    can end the loop in ABORTED through them. *)
Theorem contained_action_keeps_loop_going (fuel : nat) (s : State)
    (text : jsstring) (c : Command) :
  providerAnswers w s text ->
  isDone (trim text) = false ->
  startsWith (trim text) (lit "/") = true ->
  commands (hd [] (split1 32%N (trim text))) = Some c ->
  contained c = true ->
  exists s', agentStep w (run w (S fuel)) s = Return Continue s'.
Proof.
  intros Hans Hnot Hslash Hcmd Hc. rewrite agentStep_eq.
  assert (Hact : forall s1, exists s',
             act (run w (S fuel)) text s1 = Return Continue s').
  { intros s1. unfold act. run_monad. rewrite Hnot, Hslash, Hcmd.
    destruct (returns_run c fuel (tl (split1 32%N (trim text))) Hc
                (with_history (history s1 ++ [{| role := model; content := trim text |}]) s1))
      as ([] & s' & ->).
    eexists. reflexivity. }
  destruct Hans as [(Hto & Hg & Hne & Hok) | (Hto & Hd & Hok)].
  - destruct (taskRequest_nonempty s Hne) as [request Hreq].
    rewrite (taskResponse_gemini w s request Hto Hg Hreq), Hok.
    destruct (Hact (tick (record (CallGemini request) s))) as [s' ->]. eauto.
  - rewrite (taskResponse_deepseek w s Hto Hd), Hok.
    destruct (Hact (tick (record (CallDeepSeek (taskMessages w s)) s))) as [s' ->]. eauto.
Qed.

(** X21. When the external call of [/ls], [/read], [/append], [/exec]
    or [/url] fails, the handler returns without pushing a Turn: the
    error goes to the terminal only, and the model is not told. *)
Theorem failed_command_leaves_no_turn (c : Command) (fuel : nat)
    (args : list jsstring) (s : State) :
  callFails w (clock s) c args ->
  exists s', run w (S fuel) c args s = Return tt s' /\ history s' = history s.
Proof.
  intros Hfail. cbn [run]. unfold bind at 1, modify at 1.
  destruct c; try contradiction; destruct Hfail as [e Hfail];
    unfold cmd_ls, cmd_read, cmd_append, cmd_exec, cmd_url; run_monad;
    cbn [clock record].
  - rewrite Hfail. eexists. split; reflexivity.
  - destruct (truthy (arg 0 args)); cbn [negb]; cbv beta iota; cbn [clock record];
      [rewrite Hfail|]; eexists; split; reflexivity.
  - destruct (List.length args <? 2); cbv beta iota; cbn [clock record];
      [|rewrite Hfail]; eexists; split; reflexivity.
  - rewrite Hfail. eexists. split; reflexivity.
  - destruct (truthy (arg 0 args)); cbn [negb]; cbv beta iota; cbn [clock record];
      [rewrite Hfail|]; eexists; split; reflexivity.
Qed.



End Handlers.

Lemma contained_handlers_always_return_witness :
  exists s', run offline 1 Exec [lit "ls"; lit "-la"] afterLs = Return tt s'.
Proof.
  exact (contained_handlers_always_return offline Exec 0 [lit "ls"; lit "-la"] afterLs
           eq_refl).
Defined.

Lemma contained_action_keeps_loop_going_witness :
  exists s', agentStep listing (run listing 1) afterLs = Return Continue s'.
Proof.
  apply (contained_action_keeps_loop_going listing 0 afterLs (lit "/ls .") Ls).
  - left. split; [reflexivity|]. split; [reflexivity|]. split; [discriminate|].
    intros request. reflexivity.
  - reflexivity.
  - reflexivity.
  - reflexivity.
  - reflexivity.
Defined.

Lemma failed_command_leaves_no_turn_witness :
  exists s',
    run unreadable 1 Read [lit "missing.txt"] afterLs = Return tt s'
    /\ history s' = history afterLs.
Proof.
  apply (failed_command_leaves_no_turn unreadable Read 0 [lit "missing.txt"] afterLs).
  exists (lit "ENOENT: no such file or directory"). reflexivity.
Defined.


End HandlerFacts.

(** ** The tool server: which paths reach the file system *)

Module ServerSafety.
Import ToolServer Laws Cases.

Section Safety.

Variable isAbsolute : jsstring -> bool.
Hypothesis isAbsolute_empty : isAbsolute [] = false.

(** X23. The answer to a POST depends on the file system only at paths
    that pass the check: two file systems that behave alike on every
    path without [..] that is not absolute get the same answer to every
    request.  So no request reads, writes or appends to a path that
    contains [..] or is absolute. *)
Theorem rejected_paths_never_reach_fs (fs1 fs2 : FileSystem) (req : Request) :
  agreeOn (fun p => negb (path_rejected isAbsolute p)) fs1 fs2 ->
  post isAbsolute fs1 req = post isAbsolute fs2 req.
Proof.
  intros Hagree. unfold post.
  destruct (arguments req) as [[|a0 rest]|] eqn:Hargs.
  - destruct (tool_of_name (toolName req)) as [[]|]; reflexivity.
  - rewrite (ToolServerFacts.invalid_path_first isAbsolute isAbsolute_empty).
    destruct (path_rejected isAbsolute a0) eqn:Hrej; [reflexivity|].
    destruct (Hagree a0) as (Hr & Hw & Ha); [rewrite Hrej; reflexivity|].
    destruct (tool_of_name (toolName req)) as [[]|]; [| | |reflexivity];
      cbn [run_tool path_operand]; rewrite ?Hr, ?Hw, ?Ha; reflexivity.
  - destruct (tool_of_name (toolName req)) as [[]|]; reflexivity.
Qed.

End Safety.

Lemma rejected_paths_never_reach_fs_witness :
  post posix_isAbsolute oneFile
    {| toolName := lit "readFile"; arguments := Some [lit "../secret"] |}
  = post posix_isAbsolute leaky
      {| toolName := lit "readFile"; arguments := Some [lit "../secret"] |}.
Proof.
  apply (rejected_paths_never_reach_fs posix_isAbsolute eq_refl oneFile leaky).
  intros p Hp. split; [|split; reflexivity].
  cbn [fs_readFile leaky].
  destruct (JS.eqb p (lit "../secret")) eqn:Hsecret; [|reflexivity].
  apply JSFacts.eqb_eq in Hsecret. subst p. discriminate Hp.
Defined.

End ServerSafety.

(** ** Context, registry, git and the daemon *)

Module MoreFacts.
Import Store Bex BexFacts Laws Samples Cases JSFacts.
Local Open Scope bex_scope.

Section World.

Variable w : World.

(** X24. Whichever backend is asked and whether or not the line is a
    system prompt, the request shows the model the whole history,
    oldest Turn first, and then the line, once: it is neither left out
    nor sent twice. *)
Theorem exchange_sends_line_once (line : jsstring) (sys : bool) (s : State) :
  map g_text (geminiWindow (chatRequest line sys (asked line sys s)))
  = map (fun t => g_text (geminiContent t)) (history s) ++ [line]
  /\ map c_content (chatMessages w line sys (asked line sys s))
     = SYSTEM_INSTRUCTIONS w :: map content (history s) ++ [line].
Proof.
  unfold geminiWindow, chatRequest, chatMessages, asked.
  destruct sys; cbn [g_history g_parts history with_history map].
  - rewrite !map_app, !map_map. split; reflexivity.
  - rewrite removelast_last, !map_app, !map_map, app_nil_r. split; reflexivity.
Qed.

(** *** The MCP registry *)

Lemma lookup_replace_same (key value : jsstring) (table : list (jsstring * jsstring)) :
  hasKey key table = true -> lookup key (replace key value table) = Some value.
Proof.
  induction table as [|[k v] rest IH]; cbn [hasKey existsb fst replace]; [discriminate|].
  destruct (JS.eqb k key) eqn:Hk; cbn [orb lookup]; rewrite Hk; [reflexivity | exact IH].
Qed.

Lemma lookup_replace_other (key value other : jsstring)
    (table : list (jsstring * jsstring)) :
  other <> key -> lookup other (replace key value table) = lookup other table.
Proof.
  intros Hother. induction table as [|[k v] rest IH]; cbn [replace lookup]; [reflexivity|].
  destruct (JS.eqb k key) eqn:Hk; cbn [lookup].
  - apply eqb_eq in Hk. subst k.
    assert (H : JS.eqb key other = false) by (apply eqb_neq; congruence).
    rewrite H. reflexivity.
  - rewrite IH. reflexivity.
Qed.

Lemma lookup_insertIndex_same (i : N) (key value : jsstring)
    (table : list (jsstring * jsstring)) :
  hasKey key table = false -> lookup key (insertIndex i key value table) = Some value.
Proof.
  induction table as [|[k v] rest IH]; cbn [hasKey existsb fst insertIndex]; intros Hno.
  - cbn [lookup]. rewrite eqb_refl. reflexivity.
  - apply orb_false_iff in Hno. destruct Hno as [Hk Hrest].
    destruct (arrayIndex k) as [j|]; [destruct (j <? i)%N|]; cbn [lookup];
      rewrite ?Hk, ?eqb_refl; try reflexivity.
    apply IH. exact Hrest.
Qed.

Lemma lookup_insertIndex_other (i : N) (key value other : jsstring)
    (table : list (jsstring * jsstring)) :
  other <> key -> lookup other (insertIndex i key value table) = lookup other table.
Proof.
  intros Hother.
  assert (H : JS.eqb key other = false) by (apply eqb_neq; congruence).
  induction table as [|[k v] rest IH]; cbn [insertIndex lookup].
  - rewrite H. reflexivity.
  - destruct (arrayIndex k) as [j|]; [destruct (j <? i)%N|]; cbn [lookup];
      rewrite ?H, ?IH; reflexivity.
Qed.

Lemma lookup_app_same (key value : jsstring) (table : list (jsstring * jsstring)) :
  hasKey key table = false -> lookup key (table ++ [(key, value)]) = Some value.
Proof.
  induction table as [|[k v] rest IH]; cbn [hasKey existsb fst app lookup]; intros Hno.
  - rewrite eqb_refl. reflexivity.
  - apply orb_false_iff in Hno. destruct Hno as [Hk Hrest]. rewrite Hk. apply IH.
    exact Hrest.
Qed.

Lemma lookup_app_other (key value other : jsstring)
    (table : list (jsstring * jsstring)) :
  other <> key -> lookup other (table ++ [(key, value)]) = lookup other table.
Proof.
  intros Hother.
  assert (H : JS.eqb key other = false) by (apply eqb_neq; congruence).
  induction table as [|[k v] rest IH]; cbn [app lookup].
  - rewrite H. reflexivity.
  - rewrite IH. reflexivity.
Qed.

Lemma lookup_assign_same (key value : jsstring) (table : list (jsstring * jsstring)) :
  key <> lit "__proto__" -> lookup key (assign key value table) = Some value.
Proof.
  intros Hkey. unfold assign. destruct (hasKey key table) eqn:Hhas.
  - apply lookup_replace_same. exact Hhas.
  - apply eqb_neq in Hkey. rewrite Hkey. destruct (arrayIndex key) as [i|].
    + apply lookup_insertIndex_same. exact Hhas.
    + apply lookup_app_same. exact Hhas.
Qed.

Lemma lookup_assign_other (key value other : jsstring)
    (table : list (jsstring * jsstring)) :
  other <> key -> lookup other (assign key value table) = lookup other table.
Proof.
  intros Hother. unfold assign. destruct (hasKey key table).
  - apply lookup_replace_other. exact Hother.
  - destruct (JS.eqb key (lit "__proto__")); [reflexivity|].
    destruct (arrayIndex key) as [i|].
    + apply lookup_insertIndex_other. exact Hother.
    + apply lookup_app_other. exact Hother.
Qed.

(** X25. A server added with [/mcp_add label url] is the one that
    [/mcp_call label tool ...] posts to: the call goes to [url] with
    the tool name and the remaining arguments, its answer becomes one
    system Turn, and a failed call adds none.  Adding the server pushes
    no Turn and leaves the URL of every other label as it was. *)
Theorem mcp_call_reaches_added_server (label url tool : jsstring)
    (rest : list jsstring) (s : State) :
  label <> lit "__proto__" -> url <> [] ->
  exists s1,
    cmd_mcp_add [label; url] s = Return tt s1
    /\ history s1 = history s
    /\ (forall other, other <> label ->
          lookup other (mcpServers s1) = lookup other (mcpServers s))
    /\ exists s2,
         cmd_mcp_call w (label :: tool :: rest) s1 = Return tt s2
         /\ history s2 =
            history s ++
            match postTool w (clock s) url tool rest with
            | Ok answer =>
                [{| role := system;
                    content := lit "MCP Call " ++ tool ++ lit " result: " ++ answer |}]
            | Err _ => []
            end.
Proof.
  intros Hlabel Hurl. eexists. split; [reflexivity|]. split; [reflexivity|].
  cbn [mcpServers with_mcpServers show arg nth_error]. split.
  - intros other Hother. apply lookup_assign_other. exact Hother.
  - unfold cmd_mcp_call. cbn [List.length Nat.ltb Nat.leb]. run_monad.
    cbn [mcpServers with_mcpServers show arg nth_error].
    rewrite (lookup_assign_same label url (mcpServers s) Hlabel).
    destruct url as [|c u]; [contradiction|].
    cbn [clock with_mcpServers skipn].
    destruct (postTool w (clock s) (c :: u) tool rest) as [answer|e].
    + eexists. split; reflexivity.
    + eexists. split; [reflexivity|]. cbn [history]. rewrite app_nil_r. reflexivity.
Qed.



(** X27. [/git] with a subcommand other than [status], [log], [diff]
    and [commits], or with none, runs no command: it returns with the
    state untouched. *)
Theorem git_unknown_subcommand_runs_nothing (args : list jsstring) (s : State) :
  (forall sub, arg 0 args = Some sub -> ~ In sub gitSubcommands) ->
  cmd_git w args s = Return tt s.
Proof.
  intros Hsub. unfold cmd_git, gitCommand.
  destruct (arg 0 args) as [sub|]; [|reflexivity].
  specialize (Hsub sub eq_refl). unfold gitSubcommands in Hsub. cbn [In] in Hsub.
  destruct (JS.eqb sub (lit "status")) eqn:H1;
    [apply eqb_eq in H1; exfalso; apply Hsub; auto|].
  destruct (JS.eqb sub (lit "log")) eqn:H2;
    [apply eqb_eq in H2; exfalso; apply Hsub; auto|].
  destruct (JS.eqb sub (lit "diff")) eqn:H3;
    [apply eqb_eq in H3; exfalso; apply Hsub; auto|].
  destruct (JS.eqb sub (lit "commits")) eqn:H4;
    [apply eqb_eq in H4; exfalso; apply Hsub; auto 6|].
  reflexivity.
Qed.

(** X28. An image attached with [/image file] travels with the next
    Gemini request, after the text, under the MIME type looked up for
    the file name or [image/png] when there is none; attaching pushes
    no Turn. *)
Theorem image_attached_to_next_prompt (file base64 line : jsstring) (sys : bool)
    (s : State) :
  file <> [] ->
  readFileBase64 w (clock s) file = Ok base64 ->
  exists s1,
    cmd_image w [file] s = Return tt s1
    /\ history s1 = history s
    /\ g_parts (chatRequest line sys s1)
       = [TextPart line;
          ImagePart {| data := base64;
                       mimeType := orElse (mimeLookup w file) (lit "image/png") |}].
Proof.
  intros Hfile Hread. destruct file as [|c file]; [contradiction|].
  unfold cmd_image. cbn [arg nth_error truthy negb show]. run_monad. rewrite Hread.
  eexists. split; [reflexivity|]. split; reflexivity.
Qed.

End World.

Lemma mcp_call_reaches_added_server_witness :
  exists s1,
    cmd_mcp_add [lit "files"; lit "http://localhost:4000"] afterLs = Return tt s1
    /\ history s1 = history afterLs
    /\ (forall other, other <> lit "files" ->
          lookup other (mcpServers s1) = lookup other (mcpServers afterLs))
    /\ exists s2,
         cmd_mcp_call offline [lit "files"; lit "readFile"; lit "notes.txt"] s1
         = Return tt s2
         /\ history s2 =
            history afterLs ++
            [{| role := system; content := lit "MCP Call readFile result: {}" |}].
Proof.
  apply (mcp_call_reaches_added_server offline (lit "files") (lit "http://localhost:4000")
           (lit "readFile") [lit "notes.txt"] afterLs); discriminate.
Defined.

Lemma git_unknown_subcommand_runs_nothing_witness :
  cmd_git offline [lit "push"; lit "--force"] afterLs = Return tt afterLs.
Proof.
  apply git_unknown_subcommand_runs_nothing.
  intros sub Hsub. injection Hsub as <-. cbn [gitSubcommands In].
  intros [H | [H | [H | [H | []]]]]; discriminate H.
Defined.

Lemma image_attached_to_next_prompt_witness :
  exists s1,
    cmd_image untyped [lit "cat.webp"] afterLs = Return tt s1
    /\ history s1 = history afterLs
    /\ g_parts (chatRequest hello false s1)
       = [TextPart hello;
          ImagePart {| data := lit "aGVsbG8="; mimeType := lit "image/png" |}].
Proof.
  apply (image_attached_to_next_prompt untyped (lit "cat.webp") (lit "aGVsbG8=") hello false
           afterLs); [discriminate | reflexivity].
Defined.

End MoreFacts.

(** ** Daemon and worker *)

Module ProcessFacts.
Import Process JSFacts.

Lemma hasFlag_In (flag : jsstring) (argv : list jsstring) :
  hasFlag flag argv = true <-> In flag argv.
Proof.
  unfold hasFlag. rewrite existsb_exists. split.
  - intros (a & Hin & Heq). apply eqb_eq in Heq. subst a. exact Hin.
  - intros Hin. exists flag. split; [exact Hin | apply eqb_refl].
Qed.

(** X29. The process that [--daemon] spawns is a worker and not a
    daemon again: its arguments are those of the parent after the
    executable, without any [--daemon] and followed by [--worker], so a process started with them under the same
    executable takes the worker branch and spawns nothing. *)
Theorem daemon_spawns_worker (exe : jsstring) (argv : list jsstring) :
  exe <> daemonFlag ->
  hasFlag daemonFlag (workerArgs argv) = false
  /\ (forall a, In a (tl argv) -> a <> daemonFlag -> In a (workerArgs argv))
  /\ start (exe :: workerArgs argv) = Work.
Proof.
  intros Hexe.
  assert (Hno : hasFlag daemonFlag (workerArgs argv) = false).
  { apply not_true_is_false. intros H. apply hasFlag_In in H.
    unfold workerArgs in H. apply in_app_or in H. destruct H as [H | [H | []]].
    - apply filter_In in H. destruct H as [_ H]. rewrite eqb_refl in H. discriminate.
    - discriminate. }
  split; [exact Hno|]. split.
  { intros a Hin Ha. unfold workerArgs. apply in_or_app. left.
    apply filter_In. split; [exact Hin|]. apply eqb_neq in Ha. rewrite Ha. reflexivity. }
  unfold start.
  assert (Hd : hasFlag daemonFlag (exe :: workerArgs argv) = false).
  { unfold hasFlag in *. cbn [existsb]. rewrite Hno, orb_false_r.
    apply eqb_neq. exact Hexe. }
  rewrite Hd.
  assert (Hw : hasFlag workerFlag (exe :: workerArgs argv) = true).
  { apply hasFlag_In. right. unfold workerArgs. apply in_or_app. right. left. reflexivity. }
  rewrite Hw. reflexivity.
Qed.

Lemma daemon_spawns_worker_witness :
  hasFlag daemonFlag
    (workerArgs [lit "/usr/bin/node"; lit "index.js"; lit "--daemon"]) = false
  /\ (forall a, In a (tl [lit "/usr/bin/node"; lit "index.js"; lit "--daemon"]) ->
         a <> daemonFlag ->
         In a (workerArgs [lit "/usr/bin/node"; lit "index.js"; lit "--daemon"]))
  /\ start (lit "/usr/bin/node"
            :: workerArgs [lit "/usr/bin/node"; lit "index.js"; lit "--daemon"]) = Work.
Proof.
  apply daemon_spawns_worker. discriminate.
Defined.

End ProcessFacts.
